(** * Shallow embedding of blenderAutoBake
    (blender_texture_bakingBYMaterial_automation_ue5_v003.py).

    Scope: the UV fingerprint [MaterialManager.get_uv_hash], the shared
    material pass [MaterialManager.duplicate_shared_materials], the node
    graph edits [setup_bake_node], [setup_metallic_nodes] and
    [restore_material_links], and the bake orchestration
    [TextureBaker._bake_all_maps], [TextureBaker.bake_material] and
    [TextureBaker.execute].

    Modelling conventions.
    - Blender data blocks are referenced by identity; a material is a nat
      index into the scene's material table, a mesh object is an index into
      the scene's object list, and a node is identified by a nat id that is
      fresh in its node tree.
    - A UV coordinate is a rational (the exact value of the float); Python's
      [round(x, 4)] is round-half-even of [x * 10^4], kept as the integer
      count of 1e-4 units, so the rounded floats compare as those integers.
    - Python's [hash(tuple(uv_coords))] is represented by the sorted tuple
      itself: equal tuples give equal values, and hash collisions are not
      modelled.
    - Raising is modelled by [None] (or a [false] success flag where the
      state changed before the raise must be kept). *)

From Stdlib Require Import ZArith QArith Ascii String.
From stdpp Require Import base list sorting strings pretty.


(* ------------------------------------------------------------------ *)
(** ** Scene data *)

(** [bpy.types.MeshPolygon]: slot index and loop indices. *)
Record poly := mkPoly {
  material_index : nat;
  loop_indices : list nat
}.

(** A scene object: name, [obj.type == 'MESH'], its material slots
    (each holding no material or a material id), its UV layers (each a
    per-loop table of [(u, v)]), the index of the active layer and the
    polygons of its mesh. *)
Record obj := mkObj {
  o_name : string;
  o_is_mesh : bool;
  o_slots : list (option nat);
  o_uv_layers : list (list (Q * Q));
  o_uv_active : nat;
  o_polys : list poly
}.

(** [round(x, 4)] on the exact value of a float: round half to even of
    [x * 10000]. *)
Definition round4 (x : Q) : Z :=
  let n := (Qnum x * 10000)%Z in
  let d := Zpos (Qden x) in
  let q := (n / d)%Z in
  let r := (n mod d)%Z in
  if (2 * r <? d)%Z then q
  else if (d <? 2 * r)%Z then (q + 1)%Z
  else if Z.even q then q else (q + 1)%Z.

(* ------------------------------------------------------------------ *)
(** ** [MaterialManager.get_uv_hash] *)

(** The value returned by [get_uv_hash]: the three sentinel strings or the
    hash of the sorted coordinate tuple. *)
Inductive uv_hash :=
  | NoUV                          (* 'no_uv' *)
  | MaterialNotFound              (* 'material_not_found' *)
  | EmptyUV                       (* 'empty_uv' *)
  | Hash (coords : list (Z * Z)). (* hash(tuple(uv_coords)) *)

Global Instance uv_hash_eq_dec : EqDecision uv_hash.
Proof. solve_decision. Defined.

(** [uv_hash in ['no_uv', 'material_not_found', 'empty_uv']] *)
Definition is_sentinel (h : uv_hash) : bool :=
  match h with Hash _ => false | _ => true end.

(** Python's ordering of 2-tuples of floats: lexicographic. *)
Definition uv_leb (a b : Z * Z) : bool :=
  (a.1 <? b.1)%Z || ((a.1 =? b.1)%Z && (a.2 <=? b.2)%Z).

Fixpoint uv_insert (x : Z * Z) (l : list (Z * Z)) : list (Z * Z) :=
  match l with
  | [] => [x]
  | y :: l' => if uv_leb x y then x :: l else y :: uv_insert x l'
  end.

(** [uv_coords.sort()]: any correct sort; on a total antisymmetric order
    all of them, TimSort included, return the same list. *)
Fixpoint uv_sort (l : list (Z * Z)) : list (Z * Z) :=
  match l with
  | [] => []
  | x :: l' => uv_insert x (uv_sort l')
  end.

(** [obj.data.uv_layers.active.data]; [None] when there is no active
    layer (the attribute access raises). *)
Definition active_layer (o : obj) : option (list (Q * Q)) :=
  o_uv_layers o !! o_uv_active o.

(** [for loop_idx in poly.loop_indices: uv = ...data[loop_idx].uv;
    uv_coords.append((round(uv.x, 4), round(uv.y, 4)))];
    an index out of range raises. *)
Fixpoint loop_uvs (data : option (list (Q * Q))) (loops : list nat)
    : option (list (Z * Z)) :=
  match loops with
  | [] => Some []
  | li :: rest =>
      match data with
      | None => None
      | Some d =>
          match d !! li with
          | None => None
          | Some (u, v) =>
              match loop_uvs data rest with
              | None => None
              | Some r => Some ((round4 u, round4 v) :: r)
              end
          end
      end
  end.

(** The body of the polygon loop of [get_uv_hash] for one polygon. *)
Definition poly_uvs (o : obj) (m : nat) (p : poly) : option (list (Z * Z)) :=
  if Nat.ltb (material_index p) (length (o_slots o)) then
    match o_slots o !! material_index p with
    | Some (Some m') =>
        if Nat.eqb m' m then loop_uvs (active_layer o) (loop_indices p) else Some []
    | _ => Some []
    end
  else Some [].

(** [for poly in obj.data.polygons: ...] *)
Fixpoint collect_uvs (o : obj) (m : nat) (ps : list poly) : option (list (Z * Z)) :=
  match ps with
  | [] => Some []
  | p :: ps' =>
      match poly_uvs o m p with
      | None => None
      | Some a =>
          match collect_uvs o m ps' with
          | None => None
          | Some b => Some (a ++ b)
          end
      end
  end.

(** [material in material_indices]: the keys are the slots' materials. *)
Definition has_material (o : obj) (m : nat) : bool :=
  existsb (fun s => bool_decide (s = Some m)) (o_slots o).

Definition get_uv_hash (o : obj) (m : nat) : option uv_hash :=
  match o_uv_layers o with
  | [] => Some NoUV
  | _ :: _ =>
      if negb (has_material o m) then Some MaterialNotFound
      else
        match collect_uvs o m (o_polys o) with
        | None => None
        | Some cs =>
            match uv_sort cs with
            | [] => Some EmptyUV
            | sorted => Some (Hash sorted)
            end
        end
  end.

(* ------------------------------------------------------------------ *)
(** ** Shader node trees *)

(** [node.type] for the kinds the code creates or tests; any other kind
    is kept with its Blender type name and the names of its input
    sockets. *)
Inductive node_type :=
  | EMISSION | VALUE | BSDF_PRINCIPLED | OUTPUT_MATERIAL | TEX_IMAGE
  | OTHER_NODE (kind : string) (inputs : list string).

Global Instance node_type_eq_dec : EqDecision node_type.
Proof. solve_decision. Defined.

Record node := mkNode {
  n_id : nat;
  n_type : node_type;
  n_name : string
}.

(** A socket is named by its node and its identifier ([inputs['Metallic']],
    [outputs[0]] written as the output's identifier). *)
Definition socket : Type := nat * string.

(** [(link.from_socket, link.to_socket)] *)
Definition link : Type := socket * socket.

(** [material.node_tree]: its nodes and links in collection order, and
    the next fresh node id. *)
Record graph := mkGraph {
  g_nodes : list node;
  g_links : list link;
  g_next : nat
}.

(** The name [nodes.new] gives a node of a kind. *)
Definition default_name (t : node_type) : string :=
  match t with
  | EMISSION => "Emission"
  | VALUE => "Value"
  | BSDF_PRINCIPLED => "Principled BSDF"
  | OUTPUT_MATERIAL => "Material Output"
  | TEX_IMAGE => "Image Texture"
  | OTHER_NODE k _ => k
  end.

(** Whether [node.inputs['Surface']] exists: a Material Output node has
    that input; Emission, Value, Principled BSDF and Image Texture nodes
    have none. *)
Definition has_surface_input (t : node_type) : bool :=
  match t with
  | OUTPUT_MATERIAL => true
  | OTHER_NODE _ ins => existsb (fun s => String.eqb s "Surface") ins
  | _ => false
  end.

Definition name_taken (g : graph) (s : string) : bool :=
  existsb (fun n => String.eqb (n_name n) s) (g_nodes g).

Definition pad3 (k : nat) : string :=
  if Nat.ltb k 10 then String.append "00" (pretty k)
  else if Nat.ltb k 100 then String.append "0" (pretty k)
  else pretty k.

Fixpoint pick_name (g : graph) (base : string) (k fuel : nat) : string :=
  match fuel with
  | 0 => base
  | S f =>
      let c := String.append base (String.append "." (pad3 k)) in
      if name_taken g c then pick_name g base (S k) f else c
  end.

(** Blender's unique node names: [base], else [base.001], [base.002], ... *)
Definition unique_name (g : graph) (base : string) : string :=
  if name_taken g base then pick_name g base 1 (S (length (g_nodes g)))
  else base.

(** [nodes.new(kind)]: appended at the end of the collection. *)
Definition nodes_new (t : node_type) (g : graph) : node * graph :=
  let n := mkNode (g_next g) t (unique_name g (default_name t)) in
  (n, mkGraph (g_nodes g ++ [n]) (g_links g) (S (g_next g))).

(** [nodes.get(name)] *)
Definition nodes_get (s : string) (g : graph) : option node :=
  find (fun n => String.eqb (n_name n) s) (g_nodes g).

Definition touches (i : nat) (l : link) : bool :=
  Nat.eqb l.1.1 i || Nat.eqb l.2.1 i.

(** [nodes.remove(node)]: the node and every link at one of its sockets
    go away. *)
Definition nodes_remove (i : nat) (g : graph) : graph :=
  mkGraph (List.filter (fun n => negb (Nat.eqb (n_id n) i)) (g_nodes g))
          (List.filter (fun l => negb (touches i l)) (g_links g))
          (g_next g).

Definition node_exists (g : graph) (i : nat) : bool :=
  existsb (fun n => Nat.eqb (n_id n) i) (g_nodes g).

(** [links.new(from_socket, to_socket)] on two socket objects: an input
    socket takes one link, so the links already entering [to_socket] are
    replaced. A socket whose node is no longer in the tree makes no link
    and the call returns [None] without raising. (A socket looked up by a
    name the node lacks raises [KeyError] at the lookup, before the call;
    the callers model that lookup.) *)
Definition links_new (from to : socket) (g : graph) : graph :=
  if node_exists g from.1 && node_exists g to.1 then
    mkGraph (g_nodes g)
            (List.filter (fun l => negb (bool_decide (l.2 = to))) (g_links g)
               ++ [(from, to)])
            (g_next g)
  else g.

(** [socket.links] of an input socket. *)
Definition links_into (s : socket) (g : graph) : list link :=
  List.filter (fun l => bool_decide (l.2 = s)) (g_links g).

Definition set_node_name (i : nat) (s : string) (g : graph) : graph :=
  mkGraph (map (fun n => if Nat.eqb (n_id n) i then mkNode (n_id n) (n_type n) s
                         else n) (g_nodes g))
          (g_links g) (g_next g).

(** [MaterialManager.setup_bake_node]. [use_nodes], [select] and
    [nodes.active] are not modelled. *)
Definition setup_bake_node (g : graph) : nat * graph :=
  let g1 := match nodes_get "Bake_Target" g with
            | Some e => nodes_remove (n_id e) g
            | None => g
            end in
  let '(bn, g2) := nodes_new TEX_IMAGE g1 in
  (n_id bn, set_node_name (n_id bn) "Bake_Target" g2).

(** [MaterialManager.setup_metallic_nodes]: the graph after the edits and
    the returned snapshot, or [None] when [output.inputs['Surface']]
    raises [KeyError] (the node named ['Material Output'] has no Surface
    input); the edits made before the raise stay. *)
Definition setup_metallic_nodes (g : graph) : graph * option (list link) :=
  let original_links := g_links g in
  let '(emit, g1) := nodes_new EMISSION g in
  let '(output, g2) := match nodes_get "Material Output" g1 with
                       | Some o => (o, g1)
                       | None => nodes_new OUTPUT_MATERIAL g1
                       end in
  let '(principled, g3) :=
    match find (fun n => bool_decide (n_type n = BSDF_PRINCIPLED)) (g_nodes g2) with
    | Some p => (p, g2)
    | None => nodes_new BSDF_PRINCIPLED g2
    end in
  let metallic : socket := (n_id principled, "Metallic") in
  let g4 :=
    match links_into metallic g3 with
    | l :: _ => links_new l.1 (n_id emit, "Strength") g3
    | [] =>
        let '(value, g3') := nodes_new VALUE g3 in
        links_new (n_id value, "Value") (n_id emit, "Strength") g3'
    end in
  if has_surface_input (n_type output) then
    (links_new (n_id emit, "Emission") (n_id output, "Surface") g4, Some original_links)
  else (g4, None).

Definition is_temp_kind (t : node_type) : bool :=
  match t with EMISSION | VALUE => true | _ => false end.

(** [for node in nodes: if node.type in ['EMISSION', 'VALUE']:
    nodes.remove(node)], each node of the collection visited once. *)
Fixpoint remove_temp_nodes (ns : list node) (g : graph) : graph :=
  match ns with
  | [] => g
  | n :: ns' =>
      remove_temp_nodes ns' (if is_temp_kind (n_type n) then nodes_remove (n_id n) g else g)
  end.

(** [for from_socket, to_socket in original_links: links.new(...)]; a
    link at a removed node is skipped and the loop goes on. *)
Fixpoint relink (ls : list link) (g : graph) : graph :=
  match ls with
  | [] => g
  | (f, t) :: ls' => relink ls' (links_new f t g)
  end.

(** [MaterialManager.restore_material_links]; it never raises. *)
Definition restore_material_links (g : graph) (original_links : list link) : graph :=
  relink original_links (remove_temp_nodes (g_nodes g) g).

(* ------------------------------------------------------------------ *)
(** ** Scene, materials and the shared-material pass *)

Record material := mkMat {
  m_name : string;
  m_graph : graph
}.

(** [bpy.context.scene.objects] in order, and [bpy.data.materials] indexed
    by material id ([None] once removed). *)
Record scene := mkScene {
  sc_objects : list obj;
  sc_mats : list (option material)
}.

Definition mat_at (sc : scene) (m : nat) : option material :=
  match sc_mats sc !! m with Some (Some mt) => Some mt | _ => None end.

Definition mat_name (sc : scene) (m : nat) : string :=
  match mat_at sc m with Some mt => m_name mt | None => "" end.

(** [slot.material] of slot [j] of object [i]. *)
Definition slot_of (sc : scene) (i j : nat) : option (option nat) :=
  match sc_objects sc !! i with
  | Some o => o_slots o !! j
  | None => None
  end.

Definition set_mat (m : nat) (mt : material) (sc : scene) : scene :=
  mkScene (sc_objects sc) (<[m := Some mt]> (sc_mats sc)).

(** [material.name = s] *)
Definition rename_mat (m : nat) (s : string) (sc : scene) : scene :=
  match mat_at sc m with
  | Some mt => set_mat m (mkMat s (m_graph mt)) sc
  | None => sc
  end.

(** [slot.material = m] on slot [j] of object [i]. *)
Definition set_slot (i j : nat) (m : nat) (sc : scene) : scene :=
  match sc_objects sc !! i with
  | Some o =>
      mkScene (<[i := mkObj (o_name o) (o_is_mesh o) (<[j := Some m]> (o_slots o))
                         (o_uv_layers o) (o_uv_active o) (o_polys o)]> (sc_objects sc))
              (sc_mats sc)
  | None => sc
  end.

(** A usage [(obj, slot)] is recorded by indices. *)
Definition usage : Type := nat * nat.

(** [material_usage]: a dict keyed by [(material, uv_hash)], in insertion
    order. *)
Definition usage_map : Type := list ((nat * uv_hash) * list usage).

(** [if key not in d: d[key] = []; d[key].append(u)] *)
Fixpoint um_add (k : nat * uv_hash) (u : usage) (um : usage_map) : usage_map :=
  match um with
  | [] => [(k, [u])]
  | (k', us) :: r =>
      if bool_decide (k = k') then (k', us ++ [u]) :: r else (k', us) :: um_add k u r
  end.

(** Pass 1 over the slots of object [i]; a raising [get_uv_hash] skips
    the usage. *)
Fixpoint pass1_slots (i : nat) (o : obj) (j : nat) (slots : list (option nat))
    (um : usage_map) : usage_map :=
  match slots with
  | [] => um
  | s :: rest =>
      let um' := match s with
                 | None => um
                 | Some m =>
                     match get_uv_hash o m with
                     | None => um
                     | Some h => um_add (m, h) (i, j) um
                     end
                 end in
      pass1_slots i o (S j) rest um'
  end.

Fixpoint pass1 (i : nat) (objs : list obj) (um : usage_map) : usage_map :=
  match objs with
  | [] => um
  | o :: rest =>
      pass1 (S i) rest (if o_is_mesh o then pass1_slots i o 0 (o_slots o) um else um)
  end.

(** The body of [for obj, slot in usages[1:]] for one usage. [slot.material]
    is read again; the re-check clones the material into a fresh id when
    the fingerprint differs from the group's. A slot found empty cannot
    occur (pass 1 records filled slots only and pass 2 only refills them)
    and is left alone. *)
Definition pass2_other (m : nat) (h : uv_hash) (sc : scene) (u : usage) : scene :=
  match sc_objects sc !! u.1 with
  | None => sc
  | Some o =>
      match o_slots o !! u.2 with
      | Some (Some cur) =>
          match get_uv_hash o cur with
          | None => sc
          | Some ch =>
              if bool_decide (ch <> h) && negb (is_sentinel ch) then
                match mat_at sc m with
                | None => sc
                | Some mt =>
                    let new_id := length (sc_mats sc) in
                    let inst := mkMat (String.append (m_name mt)
                                         (String.append "_INSTANCE_" (o_name o)))
                                      (m_graph mt) in
                    set_slot u.1 u.2 new_id
                      (mkScene (sc_objects sc) (sc_mats sc ++ [Some inst]))
                end
              else sc
          end
      | _ => sc
      end
  end.

(** Pass 2 for one group [((original_material, uv_hash), usages)]. *)
Definition pass2_group (sc : scene) (e : (nat * uv_hash) * list usage) : scene :=
  let '((m, h), us) := e in
  if Nat.ltb 1 (length us) && negb (is_sentinel h) then
    match us with
    | [] => sc
    | (i0, _) :: rest =>
        let first_name := match sc_objects sc !! i0 with
                          | Some o => o_name o | None => "" end in
        let sc1 := rename_mat m (String.append (mat_name sc m)
                                   (String.append "_MASTER_" first_name)) sc in
        foldl (pass2_other m h) sc1 rest
    end
  else sc.

(** [MaterialManager.duplicate_shared_materials] *)
Definition duplicate_shared_materials (sc : scene) : scene :=
  foldl pass2_group sc (pass1 0 (sc_objects sc) []).

(* ------------------------------------------------------------------ *)
(** ** Baking *)

(** [BakeConstants.BAKE_TYPES.items()], in order. *)
Definition BAKE_TYPES : list (string * string) :=
  [("DIFFUSE", "diffuse"); ("NORMAL", "normal"); ("ROUGHNESS", "roughness");
   ("AO", "ao"); ("EMIT", "metallic")].

(** [s.split('_')] *)
Fixpoint split_aux (s cur : string) : list string :=
  match s with
  | EmptyString => [cur]
  | String c s' =>
      if Ascii.eqb c "_"%char then cur :: split_aux s' ""
      else split_aux s' (String.append cur (String c EmptyString))
  end.

Definition split_underscore (s : string) : list string := split_aux s "".

(** The naming step of [_bake_all_maps]. *)
Definition map_name (name suffix : string) : string :=
  let material_parts := split_underscore name in
  match material_parts with
  | base_material_name :: (_ :: _) as rest =>
      let object_name := String.concat "_" rest in
      String.append base_material_name
        (String.append "_" (String.append object_name (String.append "_" suffix)))
  | _ => String.append name (String.append "_" suffix)
  end.

(** What the run does that the claims observe: each call of
    [bpy.ops.object.bake] (active object, material, bake type, whether it
    returned), each [_save_baked_image], each [restore_material_links]. *)
Inductive event :=
  | EvBake (active : option nat) (mat : nat) (bake_type : string) (ok : bool)
  | EvSave (folder file : string)
  | EvRestore (mat : nat).

Record world := mkWorld {
  w_scene : scene;
  w_active : option nat;
  w_trace : list event
}.

Definition emit (es : list event) (w : world) : world :=
  mkWorld (w_scene w) (w_active w) (w_trace w ++ es).

Definition graph_of (w : world) (m : nat) : option graph :=
  match mat_at (w_scene w) m with Some mt => Some (m_graph mt) | None => None end.

Definition set_graph (m : nat) (g : graph) (w : world) : world :=
  match mat_at (w_scene w) m with
  | Some mt => mkWorld (set_mat m (mkMat (m_name mt) g) (w_scene w)) (w_active w) (w_trace w)
  | None => w
  end.

(** [material.users] as the scene's objects see it: the material is in a
    material slot of one of them. Users from elsewhere (a fake user,
    another scene, a mesh no object of the scene uses) are not modelled,
    so [has_users sc m = false] does not mean that [material.users] is 0. *)
Definition has_users (sc : scene) (m : nat) : bool :=
  existsb (fun o => existsb (fun s => bool_decide (s = Some m)) (o_slots o)) (sc_objects sc).

(** [MaterialManager.cleanup_unused_materials] *)
Definition cleanup_unused_materials (sc : scene) : scene :=
  mkScene (sc_objects sc)
    (imap (fun m e => match e with
                      | Some mt => if has_users sc m then Some mt else None
                      | None => None
                      end) (sc_mats sc)).

Fixpoint nodup_nat (l : list nat) : list nat :=
  match l with
  | [] => []
  | x :: r => x :: List.filter (fun y => negb (Nat.eqb y x)) (nodup_nat r)
  end.

(** [MaterialManager.get_all_materials]. The source returns [list(set)],
    whose order Python leaves unspecified; scene order is taken here. *)
Definition get_all_materials (sc : scene) : list nat :=
  nodup_nat (concat (map (fun o => if o_is_mesh o then
                                     omap (fun s => s) (o_slots o) else [])
                        (sc_objects sc))).

(** [uv_groups[uv_hash].append(obj)] keyed in insertion order. *)
Fixpoint group_add (h : uv_hash) (i : nat) (gs : list (uv_hash * list nat))
    : list (uv_hash * list nat) :=
  match gs with
  | [] => [(h, [i])]
  | (h', os) :: r =>
      if bool_decide (h = h') then (h', os ++ [i]) :: r else (h', os) :: group_add h i r
  end.

(** The grouping loop of [bake_material]; [None] when [get_uv_hash]
    raises (the whole [bake_material] then fails). *)
Fixpoint uv_groups_of (m : nat) (i : nat) (objs : list obj)
    (gs : list (uv_hash * list nat)) : option (list (uv_hash * list nat)) :=
  match objs with
  | [] => Some gs
  | o :: rest =>
      if o_is_mesh o && has_material o m then
        match get_uv_hash o m with
        | None => None
        | Some h => uv_groups_of m (S i) rest (if is_sentinel h then gs else group_add h i gs)
        end
      else uv_groups_of m (S i) rest gs
  end.

Section Baking.

(** The renderer: whether [bpy.ops.object.bake] returns or raises, given
    everything that happened before. *)
Variable renderer : list event -> bool.

(** One iteration of the channel loop of [_bake_all_maps], with its
    [try/except] (result [false] = the [except] branch taken). Creating
    the image and assigning it to the bake node are not modelled. *)
Definition bake_channel (m : nat) (folder : string) (ch : string * string) (w : world)
    : world * bool :=
  match mat_at (w_scene w) m with
  | None => (w, false)
  | Some mt =>
      let '(bake_type, suffix) := ch in
      let name := map_name (m_name mt) suffix in
      let metallic := String.eqb suffix "metallic" in
      let '(w1, pre) :=
        if metallic then
          let '(g', r) := setup_metallic_nodes (m_graph mt) in
          (set_graph m g' w, match r with None => None | Some s => Some (Some s) end)
        else (w, Some None) in
      match pre with
      | None => (w1, false)
      | Some original_links =>
          let bt := if metallic then "EMIT" else bake_type in
          let ok := renderer (w_trace w1) in
          let w2 := emit (EvBake (w_active w1) m bt ok ::
                          (if ok then [EvSave folder (String.append name ".png")] else [])) w1 in
          (* finally: if original_links: restore_material_links(...) *)
          match original_links with
          | Some ((_ :: _) as snap) =>
              match graph_of w2 m with
              | None => (w2, false)
              | Some g2 =>
                  (emit [EvRestore m] (set_graph m (restore_material_links g2 snap) w2), ok)
              end
          | _ => (w2, ok)
          end
      end
  end.

Fixpoint bake_all_maps_aux (m : nat) (folder : string) (chs : list (string * string))
    (w : world) : world * bool :=
  match chs with
  | [] => (w, true)
  | c :: cs =>
      let '(w', ok) := bake_channel m folder c w in
      if ok then bake_all_maps_aux m folder cs w' else (w', false)
  end.

(** [TextureBaker._bake_all_maps] *)
Definition bake_all_maps (m : nat) (folder : string) (w : world) : world * bool :=
  bake_all_maps_aux m folder BAKE_TYPES w.

(** The loop [for uv_hash, objects in uv_groups.items()] of
    [bake_material]: select the group's first object, set up the bake
    node, bake all maps. *)
Fixpoint bake_groups (m : nat) (folder : string) (gs : list (uv_hash * list nat))
    (w : world) : world * bool :=
  match gs with
  | [] => (w, true)
  | (_, objs) :: rest =>
      let w1 := mkWorld (w_scene w) (head objs) (w_trace w) in
      match graph_of w1 m with
      | None => (w1, false)
      | Some g =>
          let w2 := set_graph m (setup_bake_node g).2 w1 in
          let '(w3, ok) := bake_all_maps m folder w2 in
          if ok then bake_groups m folder rest w3 else (w3, false)
      end
  end.

(** [TextureBaker.bake_material]; the material folder is named after the
    material. *)
Definition bake_material (m : nat) (w : world) : world * bool :=
  let folder := mat_name (w_scene w) m in
  match uv_groups_of m 0 (sc_objects (w_scene w)) [] with
  | None => (w, false)
  | Some [] => (w, false)
  | Some gs => bake_groups m folder gs w
  end.

(** [for material in materials: if self.bake_material(...): success_count += 1] *)
Fixpoint execute_loop (mats : list nat) (w : world) : world * nat :=
  match mats with
  | [] => (w, 0)
  | m :: rest =>
      let '(w1, ok) := bake_material m w in
      let '(w2, n) := execute_loop rest w1 in
      (w2, (if ok then 1 else 0) + n)
  end.

(** [TextureBaker.execute]: the final scene and trace, and the report
    [(success_count, len(materials))], or [None] when the top-level
    [try] caught an exception. [bpy.data.filepath] is [filepath];
    [BakeSettings.setup] is renderer configuration and, like the
    [os.makedirs] of [get_output_path], is taken not to raise here (when
    one of them raises, the run stops before the first bake and reports
    nothing). *)
Definition execute (filepath : string) (sc : scene) : world * option (nat * nat) :=
  let sc1 := duplicate_shared_materials sc in
  if String.eqb filepath "" then (mkWorld sc1 None [], None)
  else
    match get_all_materials sc1 with
    | [] => (mkWorld sc1 None [], None)
    | mats =>
        let '(w, n) := execute_loop mats (mkWorld sc1 None []) in
        (mkWorld (cleanup_unused_materials (w_scene w)) (w_active w) (w_trace w),
         Some (n, length mats))
    end.

End Baking.

(* ------------------------------------------------------------------ *)
(** ** Concrete scenes used by the examples below *)

(** [obj.material_slots] filtered to the polygons whose slot index is in
    range. *)
Definition in_range_polys (o : obj) : obj :=
  mkObj (o_name o) (o_is_mesh o) (o_slots o) (o_uv_layers o) (o_uv_active o)
    (List.filter (fun p => Nat.ltb (material_index p) (length (o_slots o))) (o_polys o)).

(** A unit square as two triangles. *)
Definition uv_square : list (Q * Q) :=
  [(0, 0); (1, 0); (1, 1); (0, 1)]%Q.

Definition two_faces : list poly := [mkPoly 0 [0; 1; 2]; mkPoly 0 [2; 3; 0]].

(** The node tree of a new Blender material: Principled BSDF into the
    Material Output. *)
Definition default_graph : graph :=
  mkGraph [mkNode 0 BSDF_PRINCIPLED "Principled BSDF";
           mkNode 1 OUTPUT_MATERIAL "Material Output"]
          [((0, "BSDF"), (1, "Surface"))] 2.

Definition tri_uvs_A : list (Q * Q) := [(0, 0); (1, 0); (1, 1)]%Q.
Definition tri_uvs_B : list (Q * Q) := [(0, 0); (0, 1); (1, 1)]%Q.

(** A triangle mesh named [name] with one slot holding material 0. *)
Definition tri_mesh (name : string) (uvs : list (Q * Q)) : obj :=
  mkObj name true [Some 0] [uvs] 0 [mkPoly 0 [0; 1; 2]].

(** Meshes A and B sharing material M; B's UVs are [uvs_b]. *)
Definition scene_AB (uvs_b : list (Q * Q)) : scene :=
  mkScene [tri_mesh "A" tri_uvs_A; tri_mesh "B" uvs_b] [Some (mkMat "M" default_graph)].

(** A material whose surface is a Diffuse BSDF: no Principled BSDF node. *)
Definition diffuse_graph : graph :=
  mkGraph [mkNode 0 (OTHER_NODE "BSDF_DIFFUSE" ["Color"; "Roughness"; "Normal"; "Weight"])
             "Diffuse BSDF";
           mkNode 1 OUTPUT_MATERIAL "Material Output"]
          [((0, "BSDF"), (1, "Surface"))] 2.

(** A world whose only material (id 0) has node tree [g]. *)
Definition world_of_graph (g : graph) : world :=
  mkWorld (mkScene [] [Some (mkMat "M" g)]) None [].

(** A new material whose Principled BSDF is not connected to the output:
    a node tree without links. *)
Definition unlinked_graph : graph :=
  mkGraph [mkNode 0 BSDF_PRINCIPLED "Principled BSDF";
           mkNode 1 OUTPUT_MATERIAL "Material Output"] [] 2.

(* ------------------------------------------------------------------ *)
(** ** Observations of the trace *)

Definition is_restore (e : event) : bool :=
  match e with EvRestore _ => true | _ => false end.

(** The calls of [bpy.ops.object.bake] in a trace: active object,
    material, bake type. *)
Definition bakes_of (tr : list event) : list (option nat * nat * string) :=
  omap (fun e => match e with EvBake a m bt _ => Some (a, m, bt) | _ => None end) tr.

(** The bakes of [bake_material] when every channel of every UV group
    succeeds: per group, in order, one bake per entry of [BAKE_TYPES]
    with the group's first object active. *)
Definition group_bakes (m : nat) (gs : list (uv_hash * list nat))
    : list (option nat * nat * string) :=
  concat (map (fun grp => map (fun c => (head grp.2, m, c.1)) BAKE_TYPES) gs).

(** How many bakes of type [bt] a list of bakes holds. *)
Definition count_type (bt : string) (bs : list (option nat * nat * string)) : nat :=
  length (List.filter (fun b => String.eqb b.2 bt) bs).

(* ------------------------------------------------------------------ *)
(** ** Predicates used by the statements below *)

Definition uv_le (a b : Z * Z) : Prop := uv_leb a b = true.

(** Usage [u] is a filled slot of a mesh whose material and fingerprint
    are the key [k]. *)
Definition usage_ok (objs : list obj) (k : nat * uv_hash) (u : usage) : Prop :=
  exists o, objs !! u.1 = Some o /\ o_is_mesh o = true /\
            o_slots o !! u.2 = Some (Some k.1) /\ get_uv_hash o k.1 = Some k.2.

Definition um_ok (objs : list obj) (um : usage_map) : Prop :=
  forall k us u, In (k, us) um -> In u us -> usage_ok objs k u.

(** A well-formed node tree: ids below the counter, links between nodes
    of the tree, at most one link into each input socket. *)
Definition graph_wf (g : graph) : Prop :=
  (forall n, In n (g_nodes g) -> n_id n < g_next g) /\
  (forall l, In l (g_links g) -> node_exists g l.1.1 = true /\ node_exists g l.2.1 = true) /\
  NoDup (map snd (g_links g)).

(** Links added by [setup_metallic_nodes] all end or start at the new
    emission node. *)
Definition from_snapshot_or_touches (L0 : list link) (i : nat) (g : graph) : Prop :=
  forall l, In l (g_links g) -> In l L0 \/ touches i l = true.

Definition saves_of (tr : list event) : list (string * string) :=
  omap (fun e => match e with EvSave f n => Some (f, n) | _ => None end) tr.



Definition baked_mats (tr : list event) : list nat := map (fun b => b.1.2) (bakes_of tr).

Definition ids_ok (g : graph) : Prop :=
  (forall n, In n (g_nodes g) -> n_id n < g_next g) /\
  (forall n1 n2, In n1 (g_nodes g) -> In n2 (g_nodes g) -> n_id n1 = n_id n2 -> n1 = n2).

Definition has_bake_target (g : graph) : Prop :=
  exists n, In n (g_nodes g) /\ n_type n = TEX_IMAGE /\ n_name n = "Bake_Target"%string.

(** [g'] keeps every node of [g] and the ids stay fresh and distinct. *)
Definition grows (g g' : graph) : Prop :=
  ids_ok g -> ids_ok g' /\ (forall n, In n (g_nodes g) -> In n (g_nodes g')).

Definition mats_ids_ok (sc : scene) : Prop :=
  forall m mt, mat_at sc m = Some mt -> ids_ok (m_graph mt).

Definition has_target_at (sc : scene) (m : nat) : Prop :=
  exists mt, mat_at sc m = Some mt /\ has_bake_target (m_graph mt).

(** A step of the run keeps the objects, keeps node ids fresh and
    distinct, and keeps every Bake_Target node. *)
Definition step (w w' : world) : Prop :=
  sc_objects (w_scene w') = sc_objects (w_scene w) /\
  (mats_ids_ok (w_scene w) ->
     mats_ids_ok (w_scene w') /\ forall m, has_target_at (w_scene w) m -> has_target_at (w_scene w') m).

(* ------------------------------------------------------------------ *)
(** ** Further definitions: [FileManager] paths, dict views and the
    notions used by the properties of the whole pipeline *)

(** The run keeps the objects and the name (and presence) of every material. *)
Definition kept (w w' : world) : Prop :=
  sc_objects (w_scene w') = sc_objects (w_scene w) /\
  forall m, option_map m_name (mat_at (w_scene w') m) = option_map m_name (mat_at (w_scene w) m).

(** [if k not in d: d[k] = []; d[k].append(v)] on a dict kept in insertion
    order. *)
Fixpoint dict_append {K V : Type} `{EqDecision K} (k : K) (v : V) (d : list (K * list V))
    : list (K * list V) :=
  match d with
  | [] => [(k, [v])]
  | (k', vs) :: r =>
      if bool_decide (k = k') then (k', vs ++ [v]) :: r else (k', vs) :: dict_append k v r
  end.

(** The dict's [(key, value)] pairs. *)
Definition dict_flat {K V : Type} (d : list (K * list V)) : list (K * V) :=
  concat (map (fun e => map (fun v => (e.1, v)) e.2) d).

(** The good objects for material [m]: meshes using [m] whose fingerprint
    is not a sentinel. *)
Definition grouped (objs : list obj) (m : nat) (x : nat) (h : uv_hash) : Prop :=
  exists o, objs !! x = Some o /\ o_is_mesh o = true /\ has_material o m = true /\
    get_uv_hash o m = Some h /\ is_sentinel h = false.

Definition groups_shape (gs : list (uv_hash * list nat)) (bound : nat) : Prop :=
  forall h os, In (h, os) gs ->
    is_sentinel h = false /\ os <> [] /\ StronglySorted lt os /\ forall x, In x os -> x < bound.

(** Every link of the tree joins two nodes of the tree. *)
Definition links_closed (g : graph) : Prop :=
  forall l, In l (g_links g) -> node_exists g l.1.1 = true /\ node_exists g l.2.1 = true.

(** The nodes of the tree named 'Bake_Target'. *)
Definition bake_targets (g : graph) : list node :=
  List.filter (fun n => String.eqb (n_name n) "Bake_Target") (g_nodes g).

(** [str.rfind(c)]: the index of the last [c], or -1. *)
Fixpoint rfind (c : ascii) (s : string) : Z :=
  match s with
  | EmptyString => (-1)%Z
  | String d s' =>
      let r := rfind c s' in
      if Z.leb 0 r then (r + 1)%Z else if Ascii.eqb d c then 0%Z else (-1)%Z
  end.

(** [s * n] *)
Fixpoint str_repeat (s : string) (n : nat) : string :=
  match n with 0 => EmptyString | S k => String.append s (str_repeat s k) end.

(** [str.rstrip(c)] *)
Fixpoint rstrip (c : ascii) (s : string) : string :=
  match s with
  | EmptyString => EmptyString
  | String d s' =>
      let r := rstrip c s' in
      if String.eqb r "" && Ascii.eqb d c then EmptyString else String d r
  end.

Definition startswith (pre s : string) : bool := String.prefix pre s.

Definition endswith (suf s : string) : bool :=
  Nat.leb (String.length suf) (String.length s) &&
  String.eqb (substring (String.length s - String.length suf) (String.length suf) s) suf.

(** [posixpath.dirname] *)
Definition dirname (p : string) : string :=
  let i := Z.to_nat (rfind "/" p + 1) in
  let head := substring 0 i p in
  if negb (String.eqb head "") && negb (String.eqb head (str_repeat "/" (String.length head)))
  then rstrip "/" head else head.

(** [posixpath.join(a, b)] *)
Definition path_join (a b : string) : string :=
  if startswith "/" b then b
  else if String.eqb a "" || endswith "/" a then String.append a b
  else String.append a (String.append "/" b).

(** [FileManager.get_output_path]; [None] is a raised exception: for an
    unsaved file ([bpy.data.filepath] empty), or from [os.makedirs].
    [path_exists p] is [os.path.exists(p)] and [makedirs_ok p] whether
    [os.makedirs(p)] creates the folder without raising. *)
Definition get_output_path (path_exists makedirs_ok : string -> bool) (filepath : string)
    : option string :=
  if String.eqb filepath "" then None
  else
    let output_path := path_join (dirname filepath) "BakedTextures" in
    if path_exists output_path || makedirs_ok output_path then Some output_path else None.

(** [FileManager.create_material_folder]: the path it returns. *)
Definition create_material_folder (material_name output_path : string) : string :=
  path_join output_path material_name.

(** The path [TextureBaker._save_baked_image] saves to. *)
Definition save_baked_image_path (path filename : string) : string :=
  path_join path filename.

(** A mesh with material 0 in its slot and no UV layer. *)
Definition no_uv_world : world :=
  mkWorld (mkScene [mkObj "A" true [Some 0] [] 0 [mkPoly 0 [0; 1; 2]]]
                   [Some (mkMat "M" default_graph)]) None [].

(* ================================================================== *)
(** * Properties *)

(* ------------------------------------------------------------------ *)
(** ** Sorting the coordinates *)

Lemma uv_leb_spec (a b : Z * Z) :
  uv_leb a b = true <-> (a.1 < b.1 \/ a.1 = b.1 /\ a.2 <= b.2)%Z.
Proof.
  unfold uv_leb. rewrite orb_true_iff, andb_true_iff, Z.ltb_lt, Z.eqb_eq, Z.leb_le.
  tauto.
Qed.

Lemma uv_leb_total (a b : Z * Z) : uv_leb a b = false -> uv_leb b a = true.
Proof.
  intros H. apply uv_leb_spec.
  destruct (uv_leb_spec a b) as [_ Hr].
  destruct (Z.lt_trichotomy a.1 b.1) as [?|[?|?]];
    [exfalso; rewrite Hr in H; [discriminate|lia] | | lia].
  destruct (Z.le_gt_cases a.2 b.2); [|lia].
  exfalso. rewrite Hr in H; [discriminate|lia].
Qed.

Global Instance uv_le_trans : Transitive uv_le.
Proof.
  intros a b c. unfold uv_le. rewrite !uv_leb_spec. lia.
Qed.

Global Instance uv_le_antisymm : AntiSymm (=) uv_le.
Proof.
  intros [a1 a2] [b1 b2]. unfold uv_le. rewrite !uv_leb_spec. simpl.
  intros ? ?. f_equal; lia.
Qed.

Lemma uv_insert_perm (x : Z * Z) (l : list (Z * Z)) : uv_insert x l ≡ₚ x :: l.
Proof.
  induction l as [|y l IH]; simpl; [done|].
  destruct (uv_leb x y); [done|].
  rewrite IH. constructor.
Qed.

Lemma uv_sort_perm (l : list (Z * Z)) : uv_sort l ≡ₚ l.
Proof.
  induction l as [|x l IH]; simpl; [done|].
  by rewrite uv_insert_perm, IH.
Qed.

Lemma uv_insert_sorted (x : Z * Z) (l : list (Z * Z)) :
  Sorted uv_le l -> Sorted uv_le (uv_insert x l).
Proof.
  induction 1 as [|y l Hs IH Hhd]; simpl.
  - repeat constructor.
  - destruct (uv_leb x y) eqn:Exy.
    + constructor; [by constructor|by constructor].
    + apply uv_leb_total in Exy.
      constructor; [exact IH|].
      destruct l as [|z l]; simpl; [by constructor|].
      destruct (uv_leb x z); constructor; [done|].
      by inversion Hhd.
Qed.

Lemma uv_sort_sorted (l : list (Z * Z)) : Sorted uv_le (uv_sort l).
Proof.
  induction l as [|x l IH]; simpl; [constructor|].
  by apply uv_insert_sorted.
Qed.

(** [uv_coords.sort()] only depends on the multiset of coordinates. *)
Lemma uv_sort_perm_eq (l1 l2 : list (Z * Z)) : l1 ≡ₚ l2 -> uv_sort l1 = uv_sort l2.
Proof.
  intros Hp. apply (Sorted_unique uv_le); [apply uv_sort_sorted..|].
  by rewrite !uv_sort_perm.
Qed.

(* ------------------------------------------------------------------ *)
(** ** The fingerprint *)

(** C5 — the fingerprint of a (mesh, material) pair depends only on the
    multiset of rounded coordinates collected from its faces: two pairs
    alike in having UV layers and in holding the material, whose collected
    coordinate lists are permutations of each other (for instance the same
    faces traversed in another order), get the same fingerprint, because
    the coordinates are sorted before hashing. *)
Theorem get_uv_hash_order_independent (o1 o2 : obj) (m : nat)
    (cs1 cs2 : list (Z * Z)) :
  (o_uv_layers o1 = [] <-> o_uv_layers o2 = []) ->
  has_material o1 m = has_material o2 m ->
  collect_uvs o1 m (o_polys o1) = Some cs1 ->
  collect_uvs o2 m (o_polys o2) = Some cs2 ->
  cs1 ≡ₚ cs2 ->
  get_uv_hash o1 m = get_uv_hash o2 m.
Proof.
  intros Hl Hm H1 H2 Hp. unfold get_uv_hash.
  destruct (o_uv_layers o1), (o_uv_layers o2); [done| | |];
    try (exfalso; destruct Hl; naive_solver).
  rewrite Hm, H1, H2, (uv_sort_perm_eq cs1 cs2 Hp). done.
Qed.

(** Polygons reordered: the collected list is a permutation. *)
Lemma collect_uvs_perm (o : obj) (m : nat) (ps1 ps2 : list poly) (cs1 : list (Z * Z)) :
  ps1 ≡ₚ ps2 -> collect_uvs o m ps1 = Some cs1 ->
  exists cs2, collect_uvs o m ps2 = Some cs2 /\ cs1 ≡ₚ cs2.
Proof.
  intros Hp. revert cs1. induction Hp as [|p ps1 ps2 Hp IH|p q ps|ps1 ps2 ps3 _ IH1 _ IH2];
    intros cs1 H; simpl in *.
  - exists cs1. by split.
  - destruct (poly_uvs o m p) as [a|]; [|done].
    destruct (collect_uvs o m ps1) as [b|] eqn:Eb; [|done].
    destruct (IH b eq_refl) as (b' & -> & Hb). injection H as <-.
    exists (a ++ b'). split; [done|]. by rewrite Hb.
  - destruct (poly_uvs o m q) as [a|]; [|done].
    destruct (poly_uvs o m p) as [b|]; [|done].
    destruct (collect_uvs o m ps) as [c|]; [|done].
    injection H as <-. eexists. split; [done|].
    rewrite !app_assoc. f_equiv. by rewrite (Permutation_app_comm a b).
  - destruct (IH1 cs1 H) as (c2 & Hc2 & P12).
    destruct (IH2 c2 Hc2) as (c3 & Hc3 & P23).
    exists c3. split; [done|]. by rewrite P12.
Qed.

(** Witness of C5: the same mesh with its two faces listed in both orders. *)
Lemma get_uv_hash_order_independent_witness :
  (o_uv_layers (mkObj "A" true [Some 0] [uv_square] 0 two_faces) = [] <->
     o_uv_layers (mkObj "A" true [Some 0] [uv_square] 0 (reverse two_faces)) = []) /\
  get_uv_hash (mkObj "A" true [Some 0] [uv_square] 0 two_faces) 0 =
  get_uv_hash (mkObj "A" true [Some 0] [uv_square] 0 (reverse two_faces)) 0.
Proof.
  split; [done|].
  apply (get_uv_hash_order_independent _ _ 0
           [(0, 0); (10000, 0); (10000, 10000); (10000, 10000); (0, 10000); (0, 0)]%Z
           [(10000, 10000); (0, 10000); (0, 0); (0, 0); (10000, 0); (10000, 10000)]%Z).
  - done.
  - reflexivity.
  - vm_compute. reflexivity.
  - vm_compute. reflexivity.
  - apply (Permutation_app_comm
             [(0, 0); (10000, 0); (10000, 10000)]%Z
             [(10000, 10000); (0, 10000); (0, 0)]%Z).
Defined.

(** C9 helper: [poly_uvs] reads only the slots and the active layer. *)
Lemma poly_uvs_in_range_polys (o : obj) (m : nat) (p : poly) :
  poly_uvs (in_range_polys o) m p = poly_uvs o m p.
Proof. reflexivity. Qed.

Lemma collect_uvs_in_range_polys (o : obj) (m : nat) (ps : list poly) :
  collect_uvs (in_range_polys o) m ps = collect_uvs o m ps.
Proof.
  induction ps as [|p ps IH]; simpl; [reflexivity|].
  rewrite poly_uvs_in_range_polys, IH. reflexivity.
Qed.

Lemma collect_uvs_filter_in_range (o : obj) (m : nat) (ps : list poly) :
  collect_uvs o m ps =
  collect_uvs o m (List.filter (fun p => Nat.ltb (material_index p) (length (o_slots o))) ps).
Proof.
  induction ps as [|p ps IH]; simpl; [done|].
  destruct (Nat.ltb (material_index p) (length (o_slots o))) eqn:E; simpl.
  - rewrite IH. reflexivity.
  - assert (poly_uvs o m p = Some []) as -> by (unfold poly_uvs; rewrite E; reflexivity).
    rewrite IH. destruct (collect_uvs o m (List.filter _ ps)); reflexivity.
Qed.

(** C9 — a polygon whose [material_index] is not below the number of
    slots is skipped: it contributes no coordinate and raises nothing, so
    the fingerprint is the one of the mesh without such polygons. *)
Theorem get_uv_hash_skips_out_of_range_polys (o : obj) (m : nat) :
  (forall p : poly, length (o_slots o) <= material_index p -> poly_uvs o m p = Some []) /\
  get_uv_hash o m = get_uv_hash (in_range_polys o) m.
Proof.
  split.
  - intros p Hp. unfold poly_uvs.
    destruct (Nat.ltb_spec (material_index p) (length (o_slots o))); [lia|done].
  - unfold get_uv_hash, has_material. simpl.
    rewrite collect_uvs_in_range_polys, <- collect_uvs_filter_in_range.
    reflexivity.
Qed.

(* ------------------------------------------------------------------ *)
(** ** Pass 1 of the shared-material pass records genuine usages *)

Lemma um_add_ok (objs : list obj) (k : nat * uv_hash) (u : usage) (um : usage_map) :
  um_ok objs um -> usage_ok objs k u -> um_ok objs (um_add k u um).
Proof.
  induction um as [|[k' us] r IH]; intros Hum Hu k0 us0 u0; simpl.
  - intros [[= <- <-]|[]] [<-|[]]. done.
  - case_bool_decide as Hk; subst.
    + intros [[= <- <-]|Hin] Hu0.
      * apply in_app_iff in Hu0 as [Hu0|[<-|[]]]; [|done].
        eapply Hum; [left; done|done].
      * eapply Hum; [right; exact Hin|done].
    + intros [[= <- <-]|Hin] Hu0; [eapply Hum; [left; done|done]|].
      eapply IH; [|done|exact Hin|done].
      intros k1 us1 u1 H1 H2. eapply Hum; [right; exact H1|done].
Qed.

Lemma pass1_slots_ok (objs : list obj) (i : nat) (o : obj) (j : nat)
    (slots : list (option nat)) (um : usage_map) :
  objs !! i = Some o -> o_is_mesh o = true ->
  (forall t, o_slots o !! (j + t) = slots !! t) ->
  um_ok objs um -> um_ok objs (pass1_slots i o j slots um).
Proof.
  revert j um. induction slots as [|s rest IH]; intros j um Ho Hmesh Hsl Hum; simpl; [done|].
  apply IH; [done|done| |].
  - intros t. specialize (Hsl (S t)). rewrite Nat.add_succ_r in Hsl. exact Hsl.
  - destruct s as [m|]; [|done].
    destruct (get_uv_hash o m) as [h|] eqn:Eh; [|done].
    apply um_add_ok; [done|].
    exists o. split; [done|]. split; [done|]. split; [|done].
    specialize (Hsl 0). rewrite Nat.add_0_r in Hsl. exact Hsl.
Qed.

Lemma pass1_ok (objs : list obj) (i : nat) (rest : list obj) (um : usage_map) :
  (forall t, objs !! (i + t) = rest !! t) -> um_ok objs um -> um_ok objs (pass1 i rest um).
Proof.
  revert i um. induction rest as [|o rest IH]; intros i um Hr Hum; simpl; [done|].
  apply IH.
  - intros t. specialize (Hr (S t)). rewrite Nat.add_succ_r in Hr. exact Hr.
  - destruct (o_is_mesh o) eqn:Em; [|done].
    apply pass1_slots_ok; [|done|done|done].
    specialize (Hr 0). rewrite Nat.add_0_r in Hr. exact Hr.
Qed.

Lemma pass1_all_ok (objs : list obj) : um_ok objs (pass1 0 objs []).
Proof.
  apply pass1_ok; [done|]. intros ? ? ? [].
Qed.

(* ------------------------------------------------------------------ *)
(** ** Pass 2 never reassigns a slot *)

Lemma pass2_other_noop (m : nat) (h : uv_hash) (sc : scene) (u : usage) :
  usage_ok (sc_objects sc) (m, h) u -> pass2_other m h sc u = sc.
Proof.
  intros (o & Ho & _ & Hs & Hh). simpl in Hs, Hh.
  unfold pass2_other. rewrite Ho, Hs, Hh.
  case_bool_decide; [contradiction|done].
Qed.

Lemma rename_mat_objects (m : nat) (s : string) (sc : scene) :
  sc_objects (rename_mat m s sc) = sc_objects sc.
Proof. unfold rename_mat. by destruct (mat_at sc m). Qed.

Lemma foldl_noop {A B} (f : A -> B -> A) (a : A) (l : list B) :
  (forall b, In b l -> f a b = a) -> foldl f a l = a.
Proof.
  induction l as [|b l IH]; intros H; simpl; [done|].
  rewrite H; [|left; done]. apply IH. intros b' Hb'. apply H. right. done.
Qed.

Lemma pass2_group_objects (sc : scene) (k : nat * uv_hash) (us : list usage) :
  (forall u, In u us -> usage_ok (sc_objects sc) k u) ->
  sc_objects (pass2_group sc (k, us)) = sc_objects sc.
Proof.
  destruct k as [m h]. intros Hus. simpl.
  destruct (Nat.ltb 1 (length us) && negb (is_sentinel h)); [|done].
  destruct us as [|[i0 j0] rest]; [done|].
  rewrite foldl_noop; [apply rename_mat_objects|].
  intros u Hu. apply pass2_other_noop. rewrite rename_mat_objects.
  apply Hus. right. done.
Qed.

Lemma foldl_pass2_objects (objs : list obj) (um : usage_map) (sc : scene) :
  sc_objects sc = objs -> um_ok objs um ->
  sc_objects (foldl pass2_group sc um) = objs.
Proof.
  revert sc. induction um as [|[k us] r IH]; intros sc Hsc Hum; cbn [foldl]; [done|].
  apply IH.
  - rewrite pass2_group_objects; [done|]. rewrite Hsc.
    intros u Hu. eapply Hum; [left; done|done].
  - intros k' us' u' H1 H2. eapply Hum; [right; exact H1|done].
Qed.

(** [duplicate_shared_materials] changes material names only: the scene's
    objects, and so every slot assignment, are left as they were. *)
Lemma duplicate_shared_materials_objects (sc : scene) :
  sc_objects (duplicate_shared_materials sc) = sc_objects sc.
Proof.
  unfold duplicate_shared_materials.
  apply foldl_pass2_objects; [done|]. apply pass1_all_ok.
Qed.

(* ------------------------------------------------------------------ *)
(** ** Sentinels *)

(** C6 counterexample: a mesh without UV layer whose slots do not hold
    the material gets [NoUV], not [MaterialNotFound]. *)
Lemma get_uv_hash_sentinels_counterexample :
  o_uv_layers (mkObj "A" true [] [] 0 []) = [] /\
  has_material (mkObj "A" true [] [] 0 []) 0 = false /\
  get_uv_hash (mkObj "A" true [] [] 0 []) 0 <> Some MaterialNotFound.
Proof. split; [reflexivity|]. split; [reflexivity|]. vm_compute. discriminate. Qed.

(** C6 (amended) — the sentinels are checked in the order [NoUV] (no UV
    layer), [MaterialNotFound] (a UV layer, the material in no slot),
    [EmptyUV] (no face of the material contributes a coordinate). In the
    shared-material pass a usage (object [u.1], slot [u.2]) is recorded
    under the key [(material of that slot, fingerprint of that mesh for
    that material)] only, and a group keyed by a sentinel is left
    untouched by pass 2: its material is neither renamed nor cloned, so a
    sentinel usage is never deduplicated, split or matched with another
    usage. *)
Theorem get_uv_hash_sentinels (o : obj) (m : nat) :
  (o_uv_layers o = [] -> get_uv_hash o m = Some NoUV) /\
  (o_uv_layers o <> [] -> has_material o m = false ->
     get_uv_hash o m = Some MaterialNotFound) /\
  (o_uv_layers o <> [] -> has_material o m = true ->
     collect_uvs o m (o_polys o) = Some [] -> get_uv_hash o m = Some EmptyUV) /\
  (forall (sc : scene) (k : nat * uv_hash) (us : list usage),
     In (k, us) (pass1 0 (sc_objects sc) []) -> forall u, In u us ->
     exists o', sc_objects sc !! u.1 = Some o' /\ o_is_mesh o' = true /\
       o_slots o' !! u.2 = Some (Some k.1) /\ get_uv_hash o' k.1 = Some k.2) /\
  (forall (sc : scene) (k : nat * uv_hash) (us : list usage),
     is_sentinel k.2 = true -> pass2_group sc (k, us) = sc).
Proof.
  unfold get_uv_hash. split; [|split; [|split; [|split]]].
  - intros ->. reflexivity.
  - intros Hl Hm. destruct (o_uv_layers o); [done|]. rewrite Hm. reflexivity.
  - intros Hl Hm Hc. destruct (o_uv_layers o); [done|]. rewrite Hm, Hc. reflexivity.
  - intros sc k us Hin u Hu.
    exact (pass1_all_ok (sc_objects sc) k us u Hin Hu).
  - intros sc [m' h] us Hs. simpl in Hs. simpl. rewrite Hs, andb_false_r. reflexivity.
Qed.

(* ------------------------------------------------------------------ *)
(** ** The shared-material pass does not split divergent layouts *)

(** C1: meshes A and B share material 0 with different, non-sentinel
    fingerprints; after [duplicate_shared_materials] both slots still hold
    material 0 and no material was cloned. *)
Theorem duplicate_shared_materials_divergent_example :
  get_uv_hash (tri_mesh "A" tri_uvs_A) 0 = Some (Hash [(0, 0); (10000, 0); (10000, 10000)]%Z) /\
  get_uv_hash (tri_mesh "B" tri_uvs_B) 0 = Some (Hash [(0, 0); (0, 10000); (10000, 10000)]%Z) /\
  slot_of (duplicate_shared_materials (scene_AB tri_uvs_B)) 0 0 = Some (Some 0) /\
  slot_of (duplicate_shared_materials (scene_AB tri_uvs_B)) 1 0 = Some (Some 0) /\
  length (sc_mats (duplicate_shared_materials (scene_AB tri_uvs_B))) = 1.
Proof. vm_compute. repeat split. Qed.

(* ------------------------------------------------------------------ *)
(** ** Node tree edits *)

Lemma node_exists_in (g : graph) (n : node) :
  In n (g_nodes g) -> node_exists g (n_id n) = true.
Proof.
  intros H. unfold node_exists. apply existsb_exists. exists n.
  split; [done|]. apply Nat.eqb_refl.
Qed.

Lemma node_exists_nodes (g g' : graph) (i : nat) :
  g_nodes g' = g_nodes g -> node_exists g' i = node_exists g i.
Proof. unfold node_exists. intros ->. done. Qed.

Lemma node_exists_app (ns ns' : list node) (ls : list link) (k i : nat) :
  node_exists (mkGraph ns ls k) i = true -> node_exists (mkGraph (ns ++ ns') ls k) i = true.
Proof.
  unfold node_exists. simpl. rewrite existsb_app. intros ->. done.
Qed.

Lemma links_new_nodes (f t : socket) (g : graph) :
  g_nodes (links_new f t g) = g_nodes g /\ g_next (links_new f t g) = g_next g.
Proof. unfold links_new. destruct (_ && _); done. Qed.

(** When both nodes are in the tree the link is made and replaces the
    links into [t]. *)
Lemma links_new_some (f t : socket) (g : graph) :
  node_exists g f.1 = true -> node_exists g t.1 = true ->
  In (f, t) (g_links (links_new f t g)) /\
  (forall l, In l (g_links (links_new f t g)) -> (In l (g_links g) /\ l.2 <> t) \/ l = (f, t)).
Proof.
  unfold links_new. intros -> ->. simpl.
  split; [apply in_app_iff; right; left; done|].
  intros l Hl. apply in_app_iff in Hl as [Hl|[<-|[]]]; [|right; done].
  apply filter_In in Hl as [Hl Ht]. left. split; [done|].
  intros E. rewrite E, bool_decide_true in Ht; done.
Qed.

(** Every link after [links.new] was there before or is the new one. *)
Lemma links_new_sub (f t : socket) (g : graph) (l : link) :
  In l (g_links (links_new f t g)) -> In l (g_links g) \/ l = (f, t).
Proof.
  unfold links_new. destruct (_ && _); [|auto]. simpl.
  intros Hl. apply in_app_iff in Hl as [Hl|[<-|[]]]; [|auto].
  apply filter_In in Hl as [Hl _]. auto.
Qed.

(** A link into another socket survives [links.new]. *)
Lemma links_new_keeps (f t : socket) (g : graph) (l : link) :
  In l (g_links g) -> l.2 <> t -> In l (g_links (links_new f t g)).
Proof.
  unfold links_new. destruct (_ && _); [|auto]. intros Hl Ht. simpl.
  apply in_app_iff. left. apply filter_In. split; [done|].
  rewrite bool_decide_false; done.
Qed.

(** [relink] keeps the nodes. *)
Lemma relink_nodes (ls : list link) (g : graph) :
  g_nodes (relink ls g) = g_nodes g /\ g_next (relink ls g) = g_next g.
Proof.
  revert g. induction ls as [|[f t] ls IH]; intros g; simpl; [done|].
  destruct (IH (links_new f t g)) as [-> ->]. apply links_new_nodes.
Qed.

(** Every link after [relink] was there before or is replayed. *)
Lemma relink_links_sub (ls : list link) (g : graph) (l : link) :
  In l (g_links (relink ls g)) -> In l (g_links g) \/ In l ls.
Proof.
  revert g. induction ls as [|[f t] ls IH]; intros g; simpl; [auto|].
  intros Hl. destruct (IH _ Hl) as [Hl'|Hl']; [|auto].
  destruct (links_new_sub f t g l Hl') as [?|<-]; auto.
Qed.

(** A link survives [relink] when no replayed link enters its socket. *)
Lemma relink_keeps (ls : list link) (g : graph) (l : link) :
  In l (g_links g) -> (forall l', In l' ls -> l'.2 <> l.2) ->
  In l (g_links (relink ls g)).
Proof.
  revert g. induction ls as [|[f t] ls IH]; intros g Hl Hls; simpl; [done|].
  apply IH; [|intros l' Hl'; apply Hls; right; done].
  apply links_new_keeps; [done|]. intros Et.
  apply (Hls (f, t)); [left; done|]. simpl. by rewrite Et.
Qed.

(** When every endpoint of the replayed links with distinct input sockets
    is a node of the tree, every replayed link is present at the end. *)
Lemma relink_contains (ls : list link) (g : graph) (l : link) :
  (forall l, In l ls -> node_exists g l.1.1 = true /\ node_exists g l.2.1 = true) ->
  NoDup (map snd ls) -> In l ls -> In l (g_links (relink ls g)).
Proof.
  revert g. induction ls as [|[f t] ls IH]; intros g Hends Hnd Hl; simpl in *; [done|].
  inversion Hnd as [|? ? Hnotin Hnd']; subst.
  destruct (Hends (f, t)) as [Hf Ht]; [left; done|].
  destruct Hl as [<-|Hl].
  - apply relink_keeps; [apply (links_new_some f t g Hf Ht)|].
    intros l' Hl' Et. apply Hnotin. simpl in Et. rewrite <- Et.
    apply list_elem_of_In, in_map. done.
  - apply IH; [|done|done]. intros l' Hl'.
    rewrite !(node_exists_nodes g (links_new f t g)) by apply links_new_nodes.
    apply Hends. right. done.
Qed.

Lemma find_app_l {A} (f : A -> bool) (l l' : list A) (x : A) :
  find f l = Some x -> find f (l ++ l') = Some x.
Proof.
  induction l as [|a l IH]; simpl; [discriminate|]. destruct (f a); auto.
Qed.

Lemma remove_temp_nodes_app (l1 l2 : list node) (g : graph) :
  remove_temp_nodes (l1 ++ l2) g = remove_temp_nodes l2 (remove_temp_nodes l1 g).
Proof. revert g. induction l1 as [|n l1 IH]; intros g; simpl; [done|]. apply IH. Qed.

Lemma remove_temp_nodes_skip (l : list node) (g : graph) :
  Forall (fun n => is_temp_kind (n_type n) = false) l -> remove_temp_nodes l g = g.
Proof.
  revert g. induction l as [|n l IH]; intros g Hl; simpl; [done|].
  inversion Hl as [|? ? Hn Hl']; subst. rewrite Hn. apply IH. done.
Qed.

Lemma filter_fresh_ids (ns : list node) (k : nat) :
  (forall n, In n ns -> n_id n < k) ->
  List.filter (fun n => negb (Nat.eqb (n_id n) k)) ns = ns.
Proof.
  induction ns as [|n ns IH]; intros H; simpl; [done|].
  destruct (Nat.eqb_spec (n_id n) k) as [E|E].
  - exfalso. specialize (H n (or_introl eq_refl)). lia.
  - simpl. rewrite IH; [done|]. intros n' Hn'. apply H. right. done.
Qed.

Lemma nodes_remove_links (i : nat) (g : graph) (l : link) :
  In l (g_links (nodes_remove i g)) -> In l (g_links g) /\ touches i l = false.
Proof.
  simpl. intros Hl. apply filter_In in Hl as [Hl Ht]. split; [done|].
  destruct (touches i l); done.
Qed.

(** The replay of the snapshot on a tree with the original nodes and a
    subset of the original links gives back the original links. *)
Lemma relink_restores (g gR : graph) :
  graph_wf g -> g_nodes gR = g_nodes g ->
  (forall l, In l (g_links gR) -> In l (g_links g)) ->
  g_nodes (relink (g_links g) gR) = g_nodes g /\
  (forall l, In l (g_links (relink (g_links g) gR)) <-> In l (g_links g)).
Proof.
  intros (_ & Hends & Hnd) Hn Hsub.
  split; [rewrite (proj1 (relink_nodes _ _)); done|].
  intros l. split.
  - intros Hl. destruct (relink_links_sub _ _ _ Hl); auto.
  - intros Hl. apply relink_contains; [|done|done]. intros l' Hl'.
    rewrite !(node_exists_nodes g gR) by done. apply Hends. done.
Qed.

Lemma links_new_touch (L0 : list link) (i : nat) (f t : socket) (g : graph) :
  from_snapshot_or_touches L0 i g -> (f.1 = i \/ t.1 = i) ->
  from_snapshot_or_touches L0 i (links_new f t g).
Proof.
  intros H Hft l Hl.
  destruct (links_new_sub f t g l Hl) as [Hl'|Heq]; [apply H; done|subst l].
  right. unfold touches. simpl.
  destruct Hft as [Hf|Ht]; [rewrite Hf, Nat.eqb_refl; done|].
  rewrite Ht, Nat.eqb_refl. apply orb_true_r.
Qed.
Lemma filter_one {A} (f : A -> bool) (x : A) :
  List.filter f [x] = if f x then [x] else [].
Proof. reflexivity. Qed.

Lemma metallic_graph_round_trip (g : graph) (o p : node) :
  graph_wf g ->
  Forall (fun n => is_temp_kind (n_type n) = false) (g_nodes g) ->
  nodes_get "Material Output" g = Some o ->
  has_surface_input (n_type o) = true ->
  find (fun n => bool_decide (n_type n = BSDF_PRINCIPLED)) (g_nodes g) = Some p ->
  exists g6, setup_metallic_nodes g = (g6, Some (g_links g)) /\
    g_nodes (restore_material_links g6 (g_links g)) = g_nodes g /\
    (forall l, In l (g_links (restore_material_links g6 (g_links g))) <-> In l (g_links g)).
Proof.
  intros Hwf Hnt Ho Hsurf Hp.
  pose proof Hwf as (Hids & Hends & _).
  set (e := mkNode (g_next g) EMISSION (unique_name g (default_name EMISSION))).
  set (g1 := mkGraph (g_nodes g ++ [e]) (g_links g) (S (g_next g))).
  assert (Ho1 : nodes_get "Material Output" g1 = Some o) by (apply find_app_l; done).
  assert (Hp1 : find (fun n => bool_decide (n_type n = BSDF_PRINCIPLED)) (g_nodes g1) = Some p)
    by (apply find_app_l; done).
  assert (Htouch1 : from_snapshot_or_touches (g_links g) (n_id e) g1) by (intros l Hl; left; done).
  unfold setup_metallic_nodes. unfold nodes_new at 1. fold e. fold g1.
  cbv zeta. rewrite Ho1. rewrite Hp1. rewrite Hsurf.
  assert (Hnr : forall g6 : graph,
            from_snapshot_or_touches (g_links g) (n_id e) g6 ->
            forall l, In l (g_links (nodes_remove (n_id e) g6)) -> In l (g_links g)).
  { intros g6 Ht6 l Hl. apply nodes_remove_links in Hl as [Hl Hf].
    destruct (Ht6 l Hl) as [?|Ht]; [done|]. rewrite Hf in Ht. discriminate. }
  assert (He_nodes : List.filter (fun n => negb (Nat.eqb (n_id n) (n_id e))) (g_nodes g ++ [e])
                     = g_nodes g).
  { rewrite List.filter_app, filter_fresh_ids; [|done]. simpl. rewrite Nat.eqb_refl. simpl.
    apply app_nil_r. }
  destruct (links_into (n_id p, "Metallic") g1) as [|l ls] eqn:El.
  - (* the metallic input is unlinked: a Value node feeds the emission *)
    set (v := mkNode (S (g_next g)) VALUE (unique_name g1 (default_name VALUE))).
    set (g3 := mkGraph ((g_nodes g ++ [e]) ++ [v]) (g_links g) (S (S (g_next g)))).
    change (nodes_new VALUE g1) with (v, g3). cbv iota beta.
    set (g5 := links_new (n_id v, "Value") (n_id e, "Strength") g3).
    set (g6 := links_new (n_id e, "Emission") (n_id o, "Surface") g5).
    exists g6. split; [done|].
    assert (Ht6 : from_snapshot_or_touches (g_links g) (n_id e) g6).
    { apply links_new_touch; [|left; reflexivity].
      apply links_new_touch; [|right; reflexivity].
      intros l' Hl'. left. exact Hl'. }
    assert (N6 : g_nodes g6 = g_nodes g3).
    { unfold g6, g5. rewrite (proj1 (links_new_nodes _ _ _)). apply links_new_nodes. }
    unfold restore_material_links. rewrite N6. simpl g_nodes.
    rewrite !remove_temp_nodes_app, (remove_temp_nodes_skip (g_nodes g) g6); [|done]. simpl.
    apply relink_restores; [done| |].
    + simpl. rewrite N6. simpl g_nodes. rewrite !List.filter_app.
      rewrite (filter_fresh_ids (g_nodes g) (g_next g)); [|done].
      rewrite (filter_fresh_ids (g_nodes g) (S (g_next g)));
        [|intros n Hn; specialize (Hids n Hn); lia].
      assert (Hne : Nat.eqb (S (g_next g)) (g_next g) = false) by (apply Nat.eqb_neq; lia).
      rewrite !filter_one. unfold e, v. cbn [n_id].
      rewrite Nat.eqb_refl, Hne. cbn [negb List.filter n_id].
      rewrite Nat.eqb_refl. cbn [negb]. rewrite !app_nil_r. reflexivity.
    + intros l' Hl'. apply nodes_remove_links in Hl' as [Hl' _].
      apply (Hnr g6); done.
  - (* the metallic input is linked: its source feeds the emission *)
    cbv iota beta.
    set (g5 := links_new l.1 (n_id e, "Strength") g1).
    set (g6 := links_new (n_id e, "Emission") (n_id o, "Surface") g5).
    exists g6. split; [done|].
    assert (Ht6 : from_snapshot_or_touches (g_links g) (n_id e) g6).
    { apply links_new_touch; [|left; reflexivity].
      apply links_new_touch; [exact Htouch1|right; reflexivity]. }
    assert (N6 : g_nodes g6 = g_nodes g1).
    { unfold g6, g5. rewrite (proj1 (links_new_nodes _ _ _)). apply links_new_nodes. }
    unfold restore_material_links. rewrite N6. simpl g_nodes.
    rewrite !remove_temp_nodes_app, (remove_temp_nodes_skip (g_nodes g) g6); [|done]. simpl.
    apply relink_restores; [done| |].
    + simpl. rewrite N6. exact He_nodes.
    + intros l' Hl'.
      exact (Hnr g6 Ht6 l' Hl').
Qed.


(** ** The scene as seen through [set_graph] and [emit] *)

Lemma mat_at_set_mat (sc : scene) (m : nat) (mt mt' : material) :
  mat_at sc m = Some mt -> mat_at (set_mat m mt' sc) m = Some mt'.
Proof.
  unfold mat_at, set_mat. simpl.
  destruct (sc_mats sc !! m) as [[x|]|] eqn:E; try discriminate.
  intros _. rewrite list_lookup_insert_eq; [done|]. apply lookup_lt_Some in E. done.
Qed.

Lemma graph_of_emit (es : list event) (w : world) (m : nat) :
  graph_of (emit es w) m = graph_of w m.
Proof. reflexivity. Qed.

Lemma mat_at_set_graph (m : nat) (g : graph) (w : world) (mt : material) :
  mat_at (w_scene w) m = Some mt ->
  mat_at (w_scene (set_graph m g w)) m = Some (mkMat (m_name mt) g).
Proof.
  intros H. unfold set_graph. rewrite H. simpl. apply (mat_at_set_mat _ _ mt). done.
Qed.

Lemma graph_of_set_graph (m : nat) (g : graph) (w : world) (mt : material) :
  mat_at (w_scene w) m = Some mt -> graph_of (set_graph m g w) m = Some g.
Proof. intros H. unfold graph_of. rewrite (mat_at_set_graph m g w mt H). done. Qed.

(** ** C2 *)

(** C2 (counterexample): the Diffuse material has no Principled BSDF node;
    [setup_metallic_nodes] creates one and [restore_material_links] keeps
    it, so the node list after the metallic channel differs from the one
    before, whether the bake returns or raises. *)
Lemma bake_channel_metallic_counterexample :
  option_map g_nodes
    (graph_of (fst (bake_channel (fun _ => true) 0 "M" ("EMIT", "metallic")
                      (world_of_graph diffuse_graph))) 0) <> Some (g_nodes diffuse_graph) /\
  option_map g_nodes
    (graph_of (fst (bake_channel (fun _ => false) 0 "M" ("EMIT", "metallic")
                      (world_of_graph diffuse_graph))) 0) <> Some (g_nodes diffuse_graph).
Proof. vm_compute. split; discriminate. Qed.

(** C2: for a material whose node tree is well formed, holds no Emission or
    Value node, has a node named 'Material Output' that has a Surface input
    (as a Material Output node has) and a Principled BSDF node, and has at
    least one link, the metallic channel of
    [_bake_all_maps] (reroute, bake, restore) leaves the node list as it
    was and the link set as it was, whatever the bake does. The other
    channels do not touch the node tree. *)
Theorem bake_channel_metallic_round_trip (renderer : list event -> bool) (m : nat)
    (folder : string) (w : world) (mt : material) (o p : node) :
  mat_at (w_scene w) m = Some mt ->
  graph_wf (m_graph mt) ->
  g_links (m_graph mt) <> [] ->
  Forall (fun n => is_temp_kind (n_type n) = false) (g_nodes (m_graph mt)) ->
  nodes_get "Material Output" (m_graph mt) = Some o ->
  has_surface_input (n_type o) = true ->
  find (fun n => bool_decide (n_type n = BSDF_PRINCIPLED)) (g_nodes (m_graph mt)) = Some p ->
  (exists g', graph_of (fst (bake_channel renderer m folder ("EMIT", "metallic") w)) m = Some g' /\
     g_nodes g' = g_nodes (m_graph mt) /\
     (forall l, In l (g_links g') <-> In l (g_links (m_graph mt)))) /\
  (forall bt sfx, sfx <> "metallic"%string ->
     graph_of (fst (bake_channel renderer m folder (bt, sfx) w)) m = Some (m_graph mt)).
Proof.
  intros Hmt Hwf Hne Hnt Ho Hsurf Hp. split.
  - destruct (metallic_graph_round_trip (m_graph mt) o p Hwf Hnt Ho Hsurf Hp)
      as (g6 & Hs & Hn & Hl).
    unfold bake_channel. rewrite Hmt. cbn [String.eqb Ascii.eqb Bool.eqb].
    rewrite Hs. cbv iota beta zeta.
    destruct (g_links (m_graph mt)) as [|l0 ls0] eqn:EL; [congruence|].
    rewrite graph_of_emit, (graph_of_set_graph m g6 w mt Hmt).
    exists (restore_material_links g6 (l0 :: ls0)). simpl fst. rewrite graph_of_emit.
    rewrite (graph_of_set_graph m _ _ (mkMat (m_name mt) g6));
      [|exact (mat_at_set_graph m g6 w mt Hmt)].
    split; [done|]. split; [done|]. exact Hl.
  - intros bt sfx Hsfx. unfold bake_channel. rewrite Hmt.
    apply String.eqb_neq in Hsfx. rewrite Hsfx. cbv iota beta zeta.
    unfold graph_of. simpl. rewrite Hmt. done.
Qed.

Lemma default_graph_wf : graph_wf default_graph.
Proof.
  split; [|split].
  - intros n Hn. simpl in Hn. destruct Hn as [<-|[<-|[]]]; simpl; lia.
  - intros l Hl. simpl in Hl. destruct Hl as [<-|[]]. split; reflexivity.
  - simpl. constructor; [intros H; inversion H|constructor].
Qed.

Lemma bake_channel_metallic_round_trip_witness :
  (exists g', graph_of (fst (bake_channel (fun _ => false) 0 "M" ("EMIT", "metallic")
                               (world_of_graph default_graph))) 0 = Some g' /\
     g_nodes g' = g_nodes default_graph /\
     (forall l, In l (g_links g') <-> In l (g_links default_graph))) /\
  (forall bt sfx, sfx <> "metallic"%string ->
     graph_of (fst (bake_channel (fun _ => false) 0 "M" (bt, sfx)
                      (world_of_graph default_graph))) 0 = Some default_graph).
Proof.
  apply (bake_channel_metallic_round_trip (fun _ => false) 0 "M" (world_of_graph default_graph)
           (mkMat "M" default_graph) (mkNode 1 OUTPUT_MATERIAL "Material Output")
           (mkNode 0 BSDF_PRINCIPLED "Principled BSDF")).
  - reflexivity.
  - exact default_graph_wf.
  - simpl. discriminate.
  - repeat constructor.
  - vm_compute. reflexivity.
  - reflexivity.
  - vm_compute. reflexivity.
Defined.

(** ** C3 *)

(** C3: [_bake_all_maps] guards the restore with [if original_links:], so
    for a material whose node tree has no link the snapshot is empty and
    [restore_material_links] is never called, on the success path and on
    the failure path: no restore is recorded and the Emission node created
    by the reroute stays in the tree. *)
Lemma bake_channel_empty_snapshot_skips_restore :
  List.filter is_restore
    (w_trace (fst (bake_channel (fun _ => true) 0 "M" ("EMIT", "metallic")
                     (world_of_graph unlinked_graph)))) = [] /\
  List.filter is_restore
    (w_trace (fst (bake_channel (fun _ => false) 0 "M" ("EMIT", "metallic")
                     (world_of_graph unlinked_graph)))) = [] /\
  option_map (fun g => existsb (fun n => bool_decide (n_type n = EMISSION)) (g_nodes g))
    (graph_of (fst (bake_channel (fun _ => true) 0 "M" ("EMIT", "metallic")
                      (world_of_graph unlinked_graph))) 0) = Some true /\
  option_map (fun g => existsb (fun n => bool_decide (n_type n = EMISSION)) (g_nodes g))
    (graph_of (fst (bake_channel (fun _ => false) 0 "M" ("EMIT", "metallic")
                      (world_of_graph unlinked_graph))) 0) = Some true.
Proof. vm_compute. repeat split. Qed.


Lemma set_graph_trace (m : nat) (g : graph) (w : world) :
  w_trace (set_graph m g w) = w_trace w /\ w_active (set_graph m g w) = w_active w /\
  sc_objects (w_scene (set_graph m g w)) = sc_objects (w_scene w).
Proof. unfold set_graph. destruct (mat_at (w_scene w) m); done. Qed.

Lemma emit_trace (es : list event) (w : world) : w_trace (emit es w) = w_trace w ++ es.
Proof. reflexivity. Qed.
Lemma emit_active (es : list event) (w : world) : w_active (emit es w) = w_active w.
Proof. reflexivity. Qed.
Lemma emit_objects (es : list event) (w : world) :
  sc_objects (w_scene (emit es w)) = sc_objects (w_scene w).
Proof. reflexivity. Qed.

Lemma bakes_of_app (l1 l2 : list event) : bakes_of (l1 ++ l2) = bakes_of l1 ++ bakes_of l2.
Proof. unfold bakes_of. apply omap_app. Qed.

(** One channel appends to the trace, keeps the active object and the
    objects, and records at most one bake, exactly one when it succeeds. *)
Lemma bake_channel_trace (renderer : list event -> bool) (m : nat) (folder : string)
    (c : string * string) (w : world) :
  let r := bake_channel renderer m folder c w in
  let b := (w_active w, m, if String.eqb c.2 "metallic" then "EMIT"%string else c.1) in
  exists new, w_trace r.1 = w_trace w ++ new /\ w_active r.1 = w_active w /\
    sc_objects (w_scene r.1) = sc_objects (w_scene w) /\
    (bakes_of new = [] \/ bakes_of new = [b]) /\
    (r.2 = true -> bakes_of new = [b]).
Proof.
  destruct c as [bt sfx]. cbv zeta. unfold bake_channel. simpl fst. simpl snd.
  destruct (mat_at (w_scene w) m) as [mt|];
    [|exists []; rewrite app_nil_r; split_and!; auto; discriminate].
  destruct (if String.eqb sfx "metallic" then _ else _) as [w1 pre] eqn:Epre.
  assert (H1 : w_trace w1 = w_trace w /\ w_active w1 = w_active w /\
               sc_objects (w_scene w1) = sc_objects (w_scene w)).
  { destruct (String.eqb sfx "metallic");
      [destruct (setup_metallic_nodes (m_graph mt)) as [g' r]; injection Epre as <- _;
       apply set_graph_trace|injection Epre as <- _; done]. }
  destruct H1 as (Ht1 & Ha1 & Ho1).
  destruct pre as [ol|]; [|exists []; rewrite app_nil_r; split_and!; auto; discriminate].
  set (ok := renderer (w_trace w1)).
  set (es := EvBake (w_active w1) m (if String.eqb sfx "metallic" then "EMIT"%string else bt) ok
             :: (if ok then [EvSave folder (String.append (map_name (m_name mt) sfx) ".png")]
                 else [])).
  assert (Hes : bakes_of es = [(w_active w, m, if String.eqb sfx "metallic" then "EMIT"%string else bt)]).
  { unfold es. rewrite Ha1. destruct ok; reflexivity. }
  destruct ol as [[|x xs]|];
    try (exists es; simpl; rewrite Ht1; split_and!; auto).
  destruct (graph_of (emit es w1) m) as [g2|];
    [|exists es; simpl; rewrite Ht1; split_and!; auto].
  set (g3 := restore_material_links g2 (x :: xs)).
  exists (es ++ [EvRestore m]).
  destruct (set_graph_trace m g3 (emit es w1)) as (Ht3 & Ha3 & Ho3).
  cbn [fst snd]. rewrite !emit_trace, !emit_active, !emit_objects, Ht3, Ha3, Ho3.
  rewrite !emit_trace, !emit_active, !emit_objects.
  rewrite Ht1, app_assoc, bakes_of_app, Hes.
  split_and!; auto.
Qed.

Lemma bake_all_maps_aux_trace (renderer : list event -> bool) (m : nat) (folder : string)
    (chs : list (string * string)) (w : world) :
  let r := bake_all_maps_aux renderer m folder chs w in
  let bs := map (fun c => (w_active w, m,
                           if String.eqb c.2 "metallic" then "EMIT"%string else c.1)) chs in
  exists new, w_trace r.1 = w_trace w ++ new /\ w_active r.1 = w_active w /\
    sc_objects (w_scene r.1) = sc_objects (w_scene w) /\
    bakes_of new `prefix_of` bs /\ (r.2 = true -> bakes_of new = bs).
Proof.
  revert w. induction chs as [|c cs IH]; intros w; cbv zeta; simpl.
  - exists []. rewrite app_nil_r. split_and!; auto; apply prefix_nil.
  - pose proof (bake_channel_trace renderer m folder c w) as Hc. cbv zeta in Hc.
    destruct (bake_channel renderer m folder c w) as [w' ok]. simpl in Hc.
    destruct Hc as (new1 & T1 & A1 & O1 & B1 & S1).
    destruct ok.
    + destruct (IH w') as (new2 & T2 & A2 & O2 & P2 & S2).
      exists (new1 ++ new2). rewrite bakes_of_app, S1 by done. rewrite A1 in P2, S2.
      rewrite T2, T1, app_assoc. split_and!; [done|congruence|congruence| |].
      * apply prefix_cons. done.
      * intros H. rewrite S2 by done. done.
    + exists new1. simpl. split_and!; [done|done|done| |discriminate].
      destruct B1 as [->| ->]; [apply prefix_nil|apply prefix_cons, prefix_nil].
Qed.

Lemma bake_types_emit (a : option nat) (m : nat) :
  map (fun c : string * string => (a, m, if String.eqb c.2 "metallic" then "EMIT"%string else c.1))
      BAKE_TYPES = map (fun c => (a, m, c.1)) BAKE_TYPES.
Proof. reflexivity. Qed.

Lemma bake_groups_trace (renderer : list event -> bool) (m : nat) (folder : string)
    (gs : list (uv_hash * list nat)) (w : world) :
  let r := bake_groups renderer m folder gs w in
  exists new, w_trace r.1 = w_trace w ++ new /\
    sc_objects (w_scene r.1) = sc_objects (w_scene w) /\
    bakes_of new `prefix_of` group_bakes m gs /\ (r.2 = true -> bakes_of new = group_bakes m gs).
Proof.
  revert w. induction gs as [|[h objs] gs IH]; intros w; cbv zeta; cbn [bake_groups fst snd].
  - exists []. rewrite app_nil_r. split_and!; auto; apply prefix_nil.
  - destruct (graph_of (mkWorld (w_scene w) (head objs) (w_trace w)) m) as [g|].
    2:{ exists []. rewrite app_nil_r. split_and!; auto; [apply prefix_nil|discriminate]. }
    set (w2 := set_graph m (setup_bake_node g).2 (mkWorld (w_scene w) (head objs) (w_trace w))).
    destruct (set_graph_trace m (setup_bake_node g).2 (mkWorld (w_scene w) (head objs) (w_trace w)))
      as (T2 & A2 & O2). fold w2 in T2, A2, O2. cbn [w_scene w_trace w_active] in T2, A2, O2.
    pose proof (bake_all_maps_aux_trace renderer m folder BAKE_TYPES w2) as Hc. cbv zeta in Hc.
    unfold bake_all_maps. rewrite A2, bake_types_emit in Hc.
    destruct (bake_all_maps_aux renderer m folder BAKE_TYPES w2) as [w3 ok]. simpl in Hc.
    destruct Hc as (new1 & T3 & A3 & O3 & P3 & S3).
    destruct ok.
    + destruct (IH w3) as (new2 & T4 & O4 & P4 & S4).
      exists (new1 ++ new2). rewrite bakes_of_app, S3 by done.
      rewrite T4, T3, T2, app_assoc. split_and!; [done|congruence| |].
      * apply prefix_app. done.
      * intros H. rewrite S4 by done. done.
    + exists new1. simpl. rewrite T3, T2. split_and!; [done|congruence| |discriminate].
      apply prefix_app_r. done.
Qed.

Lemma bake_material_trace (renderer : list event -> bool) (m : nat) (w : world)
    (gs : list (uv_hash * list nat)) :
  uv_groups_of m 0 (sc_objects (w_scene w)) [] = Some gs ->
  let r := bake_material renderer m w in
  exists new, w_trace r.1 = w_trace w ++ new /\
    sc_objects (w_scene r.1) = sc_objects (w_scene w) /\
    bakes_of new `prefix_of` group_bakes m gs /\ (r.2 = true -> bakes_of new = group_bakes m gs).
Proof.
  intros Hg. cbv zeta. unfold bake_material. rewrite Hg.
  destruct gs as [|grp gs'].
  - exists []. rewrite app_nil_r. split_and!; auto; try apply prefix_nil; discriminate.
  - apply bake_groups_trace.
Qed.

Lemma count_type_app (bt : string) (l1 l2 : list (option nat * nat * string)) :
  count_type bt (l1 ++ l2) = count_type bt l1 + count_type bt l2.
Proof. unfold count_type. rewrite List.filter_app, length_app. done. Qed.

Lemma count_type_prefix (bt : string) (l1 l2 : list (option nat * nat * string)) :
  l1 `prefix_of` l2 -> count_type bt l1 <= count_type bt l2.
Proof. intros [k ->]. rewrite count_type_app. lia. Qed.

Lemma count_type_group_bakes (bt : string) (m : nat) (gs : list (uv_hash * list nat)) :
  In bt (map fst BAKE_TYPES) -> count_type bt (group_bakes m gs) = length gs.
Proof.
  intros Hbt. induction gs as [|grp gs IH]; [done|].
  unfold group_bakes. cbn [map concat]. fold (group_bakes m gs).
  rewrite count_type_app, IH. simpl length. f_equal.
  simpl in Hbt. destruct Hbt as [<-|[<-|[<-|[<-|[<-|[]]]]]]; reflexivity.
Qed.

Lemma slot_of_duplicate_shared_materials (sc : scene) (i j : nat) :
  slot_of (duplicate_shared_materials sc) i j = slot_of sc i j.
Proof. unfold slot_of. rewrite duplicate_shared_materials_objects. done. Qed.

(** C4: the resolver leaves every slot on the material it held, so two
    usages of material [m] (in particular two with equal non-sentinel
    fingerprints) still reference the same material [m] afterwards. And
    [bake_material] on [m], whose UV groups are [gs], makes its bakes in
    the order of [group_bakes m gs]: per group, one bake per channel, with
    the group's first mesh active. It stops early on a failure, so each
    channel is baked at most [length gs] times, and exactly [length gs]
    times when [bake_material] returns [True]. *)
Theorem resolve_and_bake_once_per_group (renderer : list event -> bool) (sc : scene)
    (i j i' j' m : nat) (w : world) (gs : list (uv_hash * list nat)) :
  slot_of sc i j = Some (Some m) -> slot_of sc i' j' = Some (Some m) ->
  uv_groups_of m 0 (sc_objects (w_scene w)) [] = Some gs ->
  slot_of (duplicate_shared_materials sc) i j = Some (Some m) /\
  slot_of (duplicate_shared_materials sc) i' j' = Some (Some m) /\
  exists new, w_trace (fst (bake_material renderer m w)) = w_trace w ++ new /\
    bakes_of new `prefix_of` group_bakes m gs /\
    (snd (bake_material renderer m w) = true -> bakes_of new = group_bakes m gs) /\
    (forall bt, In bt (map fst BAKE_TYPES) ->
       count_type bt (bakes_of new) <= length gs /\
       (snd (bake_material renderer m w) = true -> count_type bt (bakes_of new) = length gs)).
Proof.
  intros Hs Hs' Hg. rewrite !slot_of_duplicate_shared_materials. split; [done|]. split; [done|].
  destruct (bake_material_trace renderer m w gs Hg) as (new & T & _ & P & S).
  exists new. split_and!; [done|done|done|]. intros bt Hbt. split.
  - rewrite <- (count_type_group_bakes bt m gs Hbt). apply count_type_prefix. done.
  - intros Hok. rewrite S by done. apply count_type_group_bakes. done.
Qed.

Lemma resolve_and_bake_once_per_group_witness :
  slot_of (duplicate_shared_materials (scene_AB tri_uvs_A)) 0 0 = Some (Some 0) /\
  slot_of (duplicate_shared_materials (scene_AB tri_uvs_A)) 1 0 = Some (Some 0) /\
  exists new,
    w_trace (fst (bake_material (fun _ => true) 0
                    (mkWorld (duplicate_shared_materials (scene_AB tri_uvs_A)) None []))) =
      [] ++ new /\
    bakes_of new `prefix_of` group_bakes 0 [(Hash [(0, 0); (10000, 0); (10000, 10000)]%Z, [0; 1])] /\
    (snd (bake_material (fun _ => true) 0
            (mkWorld (duplicate_shared_materials (scene_AB tri_uvs_A)) None [])) = true ->
     bakes_of new = group_bakes 0 [(Hash [(0, 0); (10000, 0); (10000, 10000)]%Z, [0; 1])]) /\
    (forall bt, In bt (map fst BAKE_TYPES) ->
       count_type bt (bakes_of new) <= 1 /\
       (snd (bake_material (fun _ => true) 0
               (mkWorld (duplicate_shared_materials (scene_AB tri_uvs_A)) None [])) = true ->
        count_type bt (bakes_of new) = 1)).
Proof.
  apply (resolve_and_bake_once_per_group (fun _ => true) (scene_AB tri_uvs_A) 0 0 1 0 0
           (mkWorld (duplicate_shared_materials (scene_AB tri_uvs_A)) None [])
           [(Hash [(0, 0); (10000, 0); (10000, 10000)]%Z, [0; 1])]).
  - reflexivity.
  - reflexivity.
  - vm_compute. reflexivity.
Defined.

Lemma str_app_nil_r (s : string) : String.append s "" = s.
Proof. induction s as [|c s IH]; [done|]. exact (f_equal (String c) IH). Qed.

Lemma str_app_assoc (a b c : string) :
  String.append (String.append a b) c = String.append a (String.append b c).
Proof. induction a as [|x a IH]; [done|]. exact (f_equal (String x) IH). Qed.

Lemma split_aux_cons (s cur : string) : exists x xs, split_aux s cur = x :: xs.
Proof.
  revert cur. induction s as [|c s IH]; intros cur; simpl; [eauto|].
  destruct (Ascii.eqb c "_"%char); eauto.
Qed.

Lemma concat_cons2 (sep a b : string) (l : list string) :
  String.concat sep (a :: b :: l) = String.append a (String.append sep (String.concat sep (b :: l))).
Proof. reflexivity. Qed.

(** Joining the parts of [name.split('_')] with ['_'] gives back the name. *)
Lemma concat_split_aux (s cur : string) :
  String.concat "_" (split_aux s cur) = String.append cur s.
Proof.
  revert cur. induction s as [|c s IH]; intros cur; simpl.
  - rewrite str_app_nil_r. done.
  - destruct (Ascii.eqb_spec c "_"%char) as [->|Hc].
    + destruct (split_aux_cons s "") as (x & xs & E).
      rewrite E, concat_cons2, <- E, IH. reflexivity.
    + rewrite IH, str_app_assoc. reflexivity.
Qed.

Lemma map_name_eq (name suffix : string) :
  map_name name suffix = String.append name (String.append "_" suffix).
Proof.
  unfold map_name, split_underscore.
  destruct (split_aux name "") as [|base [|x xs]] eqn:E; [done|done|].
  pose proof (concat_split_aux name "") as H. rewrite E, concat_cons2 in H.
  change (String.append "" name) with name in H. rewrite <- H, !str_app_assoc. reflexivity.
Qed.

(** C7 (counterexample): meshes A and B share material M with identical
    UVs; the run saves no file named [M_A_diffuse.png]. *)
Lemma execute_same_uvs_file_names_counterexample :
  existsb (fun s => String.eqb s.2 "M_A_diffuse.png")
    (saves_of (w_trace (fst (execute (fun _ => true) "/x.blend" (scene_AB tri_uvs_A))))) = false.
Proof. vm_compute. reflexivity. Qed.

(** C7: both branches of the naming step of [_bake_all_maps] give
    [<material name>_<suffix>]: the parts after the first, joined with
    ['_'], are the rest of the name. For meshes A and B sharing M with
    identical UVs, the resolver renames M to [M_MASTER_A], so the run
    bakes once and saves [M_MASTER_A_<suffix>.png] for each channel in the
    folder [M_MASTER_A]. *)
Theorem map_name_material_suffix :
  (forall name suffix, map_name name suffix = String.append name (String.append "_" suffix)) /\
  saves_of (w_trace (fst (execute (fun _ => true) "/x.blend" (scene_AB tri_uvs_A)))) =
    [("M_MASTER_A", "M_MASTER_A_diffuse.png"); ("M_MASTER_A", "M_MASTER_A_normal.png");
     ("M_MASTER_A", "M_MASTER_A_roughness.png"); ("M_MASTER_A", "M_MASTER_A_ao.png");
     ("M_MASTER_A", "M_MASTER_A_metallic.png")]%string.
Proof. split; [exact map_name_eq|vm_compute; reflexivity]. Qed.









Lemma execute_loop_count (renderer : list event -> bool) (mats : list nat) (w : world) :
  (execute_loop renderer mats w).2 <= length mats.
Proof.
  revert w. induction mats as [|m rest IH]; intros w; cbn [execute_loop]; [done|].
  destruct (bake_material renderer m w) as [w1 ok].
  specialize (IH w1). destruct (execute_loop renderer rest w1) as [w2 n].
  simpl in *. destruct ok; lia.
Qed.



(** ** Node ids and the Bake_Target node *)

Lemma grows_refl (g : graph) : grows g g.
Proof. intros H. split; auto. Qed.

Lemma grows_trans (g1 g2 g3 : graph) : grows g1 g2 -> grows g2 g3 -> grows g1 g3.
Proof.
  intros H12 H23 H1. destruct (H12 H1) as [H2 I2]. destruct (H23 H2) as [H3 I3]. auto.
Qed.

Lemma nodes_new_grows (t : node_type) (g : graph) : grows g (nodes_new t g).2.
Proof.
  intros [Hlt Hinj]. unfold nodes_new. simpl. split; [split|].
  - intros n Hn. apply in_app_iff in Hn as [Hn|[<-|[]]]; simpl; [specialize (Hlt n Hn)|]; lia.
  - intros n1 n2 H1 H2 E. apply in_app_iff in H1 as [H1|[<-|[]]];
      apply in_app_iff in H2 as [H2|[<-|[]]]; auto.
    + specialize (Hlt n1 H1). simpl in E. lia.
    + specialize (Hlt n2 H2). simpl in E. lia.
  - intros n Hn. apply in_app_iff. auto.
Qed.

Lemma nodes_new_in (t : node_type) (g : graph) : In (nodes_new t g).1 (g_nodes (nodes_new t g).2).
Proof. simpl. apply in_app_iff. right. left. done. Qed.

Lemma same_nodes_grows (g g' : graph) :
  g_nodes g' = g_nodes g -> g_next g' = g_next g -> grows g g'.
Proof. intros En Ek [H1 H2]. unfold ids_ok. rewrite En, Ek. split; [split|]; auto. Qed.

Lemma links_new_grows (f t : socket) (g : graph) : grows g (links_new f t g).
Proof. destruct (links_new_nodes f t g) as [En Ek]. apply same_nodes_grows; done. Qed.

Lemma relink_grows (ls : list link) (g : graph) : grows g (relink ls g).
Proof. destruct (relink_nodes ls g) as [En Ek]. apply same_nodes_grows; done. Qed.

Lemma setup_metallic_nodes_grows (g : graph) : grows g (setup_metallic_nodes g).1.
Proof.
  unfold setup_metallic_nodes.
  destruct (nodes_new EMISSION g) as [e g1] eqn:E1.
  assert (G1 : grows g g1) by (pose proof (nodes_new_grows EMISSION g) as G; rewrite E1 in G; exact G).
  destruct (match nodes_get "Material Output" g1 with Some o => (o, g1)
            | None => nodes_new OUTPUT_MATERIAL g1 end) as [o g2] eqn:E2.
  assert (G2 : grows g1 g2).
  { destruct (nodes_get "Material Output" g1).
    - injection E2 as _ <-. apply grows_refl.
    - pose proof (nodes_new_grows OUTPUT_MATERIAL g1) as G. rewrite E2 in G. exact G. }
  destruct (match find (fun n => bool_decide (n_type n = BSDF_PRINCIPLED)) (g_nodes g2) with
            | Some p => (p, g2) | None => nodes_new BSDF_PRINCIPLED g2 end) as [p g3] eqn:E3.
  assert (G3 : grows g2 g3).
  { destruct (find _ (g_nodes g2)).
    - injection E3 as _ <-. apply grows_refl.
    - pose proof (nodes_new_grows BSDF_PRINCIPLED g2) as G. rewrite E3 in G. exact G. }
  set (g4 := match links_into (n_id p, "Metallic") g3 with
             | l :: _ => links_new l.1 (n_id e, "Strength") g3
             | [] => let '(value, g3') := nodes_new VALUE g3 in
                     links_new (n_id value, "Value") (n_id e, "Strength") g3'
             end).
  assert (G4 : grows g3 g4).
  { unfold g4. destruct (links_into (n_id p, "Metallic") g3).
    - destruct (nodes_new VALUE g3) as [v g3'] eqn:Ev.
      assert (Gv : grows g3 g3') by (pose proof (nodes_new_grows VALUE g3) as G; rewrite Ev in G; exact G).
      apply (grows_trans _ g3'); [done|]. apply links_new_grows.
    - apply links_new_grows. }
  assert (G14 : grows g g4)
    by (apply (grows_trans _ g1); [done|]; apply (grows_trans _ g2); [done|];
        apply (grows_trans _ g3); done).
  destruct (has_surface_input (n_type o)); simpl; [|done].
  apply (grows_trans _ g4); [done|]. apply links_new_grows.
Qed.

Lemma nodes_remove_ok (i : nat) (g : graph) :
  ids_ok g -> ids_ok (nodes_remove i g) /\
  forall n, In n (g_nodes g) -> n_id n <> i -> In n (g_nodes (nodes_remove i g)).
Proof.
  intros [Hlt Hinj]. unfold ids_ok, nodes_remove. simpl. split; [split|].
  - intros n Hn. apply filter_In in Hn as [Hn _]. auto.
  - intros n1 n2 H1 H2. apply filter_In in H1 as [H1 _]. apply filter_In in H2 as [H2 _]. auto.
  - intros n Hn Hi. apply filter_In. split; [done|]. apply Nat.eqb_neq in Hi. rewrite Hi. done.
Qed.

Lemma remove_temp_nodes_ok (ns : list node) (g : graph) :
  ids_ok g -> ids_ok (remove_temp_nodes ns g) /\
  forall b, In b (g_nodes g) ->
    (forall t, In t ns -> is_temp_kind (n_type t) = true -> n_id t <> n_id b) ->
    In b (g_nodes (remove_temp_nodes ns g)).
Proof.
  revert g. induction ns as [|t ns IH]; intros g Hg; simpl; [split; auto|].
  destruct (is_temp_kind (n_type t)) eqn:Et.
  - destruct (nodes_remove_ok (n_id t) g Hg) as [Hg' Hkeep].
    destruct (IH _ Hg') as [Hr Hrk]. split; [done|].
    intros b Hb Ht. apply Hrk.
    + apply Hkeep; [done|]. intros E. apply (Ht t); auto.
    + intros t' Ht' Hk. apply Ht; auto.
  - destruct (IH _ Hg) as [Hr Hrk]. split; [done|].
    intros b Hb Ht. apply Hrk; [done|]. intros t' Ht' Hk. apply Ht; auto.
Qed.

(** [restore_material_links] removes only Emission and Value nodes. *)
Lemma restore_keeps (g : graph) (L : list link) :
  ids_ok g -> ids_ok (restore_material_links g L) /\
  forall n, In n (g_nodes g) -> is_temp_kind (n_type n) = false ->
    In n (g_nodes (restore_material_links g L)).
Proof.
  intros Hg. unfold restore_material_links.
  destruct (remove_temp_nodes_ok (g_nodes g) g Hg) as [Hr Hrk].
  destruct (relink_grows L (remove_temp_nodes (g_nodes g) g) Hr) as [Hl Hlk].
  split; [done|]. intros n Hn Hk. apply Hlk, Hrk; [done|].
  intros t Ht Htk E. destruct Hg as [_ Hinj].
  rewrite (Hinj t n Ht Hn E) in Htk. congruence.
Qed.

Lemma set_node_name_ok (i : nat) (s : string) (g : graph) :
  ids_ok g -> ids_ok (set_node_name i s g) /\
  forall n, In n (g_nodes g) -> n_id n = i -> In (mkNode i (n_type n) s) (g_nodes (set_node_name i s g)).
Proof.
  intros [Hlt Hinj]. unfold ids_ok, set_node_name. simpl. split; [split|].
  - intros n Hn. apply in_map_iff in Hn as (n0 & <- & Hn0).
    destruct (Nat.eqb (n_id n0) i); simpl; auto.
  - intros n1 n2 H1 H2 E. apply in_map_iff in H1 as (m1 & <- & Hm1).
    apply in_map_iff in H2 as (m2 & <- & Hm2).
    assert (E' : n_id m1 = n_id m2)
      by (destruct (Nat.eqb (n_id m1) i), (Nat.eqb (n_id m2) i); exact E).
    rewrite (Hinj m1 m2 Hm1 Hm2 E'). done.
  - intros n Hn Hi. apply in_map_iff. exists n. split; [|done].
    rewrite Hi, Nat.eqb_refl. done.
Qed.

Lemma setup_bake_node_ok (g : graph) :
  ids_ok g -> ids_ok (setup_bake_node g).2 /\ has_bake_target (setup_bake_node g).2.
Proof.
  intros Hg. unfold setup_bake_node.
  set (g1 := match nodes_get "Bake_Target" g with
             | Some e => nodes_remove (n_id e) g | None => g end).
  assert (H1 : ids_ok g1)
    by (unfold g1; destruct (nodes_get "Bake_Target" g); [apply nodes_remove_ok|]; done).
  destruct (nodes_new_grows TEX_IMAGE g1 H1) as [H2 _].
  pose proof (nodes_new_in TEX_IMAGE g1) as Hin.
  assert (Ht : n_type (nodes_new TEX_IMAGE g1).1 = TEX_IMAGE) by reflexivity.
  destruct (nodes_new TEX_IMAGE g1) as [bn g2]. simpl in H2, Hin, Ht |- *.
  destruct (set_node_name_ok (n_id bn) "Bake_Target" g2 H2) as [H3 Hn].
  split; [done|]. eexists. split; [apply (Hn bn Hin eq_refl)|]. split; [exact Ht|reflexivity].
Qed.

Lemma step_refl (w : world) : step w w.
Proof. split; auto. Qed.

Lemma step_trans (w1 w2 w3 : world) : step w1 w2 -> step w2 w3 -> step w1 w3.
Proof.
  intros [O12 H12] [O23 H23]. split; [congruence|]. intros H1.
  destruct (H12 H1) as [H2 B12]. destruct (H23 H2) as [H3 B23]. auto.
Qed.

Lemma step_emit (es : list event) (w : world) : step w (emit es w).
Proof. split; [reflexivity|]. intros H. split; [exact H|auto]. Qed.

Lemma step_active (w : world) (a : option nat) (tr : list event) :
  step w (mkWorld (w_scene w) a tr).
Proof. split; [reflexivity|]. intros H. split; [exact H|auto]. Qed.

Lemma mat_at_set_mat_cases (sc : scene) (m m' : nat) (mt x : material) :
  mat_at (set_mat m mt sc) m' = Some x -> (m = m' /\ x = mt) \/ (m <> m' /\ mat_at sc m' = Some x).
Proof.
  unfold mat_at, set_mat. simpl.
  destruct (<[m:=Some mt]> (sc_mats sc) !! m') as [[y|]|] eqn:E; try discriminate.
  intros [= <-]. apply list_lookup_insert_Some in E as [(-> & [= ->] & _)|(Hne & ->)]; auto.
Qed.

Lemma mat_at_set_mat_ne (sc : scene) (m m' : nat) (mt : material) :
  m <> m' -> mat_at (set_mat m mt sc) m' = mat_at sc m'.
Proof. intros Hne. unfold mat_at, set_mat. simpl. rewrite list_lookup_insert_ne; done. Qed.

Lemma step_set_graph (m : nat) (g : graph) (w : world) :
  (forall mt, mat_at (w_scene w) m = Some mt -> ids_ok (m_graph mt) ->
     ids_ok g /\ (has_bake_target (m_graph mt) -> has_bake_target g)) ->
  step w (set_graph m g w).
Proof.
  intros H. unfold set_graph. destruct (mat_at (w_scene w) m) as [mt|] eqn:E; [|apply step_refl].
  split; [reflexivity|]. intros Hok. destruct (H mt eq_refl (Hok _ _ E)) as [Hg Hb]. split.
  - intros m' x Hx. simpl in Hx.
    apply mat_at_set_mat_cases in Hx as [[_ ->]|[_ Hx]]; [exact Hg|exact (Hok _ _ Hx)].
  - intros m' (x & Hx & Hbx). destruct (decide (m = m')) as [<-|Hne].
    + rewrite Hx in E. injection E as ->. exists (mkMat (m_name mt) g). split; [|auto].
      apply (mat_at_set_mat _ _ mt). done.
    + exists x. split; [|done]. simpl. rewrite mat_at_set_mat_ne; done.
Qed.

Lemma set_graph_target (m : nat) (g : graph) (w : world) (mt : material) :
  mat_at (w_scene w) m = Some mt -> has_bake_target g -> has_target_at (w_scene (set_graph m g w)) m.
Proof. intros E Hb. exists (mkMat (m_name mt) g). split; [|done]. apply mat_at_set_graph. done. Qed.

Lemma step_setup_metallic (m : nat) (w : world) (mt : material) :
  mat_at (w_scene w) m = Some mt -> step w (set_graph m (setup_metallic_nodes (m_graph mt)).1 w).
Proof.
  intros E. apply step_set_graph. intros mt' E' Hok. rewrite E in E'. injection E' as <-.
  destruct (setup_metallic_nodes_grows (m_graph mt) Hok) as [Hg Hin]. split; [done|].
  intros (n & Hn & Ht & Hnm). exists n. auto.
Qed.

Lemma step_restore (m : nat) (w : world) (g2 : graph) (L : list link) :
  graph_of w m = Some g2 -> step w (set_graph m (restore_material_links g2 L) w).
Proof.
  unfold graph_of. intros E. apply step_set_graph. intros mt' E' Hok. rewrite E' in E.
  injection E as <-. destruct (restore_keeps (m_graph mt') L Hok) as [Hg Hin]. split; [done|].
  intros (n & Hn & Ht & Hnm). exists n. split; [apply Hin; [done|rewrite Ht; done]|auto].
Qed.

Lemma bake_channel_step (renderer : list event -> bool) (m : nat) (folder : string)
    (c : string * string) (w : world) :
  step w (bake_channel renderer m folder c w).1.
Proof.
  destruct c as [bt sfx]. unfold bake_channel.
  destruct (mat_at (w_scene w) m) as [mt|] eqn:Emt; [|apply step_refl].
  destruct (if String.eqb sfx "metallic" then _ else _) as [w1 pre] eqn:Epre.
  assert (S1 : step w w1).
  { destruct (String.eqb sfx "metallic").
    - pose proof (step_setup_metallic m w mt Emt) as S.
      destruct (setup_metallic_nodes (m_graph mt)) as [g' r]. injection Epre as <- _. exact S.
    - injection Epre as <- _. apply step_refl. }
  destruct pre as [ol|]; [|exact S1].
  set (es := EvBake (w_active w1) m (if String.eqb sfx "metallic" then "EMIT"%string else bt)
               (renderer (w_trace w1))
             :: (if renderer (w_trace w1)
                 then [EvSave folder (String.append (map_name (m_name mt) sfx) ".png")]
                 else [])).
  assert (S2 : step w (emit es w1)) by (apply (step_trans _ w1); [done|apply step_emit]).
  destruct ol as [[|x xs]|]; try exact S2.
  destruct (graph_of (emit es w1) m) as [g2|] eqn:Eg; [|exact S2].
  pose proof (step_restore m (emit es w1) g2 (x :: xs) Eg) as S3.
  simpl.
  apply (step_trans _ (emit es w1)); [done|].
  apply (step_trans _ (set_graph m (restore_material_links g2 (x :: xs)) (emit es w1)));
    [done|apply step_emit].
Qed.

Lemma baked_mats_app (l1 l2 : list event) :
  baked_mats (l1 ++ l2) = baked_mats l1 ++ baked_mats l2.
Proof. unfold baked_mats. rewrite bakes_of_app, map_app. done. Qed.

Lemma bake_all_maps_aux_mats (renderer : list event -> bool) (m : nat) (folder : string)
    (chs : list (string * string)) (w : world) :
  let r := bake_all_maps_aux renderer m folder chs w in
  step w r.1 /\ exists new, w_trace r.1 = w_trace w ++ new /\ forall x, In x (baked_mats new) -> x = m.
Proof.
  cbv zeta. split.
  - revert w. induction chs as [|c cs IH]; intros w; cbn [bake_all_maps_aux]; [apply step_refl|].
    pose proof (bake_channel_step renderer m folder c w) as S.
    destruct (bake_channel renderer m folder c w) as [w' ok]. simpl in S.
    destruct ok; [apply (step_trans _ w'); [done|apply IH]|exact S].
  - destruct (bake_all_maps_aux_trace renderer m folder chs w) as (new & T & _ & _ & P & _).
    exists new. split; [done|]. intros x Hx. unfold baked_mats in Hx.
    apply in_map_iff in Hx as (b & <- & Hb). destruct P as [k Hk].
    assert (Hb' : In b (map (fun c => (w_active w, m,
                    if String.eqb c.2 "metallic" then "EMIT"%string else c.1)) chs))
      by (rewrite Hk; apply in_app_iff; left; done).
    apply in_map_iff in Hb' as (c & <- & _). done.
Qed.

Lemma bake_groups_target (renderer : list event -> bool) (m : nat) (folder : string)
    (gs : list (uv_hash * list nat)) (w : world) :
  let r := bake_groups renderer m folder gs w in
  step w r.1 /\ exists new, w_trace r.1 = w_trace w ++ new /\
    (mats_ids_ok (w_scene w) ->
       forall x, In x (baked_mats new) -> x = m /\ has_target_at (w_scene r.1) m).
Proof.
  revert w. induction gs as [|[h objs] gs IH]; intros w; cbv zeta; cbn [bake_groups fst snd].
  - split; [apply step_refl|]. exists []. rewrite app_nil_r. split; [done|]. intros _ x [].
  - set (w1 := mkWorld (w_scene w) (head objs) (w_trace w)).
    assert (S1 : step w w1) by apply step_active.
    destruct (graph_of w1 m) as [g|] eqn:Eg.
    2:{ split; [done|]. exists []. rewrite app_nil_r. split; [done|]. intros _ x []. }
    set (w2 := set_graph m (setup_bake_node g).2 w1).
    assert (Hmt : exists mt, mat_at (w_scene w1) m = Some mt /\ m_graph mt = g).
    { unfold graph_of in Eg. destruct (mat_at (w_scene w1) m) as [mt|]; [|discriminate].
      injection Eg as <-. eauto. }
    destruct Hmt as (mt & Emt & <-).
    assert (S2 : step w1 w2).
    { apply step_set_graph. intros mt' E' Hok. rewrite Emt in E'. injection E' as <-.
      destruct (setup_bake_node_ok (m_graph mt) Hok) as [Hg Hb]. auto. }
    assert (B2 : mats_ids_ok (w_scene w1) -> has_target_at (w_scene w2) m).
    { intros Hok. apply (set_graph_target m _ w1 mt Emt).
      apply setup_bake_node_ok. apply (Hok m mt Emt). }
    unfold bake_all_maps.
    destruct (bake_all_maps_aux_mats renderer m folder BAKE_TYPES w2) as [S3 (new1 & T3 & M3)].
    destruct (bake_all_maps_aux renderer m folder BAKE_TYPES w2) as [w3 ok]. simpl in S3, T3.
    assert (S13 : step w w3) by (apply (step_trans _ w1); [done|]; apply (step_trans _ w2); done).
    assert (T13 : w_trace w3 = w_trace w ++ new1)
      by (rewrite T3; unfold w2; rewrite (proj1 (set_graph_trace _ _ _)); done).
    assert (B3 : mats_ids_ok (w_scene w) -> has_target_at (w_scene w3) m).
    { intros Hok. destruct S2 as [_ S2]. destruct S1 as [_ S1]. destruct S3 as [_ S3].
      destruct (S1 Hok) as [Hok1 _]. destruct (S2 Hok1) as [Hok2 _].
      apply (proj2 (S3 Hok2)). apply B2. done. }
    destruct ok.
    + destruct (IH w3) as [S4 (new2 & T4 & M4)].
      split; [apply (step_trans _ w3); done|]. exists (new1 ++ new2).
      split; [rewrite T4, T13, app_assoc; done|].
      intros Hok x Hx. rewrite baked_mats_app in Hx. apply in_app_iff in Hx as [Hx|Hx].
      * split; [apply M3; done|]. destruct S4 as [_ S4].
        apply (proj2 (S4 (proj1 (proj2 S13 Hok)))). apply B3. done.
      * apply M4; [|done]. apply (proj1 (proj2 S13 Hok)).
    + simpl. split; [done|]. exists new1. split; [done|].
      intros Hok x Hx. split; [apply M3; done|]. apply B3. done.
Qed.

Lemma bake_material_target (renderer : list event -> bool) (m : nat) (w : world) :
  let r := bake_material renderer m w in
  step w r.1 /\ exists new, w_trace r.1 = w_trace w ++ new /\
    (mats_ids_ok (w_scene w) ->
       forall x, In x (baked_mats new) -> x = m /\ has_target_at (w_scene r.1) m).
Proof.
  cbv zeta. unfold bake_material.
  destruct (uv_groups_of m 0 (sc_objects (w_scene w)) []) as [[|grp gs]|];
    try (split; [apply step_refl|exists []; rewrite app_nil_r; split; [done|intros _ x []]]).
  apply bake_groups_target.
Qed.

Lemma execute_loop_target (renderer : list event -> bool) (mats : list nat) (w : world) :
  let r := execute_loop renderer mats w in
  step w r.1 /\ exists new, w_trace r.1 = w_trace w ++ new /\
    (mats_ids_ok (w_scene w) ->
       forall x, In x (baked_mats new) -> In x mats /\ has_target_at (w_scene r.1) x).
Proof.
  revert w. induction mats as [|m rest IH]; intros w; cbv zeta; cbn [execute_loop].
  - split; [apply step_refl|]. exists []. rewrite app_nil_r. split; [done|]. intros _ x [].
  - destruct (bake_material_target renderer m w) as [S1 (new1 & T1 & M1)].
    destruct (bake_material renderer m w) as [w1 ok]. simpl in S1, T1, M1.
    destruct (IH w1) as [S2 (new2 & T2 & M2)].
    destruct (execute_loop renderer rest w1) as [w2 n]. simpl in S2, T2, M2 |- *.
    split; [apply (step_trans _ w1); done|]. exists (new1 ++ new2).
    split; [rewrite T2, T1, app_assoc; done|].
    intros Hok x Hx. rewrite baked_mats_app in Hx. apply in_app_iff in Hx as [Hx|Hx].
    + destruct (M1 Hok x Hx) as [-> Hb]. split; [left; done|].
      apply (proj2 (proj2 S2 (proj1 (proj2 S1 Hok)))). done.
    + destruct (M2 (proj1 (proj2 S1 Hok)) x Hx) as [Hin Hb]. split; [right; done|done].
Qed.

Lemma mats_ok_set_mat (sc : scene) (m : nat) (mt : material) :
  mats_ids_ok sc -> ids_ok (m_graph mt) -> mats_ids_ok (set_mat m mt sc).
Proof.
  intros Hok Hg m' x Hx. apply mat_at_set_mat_cases in Hx as [[_ ->]|[_ Hx]]; [done|].
  apply (Hok _ _ Hx).
Qed.

Lemma mats_ok_rename (sc : scene) (m : nat) (s : string) :
  mats_ids_ok sc -> mats_ids_ok (rename_mat m s sc).
Proof.
  intros Hok. unfold rename_mat. destruct (mat_at sc m) as [mt|] eqn:E; [|done].
  apply mats_ok_set_mat; [done|]. apply (Hok _ _ E).
Qed.

Lemma mat_at_set_slot (sc : scene) (i j k m : nat) :
  mat_at (set_slot i j k sc) m = mat_at sc m.
Proof. unfold set_slot. destruct (sc_objects sc !! i); done. Qed.

Lemma mats_ok_pass2_other (m : nat) (h : uv_hash) (sc : scene) (u : usage) :
  mats_ids_ok sc -> mats_ids_ok (pass2_other m h sc u).
Proof.
  intros Hok. unfold pass2_other.
  destruct (sc_objects sc !! u.1) as [o|]; [|done].
  destruct (o_slots o !! u.2) as [[cur|]|]; [|done|done].
  destruct (get_uv_hash o cur) as [ch|]; [|done].
  destruct (bool_decide (ch <> h) && negb (is_sentinel ch)); [|done].
  destruct (mat_at sc m) as [mt|] eqn:E; [|done].
  intros m' x Hx. rewrite mat_at_set_slot in Hx. unfold mat_at in Hx. simpl in Hx.
  rewrite lookup_app in Hx.
  destruct (sc_mats sc !! m') as [y|] eqn:Ey.
  - destruct y as [y|]; [|discriminate]. injection Hx as <-. apply (Hok m'). unfold mat_at. rewrite Ey. done.
  - destruct ([Some _] !! (m' - length (sc_mats sc))) as [[z|]|] eqn:Ez; try discriminate.
    apply list_lookup_singleton_Some in Ez as [_ Ez]. injection Ez as <-. injection Hx as <-.
    simpl. apply (Hok _ _ E).
Qed.

Lemma mats_ok_pass2_group (sc : scene) (e : (nat * uv_hash) * list usage) :
  mats_ids_ok sc -> mats_ids_ok (pass2_group sc e).
Proof.
  intros Hok. destruct e as [[m h] us]. unfold pass2_group.
  destruct (Nat.ltb 1 (length us) && negb (is_sentinel h)); [|done].
  destruct us as [|[i0 j0] rest]; [done|].
  assert (H1 : mats_ids_ok (rename_mat m (String.append (mat_name sc m)
                 (String.append "_MASTER_" (match sc_objects sc !! i0 with
                                             | Some o => o_name o | None => "" end))) sc))
    by (apply mats_ok_rename; done).
  revert H1. generalize (rename_mat m (String.append (mat_name sc m)
                 (String.append "_MASTER_" (match sc_objects sc !! i0 with
                                             | Some o => o_name o | None => "" end))) sc).
  induction rest as [|u rest IH]; intros sc1 H1; simpl; [done|].
  apply IH. apply mats_ok_pass2_other. done.
Qed.

Lemma mats_ok_duplicate_shared_materials (sc : scene) :
  mats_ids_ok sc -> mats_ids_ok (duplicate_shared_materials sc).
Proof.
  unfold duplicate_shared_materials. generalize (pass1 0 (sc_objects sc) []).
  intros um. revert sc. induction um as [|e um IH]; intros sc Hok; simpl; [done|].
  apply IH. apply mats_ok_pass2_group. done.
Qed.

Lemma nodup_nat_in (x : nat) (l : list nat) : In x (nodup_nat l) -> In x l.
Proof.
  induction l as [|a l IH]; simpl; [done|]. intros [->|Hx]; [left; done|].
  apply filter_In in Hx as [Hx _]. right. apply IH. done.
Qed.

(** A material returned by [get_all_materials] has a user. *)
Lemma get_all_materials_users (sc : scene) (x : nat) :
  In x (get_all_materials sc) -> has_users sc x = true.
Proof.
  unfold get_all_materials, has_users. intros Hx. apply nodup_nat_in in Hx.
  apply in_concat in Hx as (l & Hl & Hx). apply in_map_iff in Hl as (o & <- & Ho).
  apply existsb_exists. exists o. split; [done|].
  destruct (o_is_mesh o); [|destruct Hx].
  apply list_elem_of_In, list_elem_of_omap in Hx as (s & Hs & Es).
  apply existsb_exists. exists s. split; [apply list_elem_of_In; done|].
  apply bool_decide_eq_true. destruct s; [|discriminate]. injection Es as ->. done.
Qed.

Lemma mat_at_cleanup (sc : scene) (x : nat) :
  has_users sc x = true -> mat_at (cleanup_unused_materials sc) x = mat_at sc x.
Proof.
  intros Hu. unfold mat_at, cleanup_unused_materials. simpl.
  rewrite list_lookup_imap. destruct (sc_mats sc !! x) as [[mt|]|]; simpl; [rewrite Hu|..]; done.
Qed.

(** C10: [restore_material_links] keeps every node that is neither an
    Emission nor a Value node. And when [execute] completes, every material
    the run baked still has the Image Texture node named 'Bake_Target' that
    [setup_bake_node] added, provided the node ids of the scene's node
    trees are distinct and below the tree's next id, as Blender's nodes
    are distinct objects. *)
Theorem execute_keeps_bake_target (renderer : list event -> bool) (filepath : string)
    (sc : scene) (w : world) (rep : nat * nat) :
  mats_ids_ok sc ->
  execute renderer filepath sc = (w, Some rep) ->
  (forall g L n, ids_ok g -> In n (g_nodes g) -> is_temp_kind (n_type n) = false ->
     In n (g_nodes (restore_material_links g L))) /\
  (forall m, In m (baked_mats (w_trace w)) ->
     exists mt, mat_at (w_scene w) m = Some mt /\
       exists n, In n (g_nodes (m_graph mt)) /\ n_type n = TEX_IMAGE /\
                 n_name n = "Bake_Target"%string).
Proof.
  intros Hok Hex. split.
  - intros g L n Hg Hn Hk. apply (proj2 (restore_keeps g L Hg)); done.
  - unfold execute in Hex.
    destruct (String.eqb filepath "") eqn:Ef; [discriminate|].
    destruct (get_all_materials (duplicate_shared_materials sc)) as [|m0 ms] eqn:Em;
      [discriminate|].
    set (w0 := mkWorld (duplicate_shared_materials sc) None []).
    change (mkWorld (duplicate_shared_materials sc) None []) with w0 in Hex.
    destruct (execute_loop_target renderer (m0 :: ms) w0) as [[O S] (new & T & M)].
    destruct (execute_loop renderer (m0 :: ms) w0) as [w1 n]. simpl in O, S, T, M.
    cbv iota beta in Hex. injection Hex as <- _. simpl. intros m Hm. rewrite T in Hm. simpl in Hm.
    assert (Hok0 : mats_ids_ok (w_scene w0)) by (apply mats_ok_duplicate_shared_materials; done).
    destruct (M Hok0 m Hm) as [Hin (mt & Emt & Hb)].
    assert (Hu : has_users (w_scene w1) m = true).
    { unfold has_users. rewrite O. fold (has_users (duplicate_shared_materials sc) m).
      apply get_all_materials_users. rewrite Em. done. }
    exists mt. rewrite mat_at_cleanup by done. split; done.
Qed.

Lemma default_graph_ids_ok : ids_ok default_graph.
Proof.
  split.
  - intros n Hn. simpl in Hn. destruct Hn as [<-|[<-|[]]]; simpl; lia.
  - intros n1 n2 H1 H2 E. simpl in H1, H2.
    destruct H1 as [<-|[<-|[]]], H2 as [<-|[<-|[]]]; simpl in E; congruence.
Qed.

Lemma scene_AB_ids_ok (uvs : list (Q * Q)) : mats_ids_ok (scene_AB uvs).
Proof.
  intros m mt H. unfold mat_at in H. destruct m as [|m]; simpl in H.
  - injection H as <-. exact default_graph_ids_ok.
  - discriminate.
Qed.

Lemma execute_keeps_bake_target_witness :
  (forall g L n, ids_ok g -> In n (g_nodes g) -> is_temp_kind (n_type n) = false ->
     In n (g_nodes (restore_material_links g L))) /\
  (forall m, In m (baked_mats (w_trace (fst (execute (fun _ => true) "/x.blend" (scene_AB tri_uvs_A))))) ->
     exists mt, mat_at (w_scene (fst (execute (fun _ => true) "/x.blend" (scene_AB tri_uvs_A)))) m = Some mt /\
       exists n, In n (g_nodes (m_graph mt)) /\ n_type n = TEX_IMAGE /\
                 n_name n = "Bake_Target"%string).
Proof.
  apply (execute_keeps_bake_target (fun _ => true) "/x.blend" (scene_AB tri_uvs_A)
           (fst (execute (fun _ => true) "/x.blend" (scene_AB tri_uvs_A))) (1, 1)).
  - apply scene_AB_ids_ok.
  - vm_compute. reflexivity.
Defined.

(* ------------------------------------------------------------------ *)
(** ** Further properties of the pipeline *)


Lemma nodup_nat_NoDup (l : list nat) : NoDup (nodup_nat l).
Proof.
  induction l as [|x r IH]; simpl; constructor.
  - rewrite list_elem_of_In, filter_In. intros [_ H]. rewrite Nat.eqb_refl in H. done.
  - apply NoDup_ListNoDup, List.NoDup_filter, NoDup_ListNoDup. done.
Qed.

Lemma nodup_nat_in_iff (x : nat) (l : list nat) : In x (nodup_nat l) <-> In x l.
Proof.
  split; [apply nodup_nat_in|].
  induction l as [|a l IH]; simpl; [done|].
  intros [->|Hx]; [left; done|].
  destruct (Nat.eq_dec x a) as [->|Hne]; [left; done|].
  right. apply filter_In. split; [auto|]. apply negb_true_iff, Nat.eqb_neq. done.
Qed.

(** X1: get_all_materials lists no material twice, and lists exactly the
    materials held by a filled slot of some mesh object. *)
Theorem get_all_materials_spec (sc : scene) :
  NoDup (get_all_materials sc) /\
  (forall m, In m (get_all_materials sc) <->
     exists o, In o (sc_objects sc) /\ o_is_mesh o = true /\ In (Some m) (o_slots o)).
Proof.
  split; [apply nodup_nat_NoDup|]. intros m.
  unfold get_all_materials. rewrite nodup_nat_in_iff, in_concat. split.
  - intros (l & Hl & Hm). apply in_map_iff in Hl as (o & <- & Ho).
    destruct (o_is_mesh o) eqn:E; [|destruct Hm].
    apply list_elem_of_In, list_elem_of_omap in Hm as (s & Hs & Es).
    exists o. split_and!; [done|done|]. apply list_elem_of_In. destruct s; [|done].
    injection Es as ->. done.
  - intros (o & Ho & Hmesh & Hs). eexists. split; [apply in_map_iff; exists o; split; [reflexivity|done]|].
    rewrite Hmesh. apply list_elem_of_In, list_elem_of_omap. exists (Some m).
    split; [apply list_elem_of_In; done|done].
Qed.

Lemma kept_refl (w : world) : kept w w.
Proof. split; done. Qed.

Lemma kept_trans (w1 w2 w3 : world) : kept w1 w2 -> kept w2 w3 -> kept w1 w3.
Proof. intros [O1 N1] [O2 N2]. split; [congruence|]. intros m. rewrite N2. apply N1. Qed.

Lemma kept_emit (es : list event) (w : world) : kept w (emit es w).
Proof. split; done. Qed.

Lemma kept_set_graph (m : nat) (g : graph) (w : world) : kept w (set_graph m g w).
Proof.
  unfold set_graph. destruct (mat_at (w_scene w) m) as [mt|] eqn:E; [|apply kept_refl].
  split; [done|]. intros m'. simpl. destruct (decide (m = m')) as [<-|Hne].
  - rewrite (mat_at_set_mat _ _ mt), E; done.
  - rewrite mat_at_set_mat_ne; done.
Qed.

Lemma bake_channel_kept (renderer : list event -> bool) (m : nat) (folder : string)
    (c : string * string) (w : world) :
  kept w (bake_channel renderer m folder c w).1.
Proof.
  destruct c as [bt sfx]. unfold bake_channel.
  destruct (mat_at (w_scene w) m) as [mt|] eqn:Emt; [|apply kept_refl].
  destruct (if String.eqb sfx "metallic" then _ else _) as [w1 pre] eqn:Epre.
  assert (S1 : kept w w1).
  { destruct (String.eqb sfx "metallic").
    - destruct (setup_metallic_nodes (m_graph mt)) as [g' r]. injection Epre as <- _.
      apply kept_set_graph.
    - injection Epre as <- _. apply kept_refl. }
  destruct pre as [ol|]; [|exact S1].
  match goal with |- context [emit ?es0 w1] => set (es := es0) end.
  assert (S2 : kept w (emit es w1)) by (apply (kept_trans _ w1); [done|apply kept_emit]).
  destruct ol as [[|x xs]|]; try exact S2.
  destruct (graph_of (emit es w1) m) as [g2|] eqn:Eg; [|exact S2].
  set (g3 := restore_material_links g2 (x :: xs)). simpl.
  apply (kept_trans _ (emit es w1)); [done|].
  apply (kept_trans _ (set_graph m g3 (emit es w1))); [apply kept_set_graph|apply kept_emit].
Qed.

Lemma bake_all_maps_aux_kept (renderer : list event -> bool) (m : nat) (folder : string)
    (chs : list (string * string)) (w : world) :
  kept w (bake_all_maps_aux renderer m folder chs w).1.
Proof.
  revert w. induction chs as [|c cs IH]; intros w; simpl; [apply kept_refl|].
  pose proof (bake_channel_kept renderer m folder c w) as K.
  destruct (bake_channel renderer m folder c w) as [w' ok]. simpl in K.
  destruct ok; [apply (kept_trans _ w'); [done|apply IH]|exact K].
Qed.

Lemma bake_groups_kept (renderer : list event -> bool) (m : nat) (folder : string)
    (gs : list (uv_hash * list nat)) (w : world) :
  kept w (bake_groups renderer m folder gs w).1.
Proof.
  revert w. induction gs as [|[h objs] gs IH]; intros w; cbn [bake_groups]; [apply kept_refl|].
  set (w1 := mkWorld (w_scene w) (head objs) (w_trace w)).
  assert (K1 : kept w w1) by (split; done).
  destruct (graph_of w1 m) as [g|]; [|exact K1].
  set (w2 := set_graph m (setup_bake_node g).2 w1).
  assert (K2 : kept w w2) by (apply (kept_trans _ w1); [done|apply kept_set_graph]).
  pose proof (bake_all_maps_aux_kept renderer m folder BAKE_TYPES w2) as K3.
  unfold bake_all_maps. destruct (bake_all_maps_aux renderer m folder BAKE_TYPES w2) as [w3 ok].
  simpl in K3. destruct ok.
  - apply (kept_trans _ w3); [apply (kept_trans _ w2); done|apply IH].
  - apply (kept_trans _ w2); done.
Qed.

Lemma bake_material_kept (renderer : list event -> bool) (m : nat) (w : world) :
  kept w (bake_material renderer m w).1.
Proof.
  unfold bake_material.
  destruct (uv_groups_of m 0 (sc_objects (w_scene w)) []) as [[|grp gs]|];
    [apply kept_refl|apply bake_groups_kept|apply kept_refl].
Qed.

Lemma execute_loop_kept (renderer : list event -> bool) (mats : list nat) (w : world) :
  kept w (execute_loop renderer mats w).1.
Proof.
  revert w. induction mats as [|m rest IH]; intros w; cbn [execute_loop]; [apply kept_refl|].
  pose proof (bake_material_kept renderer m w) as K1.
  destruct (bake_material renderer m w) as [w1 ok]. simpl in K1.
  pose proof (IH w1) as K2. destruct (execute_loop renderer rest w1) as [w2 n].
  simpl in K2 |- *. apply (kept_trans _ w1); done.
Qed.

(** Pass 2 on one group renames the group's material or does nothing. *)
Lemma pass2_group_cases (sc : scene) (m : nat) (h : uv_hash) (us : list usage) :
  (forall u, In u us -> usage_ok (sc_objects sc) (m, h) u) ->
  pass2_group sc ((m, h), us) = sc \/ exists s, pass2_group sc ((m, h), us) = rename_mat m s sc.
Proof.
  intros Hus. simpl.
  destruct (Nat.ltb 1 (length us) && negb (is_sentinel h)); [|left; done].
  destruct us as [|[i0 j0] rest]; [left; done|]. right. eexists.
  apply foldl_noop. intros u Hu. apply pass2_other_noop. rewrite rename_mat_objects.
  apply Hus. right. done.
Qed.

Lemma rename_mat_graphs (m : nat) (s : string) (sc : scene) (m' : nat) :
  option_map m_graph (mat_at (rename_mat m s sc) m') = option_map m_graph (mat_at sc m').
Proof.
  unfold rename_mat. destruct (mat_at sc m) as [mt|] eqn:E; [|done].
  destruct (decide (m = m')) as [<-|Hne].
  - rewrite (mat_at_set_mat _ _ mt), E; done.
  - rewrite mat_at_set_mat_ne; done.
Qed.

Lemma rename_mat_length (m : nat) (s : string) (sc : scene) :
  length (sc_mats (rename_mat m s sc)) = length (sc_mats sc).
Proof.
  unfold rename_mat. destruct (mat_at sc m); [|done]. simpl. apply length_insert.
Qed.

Lemma foldl_pass2_graphs (um : usage_map) (sc : scene) :
  um_ok (sc_objects sc) um ->
  (forall m', option_map m_graph (mat_at (foldl pass2_group sc um) m') =
              option_map m_graph (mat_at sc m')) /\
  length (sc_mats (foldl pass2_group sc um)) = length (sc_mats sc).
Proof.
  revert sc. induction um as [|[[m h] us] r IH]; intros sc Hum; cbn [foldl]; [done|].
  assert (Hus : forall u, In u us -> usage_ok (sc_objects sc) (m, h) u)
    by (intros u Hu; eapply Hum; [left; done|done]).
  assert (Hr : um_ok (sc_objects sc) r)
    by (intros k' us' u' H1 H2; eapply Hum; [right; exact H1|done]).
  destruct (pass2_group_cases sc m h us Hus) as [->|[s ->]]; [apply IH; done|].
  destruct (IH (rename_mat m s sc)) as [G L]; [rewrite rename_mat_objects; done|].
  split; [intros m'; rewrite G; apply rename_mat_graphs|rewrite L; apply rename_mat_length].
Qed.

(** X2: duplicate_shared_materials keeps every object and slot, adds no
    material and leaves every material's node tree as it was: all it does
    to the scene is rename materials. *)
Theorem duplicate_shared_materials_only_renames (sc : scene) :
  sc_objects (duplicate_shared_materials sc) = sc_objects sc /\
  length (sc_mats (duplicate_shared_materials sc)) = length (sc_mats sc) /\
  (forall m, option_map m_graph (mat_at (duplicate_shared_materials sc) m) =
             option_map m_graph (mat_at sc m)).
Proof.
  destruct (foldl_pass2_graphs (pass1 0 (sc_objects sc) []) sc (pass1_all_ok _)) as [G L].
  split; [apply duplicate_shared_materials_objects|]. split; [exact L|exact G].
Qed.

Lemma has_users_objects (sc sc' : scene) (m : nat) :
  sc_objects sc' = sc_objects sc -> has_users sc' m = has_users sc m.
Proof. unfold has_users. intros ->. done. Qed.

(** X3: When execute reports, the final scene has the original objects, and
    cleanup_unused_materials removes no material that a slot of some object
    references: every such original material is still there. *)
Theorem execute_material_table (renderer : list event -> bool) (filepath : string)
    (sc : scene) (w : world) (rep : nat * nat) :
  execute renderer filepath sc = (w, Some rep) ->
  sc_objects (w_scene w) = sc_objects sc /\
  forall m, mat_at sc m <> None -> has_users sc m = true -> mat_at (w_scene w) m <> None.
Proof.
  unfold execute. destruct (String.eqb filepath ""); [discriminate|].
  destruct (get_all_materials (duplicate_shared_materials sc)) as [|m0 ms]; [discriminate|].
  destruct (duplicate_shared_materials_only_renames sc) as (O1 & _ & G1).
  pose proof (execute_loop_kept renderer (m0 :: ms) (mkWorld (duplicate_shared_materials sc) None []))
    as [O2 N2].
  destruct (execute_loop renderer (m0 :: ms) _) as [w' n]. simpl in O2, N2.
  intros [= <- _]. simpl. rewrite O2, O1. split; [done|]. intros m.
  assert (Hu : has_users (w_scene w') m = has_users sc m)
    by (apply has_users_objects; rewrite O2, O1; done).
  assert (Hp : mat_at (w_scene w') m <> None <-> mat_at sc m <> None).
  { specialize (N2 m). specialize (G1 m).
    destruct (mat_at (w_scene w') m), (mat_at (duplicate_shared_materials sc) m), (mat_at sc m);
      simpl in N2, G1; split; congruence. }
  intros Hm Hh. rewrite mat_at_cleanup by (rewrite Hu; done). apply Hp. done.
Qed.

Lemma loop_uvs_None (data : option (list (Q * Q))) (loops : list nat) :
  loop_uvs data loops = None <-> exists li, In li loops /\ (data ≫= fun d => d !! li) = None.
Proof.
  induction loops as [|li rest IH]; simpl.
  - split; [discriminate|]. intros (? & [] & _).
  - destruct data as [d|]; simpl.
    + destruct (d !! li) as [[u v]|] eqn:E.
      * destruct (loop_uvs (Some d) rest) eqn:Er; simpl in IH.
        -- split; [discriminate|]. intros (li' & [<-|Hin] & Hn); [congruence|].
           assert (Some l = None) by (apply IH; exists li'; done). discriminate.
        -- split; [|done]. intros _. destruct (proj1 IH eq_refl) as (li' & Hin & Hn).
           exists li'. split; [right|]; done.
      * split; [|done]. intros _. exists li. split; [left|]; done.
    + split; [|done]. intros _. exists li. split; [left|]; done.
Qed.

Lemma poly_uvs_None (o : obj) (m : nat) (p : poly) :
  poly_uvs o m p = None <->
  material_index p < length (o_slots o) /\ o_slots o !! material_index p = Some (Some m) /\
  exists li, In li (loop_indices p) /\ (active_layer o ≫= fun d => d !! li) = None.
Proof.
  unfold poly_uvs. destruct (Nat.ltb_spec (material_index p) (length (o_slots o))) as [Hlt|Hge].
  - destruct (o_slots o !! material_index p) as [[m'|]|] eqn:E.
    + destruct (Nat.eqb_spec m' m) as [->|Hne].
      * rewrite loop_uvs_None. split; [intros H; split_and!; done|intros (_ & _ & H); done].
      * split; [discriminate|]. intros (_ & [= ->] & _). done.
    + split; [discriminate|]. intros (_ & [=] & _).
    + split; [discriminate|]. intros (_ & [=] & _).
  - split; [discriminate|]. intros [H _]. lia.
Qed.

Lemma collect_uvs_None (o : obj) (m : nat) (ps : list poly) :
  collect_uvs o m ps = None <-> exists p, In p ps /\ poly_uvs o m p = None.
Proof.
  induction ps as [|p ps IH]; simpl.
  - split; [discriminate|]. intros (? & [] & _).
  - destruct (poly_uvs o m p) as [a|] eqn:Ep.
    + destruct (collect_uvs o m ps) as [b|]; simpl in IH.
      * split; [discriminate|]. intros (p' & [<-|Hin] & Hn); [congruence|].
        assert (Some b = None) by (apply IH; exists p'; done). discriminate.
      * split; [|done]. intros _. destruct (proj1 IH eq_refl) as (p' & ? & ?).
        exists p'. split; [right|]; done.
    + split; [|done]. intros _. exists p. split; [left|]; done.
Qed.

(** X4: get_uv_hash raises exactly when the mesh has a UV layer, the material
    is in one of its slots, and a face in slot range assigned to the
    material has a loop index outside the data of the active UV layer. *)
Theorem get_uv_hash_raises (o : obj) (m : nat) :
  get_uv_hash o m = None <->
  o_uv_layers o <> [] /\ has_material o m = true /\
  exists p, In p (o_polys o) /\ material_index p < length (o_slots o) /\
    o_slots o !! material_index p = Some (Some m) /\
    exists li, In li (loop_indices p) /\ (active_layer o ≫= fun d => d !! li) = None.
Proof.
  unfold get_uv_hash. destruct (o_uv_layers o) as [|l ls].
  - split; [discriminate|]. intros [H _]. done.
  - destruct (has_material o m); simpl.
    + destruct (collect_uvs o m (o_polys o)) as [cs|] eqn:E.
      * split; [destruct (uv_sort cs); discriminate|].
        intros (_ & _ & p & Hp & H). assert (Some cs = None); [|discriminate].
        rewrite <- E. apply collect_uvs_None. exists p. split; [done|]. apply poly_uvs_None. done.
      * split; [|done]. intros _. split_and!; [done|done|].
        destruct (proj1 (collect_uvs_None _ _ _) E) as (p & Hp & Hn).
        exists p. split; [done|]. apply poly_uvs_None. done.
    + split; [discriminate|]. intros (_ & [=] & _).
Qed.

Lemma um_add_dict (k : nat * uv_hash) (u : usage) (um : usage_map) :
  um_add k u um = dict_append k u um.
Proof. induction um as [|[k' us] r IH]; simpl; [done|]. rewrite IH. done. Qed.

Lemma group_add_dict (h : uv_hash) (i : nat) (gs : list (uv_hash * list nat)) :
  group_add h i gs = dict_append h i gs.
Proof. induction gs as [|[h' os] r IH]; simpl; [done|]. rewrite IH. done. Qed.

Section DictLemmas.
Context {K V : Type} `{EqDecision K}.
Implicit Types (k : K) (v : V) (d : list (K * list V)).

Lemma dict_flat_cons (k : K) (vs : list V) d :
  dict_flat ((k, vs) :: d) = map (fun v => (k, v)) vs ++ dict_flat d.
Proof. reflexivity. Qed.

Lemma dict_flat_In k v d : In (k, v) (dict_flat d) <-> exists vs, In (k, vs) d /\ In v vs.
Proof.
  induction d as [|[k' vs'] d IH]; rewrite ?dict_flat_cons; simpl.
  - split; [done|]. intros (? & [] & _).
  - rewrite in_app_iff, IH, in_map_iff. split.
    + intros [(v' & [= <- <-] & Hv)|(vs & H1 & H2)]; [exists vs'; auto|exists vs; auto].
    + intros (vs & [[= <- <-]|H1] & H2); [left; exists v; auto|right; exists vs; auto].
Qed.

Lemma dict_append_flat k v d : dict_flat (dict_append k v d) ≡ₚ dict_flat d ++ [(k, v)].
Proof.
  induction d as [|[k' vs] d IH]; simpl; [done|].
  case_bool_decide as E; rewrite !dict_flat_cons.
  - subst. rewrite map_app, <- !app_assoc. apply Permutation_app_head. simpl.
    apply Permutation_cons_append.
  - rewrite IH, app_assoc. done.
Qed.

Lemma dict_append_keys k v d :
  map fst (dict_append k v d) = map fst d \/ map fst (dict_append k v d) = map fst d ++ [k] /\ k ∉ map fst d.
Proof.
  induction d as [|[k' vs] d IH]; simpl; [right; split; [done|apply not_elem_of_nil]|].
  case_bool_decide as E; [left; done|]. simpl.
  destruct IH as [->|[-> Hn]]; [left; done|right; split; [done|]].
  rewrite elem_of_cons. intros [->|Hin]; done.
Qed.

Lemma dict_append_keys_NoDup k v d : NoDup (map fst d) -> NoDup (map fst (dict_append k v d)).
Proof.
  intros Hd. destruct (dict_append_keys k v d) as [->|[-> Hn]]; [done|].
  apply NoDup_app. split_and!; [done| |apply NoDup_singleton].
  intros x Hx Hx'. apply list_elem_of_singleton in Hx' as ->. done.
Qed.

(** Each value list of the result is an old one, an old one with [v]
    appended, or [[v]]. *)
Lemma dict_append_lists k v d (k' : K) (vs : list V) :
  In (k', vs) (dict_append k v d) ->
  In (k', vs) d \/ (k' = k /\ (vs = [v] \/ exists vs0, In (k', vs0) d /\ vs = vs0 ++ [v])).
Proof.
  induction d as [|[k0 vs0] d IH]; simpl.
  - intros [[= <- <-]|[]]. right. auto.
  - case_bool_decide as E.
    + intros [[= <- <-]|Hin]; [|auto]. subst. right. split; [done|]. right. exists vs0. auto.
    + intros [[= <- <-]|Hin]; [auto|]. destruct (IH Hin) as [H|[-> [H|(vs1 & H1 & H2)]]]; auto.
      right. split; [done|]. right. exists vs1. auto.
Qed.

End DictLemmas.

Lemma um_add_flat_In (k : nat * uv_hash) (u : usage) (um : usage_map) x :
  In x (dict_flat (um_add k u um)) <-> In x (dict_flat um) \/ x = (k, u).
Proof.
  rewrite um_add_dict. split.
  - intros H. eapply Permutation_in in H; [|apply dict_append_flat].
    apply in_app_iff in H as [H|[H|[]]]; auto.
  - intros H. eapply Permutation_in; [symmetry; apply dict_append_flat|].
    apply in_app_iff. destruct H as [H| ->]; [left; done|right; left; done].
Qed.

Lemma um_add_snd_NoDup (k : nat * uv_hash) (u : usage) (um : usage_map) :
  NoDup (map snd (dict_flat um)) -> u ∉ map snd (dict_flat um) ->
  NoDup (map snd (dict_flat (um_add k u um))).
Proof.
  intros Hd Hn. rewrite um_add_dict.
  rewrite (dict_append_flat k u um), map_app. simpl.
  apply NoDup_app. split_and!; [done| |apply NoDup_singleton].
  intros x Hx Hx'. apply list_elem_of_singleton in Hx' as ->. done.
Qed.

Lemma usage_ok_at (objs : list obj) (i : nat) (o : obj) (k : nat * uv_hash) (j : nat) :
  objs !! i = Some o -> o_is_mesh o = true ->
  usage_ok objs k (i, j) <-> o_slots o !! j = Some (Some k.1) /\ get_uv_hash o k.1 = Some k.2.
Proof.
  intros Ho Hm. split.
  - intros (o' & Ho' & _ & Hs & Hh). simpl in Ho'. rewrite Ho in Ho'. injection Ho' as <-. done.
  - intros [Hs Hh]. exists o. done.
Qed.

Lemma pass1_slots_spec (objs : list obj) (i : nat) (o : obj) (j : nat)
    (slots : list (option nat)) (um : usage_map) :
  objs !! i = Some o -> o_is_mesh o = true ->
  (forall t, o_slots o !! (j + t) = slots !! t) ->
  (forall k u, In (k, u) (dict_flat (pass1_slots i o j slots um)) <->
     In (k, u) (dict_flat um) \/ (u.1 = i /\ j <= u.2 /\ usage_ok objs k u)) /\
  (NoDup (map fst um) -> NoDup (map fst (pass1_slots i o j slots um))) /\
  (NoDup (map snd (dict_flat um)) ->
   (forall u, In u (map snd (dict_flat um)) -> u.1 < i \/ (u.1 = i /\ u.2 < j)) ->
   NoDup (map snd (dict_flat (pass1_slots i o j slots um)))).
Proof.
  intros Ho Hm. revert j um. induction slots as [|s rest IH]; intros j um Hsl; simpl.
  - split_and!; [|done|done]. intros k [ui uj]. split; [auto|].
    intros [H|(Hi & Hj & Hok)]; [done|]. simpl in Hi, Hj. subst ui.
    apply (usage_ok_at objs i o) in Hok as [Hs _]; [|done..]. specialize (Hsl (uj - j)). rewrite Nat.add_comm, Nat.sub_add in Hsl by done.
    rewrite Hsl in Hs. rewrite lookup_nil in Hs. discriminate.
  - assert (Hsl' : forall t, o_slots o !! (S j + t) = rest !! t)
      by (intros t; specialize (Hsl (S t)); rewrite Nat.add_succ_r in Hsl; done).
    assert (Hs0 : o_slots o !! j = Some s) by (specialize (Hsl 0); rewrite Nat.add_0_r in Hsl; done).
    set (um' := match s with
                | Some m => match get_uv_hash o m with Some h => um_add (m, h) (i, j) um | None => um end
                | None => um end).
    destruct (IH (S j) um' Hsl') as (IHa & IHb & IHc).
    assert (Hstep : forall k u, In (k, u) (dict_flat um') <->
              In (k, u) (dict_flat um) \/ (u = (i, j) /\ usage_ok objs k u)).
    { intros k [ui uj]. unfold um'. destruct s as [m|]; [destruct (get_uv_hash o m) as [h|] eqn:Eh|].
      - rewrite um_add_flat_In. split.
        + intros [H|[= -> -> ->]]; [auto|]. right. split; [done|].
          apply (proj2 (usage_ok_at objs i o (m, h) j Ho Hm)). simpl. rewrite Hs0, Eh. done.
        + intros [H|([= -> ->] & Hok)]; [auto|]. right.
          apply (usage_ok_at objs i o) in Hok as [Hs Hh]; [|done|done].
          destruct k as [m' h']. simpl in Hs, Hh.
          rewrite Hs0 in Hs. injection Hs as <-. rewrite Eh in Hh. injection Hh as <-. done.
      - split; [auto|]. intros [H|([= -> ->] & Hok)]; [done|].
        apply (usage_ok_at objs i o) in Hok as [Hs Hh]; [|done|done].
        destruct k as [m' h']. simpl in Hs, Hh.
        rewrite Hs0 in Hs. injection Hs as <-. congruence.
      - split; [auto|]. intros [H|([= -> ->] & Hok)]; [done|].
        apply (usage_ok_at objs i o) in Hok as [Hs Hh]; [|done|done].
        rewrite Hs0 in Hs. discriminate. }
    split_and!.
    + intros k [ui uj]. rewrite IHa, Hstep. simpl. split.
      * intros [[H|([= -> ->] & Hok)]|(-> & Hj & Hok)]; [auto|right; split_and!; auto|].
        right. split_and!; [done|lia|done].
      * intros [H|(-> & Hj & Hok)]; [auto|].
        destruct (decide (uj = j)) as [->|Hne]; [left; right; auto|right; split_and!; [done|lia|done]].
    + intros Hk. apply IHb. unfold um'. destruct s as [m|]; [destruct (get_uv_hash o m)|]; try done.
      rewrite um_add_dict. apply dict_append_keys_NoDup. done.
    + intros Hd Hb. apply IHc.
      * unfold um'. destruct s as [m|]; [destruct (get_uv_hash o m)|]; try done.
        apply um_add_snd_NoDup; [done|]. intros Hin. apply list_elem_of_In in Hin.
        destruct (Hb _ Hin) as [H|[_ H]]; simpl in H; lia.
      * intros u Hu. apply in_map_iff in Hu as ([k u'] & <- & Hu). simpl.
        apply Hstep in Hu as [Hu|[-> _]]; [|simpl; right; split; [done|lia]].
        destruct (Hb u') as [H|[H1 H2]]; [apply in_map_iff; exists (k, u'); done|left; done|].
        right. split; [done|lia].
Qed.

Lemma pass1_spec_aux (objs : list obj) (i : nat) (rest : list obj) (um : usage_map) :
  (forall t, objs !! (i + t) = rest !! t) ->
  (forall k u, In (k, u) (dict_flat (pass1 i rest um)) <->
     In (k, u) (dict_flat um) \/ (i <= u.1 /\ usage_ok objs k u)) /\
  (NoDup (map fst um) -> NoDup (map fst (pass1 i rest um))) /\
  (NoDup (map snd (dict_flat um)) ->
   (forall u, In u (map snd (dict_flat um)) -> u.1 < i) ->
   NoDup (map snd (dict_flat (pass1 i rest um)))).
Proof.
  revert i um. induction rest as [|o rest IH]; intros i um Hr; simpl.
  - split_and!; [|done|done]. intros k [ui uj]. split; [auto|].
    intros [H|(Hi & o & Ho & _)]; [done|]. simpl in *.
    specialize (Hr (ui - i)). rewrite Nat.add_comm, Nat.sub_add in Hr by done.
    rewrite Hr, lookup_nil in Ho. discriminate.
  - assert (Hr' : forall t, objs !! (S i + t) = rest !! t)
      by (intros t; specialize (Hr (S t)); rewrite Nat.add_succ_r in Hr; done).
    assert (Ho : objs !! i = Some o) by (specialize (Hr 0); rewrite Nat.add_0_r in Hr; done).
    set (um' := if o_is_mesh o then pass1_slots i o 0 (o_slots o) um else um).
    destruct (IH (S i) um' Hr') as (IHa & IHb & IHc).
    assert (Hstep : forall k u, In (k, u) (dict_flat um') <->
              In (k, u) (dict_flat um) \/ (u.1 = i /\ usage_ok objs k u)).
    { intros k u. unfold um'. destruct (o_is_mesh o) eqn:Em.
      - destruct (pass1_slots_spec objs i o 0 (o_slots o) um Ho Em (fun t => eq_refl)) as [Ha _].
        rewrite Ha. split; intros [H|H]; auto; right; intuition lia.
      - split; [auto|]. intros [H|[Hi (o' & Ho' & Hm' & _)]]; [done|].
        rewrite Hi, Ho in Ho'. injection Ho' as <-. congruence. }
    split_and!.
    + intros k u. rewrite IHa, Hstep. split.
      * intros [[H|[H1 H2]]|[H1 H2]]; [auto|right; split; [lia|done]|right; split; [lia|done]].
      * intros [H|[H1 H2]]; [auto|]. destruct (decide (u.1 = i)); [left; right; auto|right; split; [lia|done]].
    + intros Hk. apply IHb. unfold um'. destruct (o_is_mesh o) eqn:Em; [|done].
      apply (pass1_slots_spec objs i o 0 (o_slots o) um Ho Em (fun t => eq_refl)). done.
    + intros Hd Hb. apply IHc.
      * unfold um'. destruct (o_is_mesh o) eqn:Em; [|done].
        apply (pass1_slots_spec objs i o 0 (o_slots o) um Ho Em (fun t => eq_refl)); [done|].
        intros u Hu. left. apply Hb. done.
      * intros u Hu. apply in_map_iff in Hu as ([k u'] & <- & Hu). simpl.
        apply Hstep in Hu as [Hu|[H _]]; [|lia].
        assert (u'.1 < i); [apply Hb, in_map_iff; exists (k, u'); done|lia].
Qed.

(** X5: Pass 1 of duplicate_shared_materials records each filled slot of each
    mesh whose fingerprint does not raise exactly once, under the key
    (material, fingerprint), and no key twice. *)
Theorem pass1_material_usage (objs : list obj) :
  let um := pass1 0 objs [] in
  NoDup (map fst um) /\ NoDup (map snd (dict_flat um)) /\
  forall m h i j, (exists us, In ((m, h), us) um /\ In (i, j) us) <->
    exists o, objs !! i = Some o /\ o_is_mesh o = true /\
      o_slots o !! j = Some (Some m) /\ get_uv_hash o m = Some h.
Proof.
  cbv zeta. destruct (pass1_spec_aux objs 0 objs [] (fun t => eq_refl)) as (Ha & Hb & Hc).
  split_and!; [apply Hb; constructor|apply Hc; [constructor|intros ? []]|].
  intros m h i j. rewrite <- dict_flat_In, Ha. split.
  - intros [[]|[_ Hok]]. exact Hok.
  - intros Hok. right. split; [lia|exact Hok].
Qed.

Lemma group_add_flat_In (h : uv_hash) (i : nat) (gs : list (uv_hash * list nat)) x :
  In x (dict_flat (group_add h i gs)) <-> In x (dict_flat gs) \/ x = (h, i).
Proof.
  rewrite group_add_dict. split.
  - intros H. eapply Permutation_in in H; [|apply dict_append_flat].
    apply in_app_iff in H as [H|[H|[]]]; auto.
  - intros H. eapply Permutation_in; [symmetry; apply dict_append_flat|].
    apply in_app_iff. destruct H as [H| ->]; [left; done|right; left; done].
Qed.

Lemma StronglySorted_snoc (l : list nat) (x : nat) :
  StronglySorted lt l -> (forall y, In y l -> y < x) -> StronglySorted lt (l ++ [x]).
Proof.
  induction l as [|a l IH]; intros Hs Hb; simpl; [repeat constructor|].
  inversion Hs as [|? ? Hs' Ha]; subst. constructor.
  - apply IH; [done|]. intros y Hy. apply Hb. right. done.
  - apply Forall_app. split; [done|]. constructor; [apply Hb; left; done|constructor].
Qed.

Lemma uv_groups_of_spec_aux (m : nat) (objs : list obj) (i : nat) (rest : list obj)
    (gs : list (uv_hash * list nat)) :
  (forall t, objs !! (i + t) = rest !! t) ->
  (uv_groups_of m i rest gs = None <->
     exists x o, i <= x /\ objs !! x = Some o /\ o_is_mesh o = true /\
       has_material o m = true /\ get_uv_hash o m = None) /\
  forall gs', uv_groups_of m i rest gs = Some gs' ->
    (forall h x, In (h, x) (dict_flat gs') <-> In (h, x) (dict_flat gs) \/ (i <= x /\ grouped objs m x h)) /\
    (NoDup (map fst gs) -> NoDup (map fst gs')) /\
    (groups_shape gs i -> groups_shape gs' (i + length rest)).
Proof.
  revert i gs. induction rest as [|o rest IH]; intros i gs Hr; simpl.
  - split.
    + split; [discriminate|]. intros (x & o & Hx & Ho & _).
      specialize (Hr (x - i)). rewrite Nat.add_comm, Nat.sub_add in Hr by done.
      rewrite Hr, lookup_nil in Ho. discriminate.
    + intros gs' [= <-]. split_and!; [|done|rewrite Nat.add_0_r; done].
      intros h x. split; [auto|]. intros [H|(Hx & o & Ho & _)]; [done|].
      specialize (Hr (x - i)). rewrite Nat.add_comm, Nat.sub_add in Hr by done.
      rewrite Hr, lookup_nil in Ho. discriminate.
  - assert (Hr' : forall t, objs !! (S i + t) = rest !! t)
      by (intros t; specialize (Hr (S t)); rewrite Nat.add_succ_r in Hr; done).
    assert (Ho : objs !! i = Some o) by (specialize (Hr 0); rewrite Nat.add_0_r in Hr; done).
    assert (Hlater : forall x o', i <= x -> objs !! x = Some o' -> x = i /\ o' = o \/ S i <= x).
    { intros x o' Hx Hx'. destruct (decide (x = i)) as [->|Hne]; [left; split; [done|congruence]|right; lia]. }
    destruct (o_is_mesh o && has_material o m) eqn:Eu.
    + apply andb_true_iff in Eu as [Em Eh].
      destruct (get_uv_hash o m) as [h0|] eqn:Eg.
      * set (gs1 := if is_sentinel h0 then gs else group_add h0 i gs).
        destruct (IH (S i) gs1 Hr') as [IHn IHs]. split.
        -- rewrite IHn. split; intros (x & o' & Hx & Ho' & Hm' & Hh' & Hg').
           ++ exists x, o'. split_and!; [lia|done..].
           ++ destruct (Hlater x o' Hx Ho') as [[-> ->]|Hx2]; [congruence|].
              exists x, o'. split_and!; done.
        -- intros gs' Hgs'. destruct (IHs gs' Hgs') as (Ha & Hb & Hc).
           assert (Hstep : forall h x, In (h, x) (dict_flat gs1) <->
                     In (h, x) (dict_flat gs) \/ (x = i /\ grouped objs m x h)).
           { intros h x. unfold gs1. destruct (is_sentinel h0) eqn:Es.
             - split; [auto|]. intros [H|(-> & o' & Ho' & _ & _ & Hh' & Hs')]; [done|].
               rewrite Ho in Ho'. injection Ho' as <-. rewrite Eg in Hh'. injection Hh' as <-. congruence.
             - rewrite group_add_flat_In. split.
               + intros [H|[= -> ->]]; [auto|]. right. split; [done|]. exists o. done.
               + intros [H|(-> & o' & Ho' & _ & _ & Hh' & Hs')]; [auto|]. right.
                 rewrite Ho in Ho'. injection Ho' as <-. rewrite Eg in Hh'. injection Hh' as <-. done. }
           split_and!.
           ++ intros h x. rewrite Ha, Hstep. split.
              ** intros [[H|[-> Hg]]|[Hx Hg]]; [auto|right; split; [done|done]|right; split; [lia|done]].
              ** intros [H|[Hx Hg]]; [auto|]. destruct (decide (x = i)) as [->|Hne];
                   [left; right; done|right; split; [lia|done]].
           ++ intros Hk. apply Hb. unfold gs1. destruct (is_sentinel h0); [done|].
              rewrite group_add_dict. apply dict_append_keys_NoDup. done.
           ++ intros Hsh. replace (i + S (length rest)) with (S i + length rest) by lia.
              apply Hc. unfold gs1. intros h os Hin. destruct (is_sentinel h0) eqn:Es.
              ** destruct (Hsh h os Hin) as (? & ? & ? & Hb'). split_and!; [done..|].
                 intros x Hx. specialize (Hb' x Hx). lia.
              ** rewrite group_add_dict in Hin.
                 apply dict_append_lists in Hin as [Hin|[-> [->|(os0 & Hin0 & ->)]]].
                 --- destruct (Hsh h os Hin) as (? & ? & ? & Hb'). split_and!; [done..|].
                     intros x Hx. specialize (Hb' x Hx). lia.
                 --- split_and!; [done|done|repeat constructor|]. intros x [<-|[]]. lia.
                 --- destruct (Hsh h0 os0 Hin0) as (? & ? & ? & Hb'). split_and!; [done| |..].
                     +++ destruct os0; done.
                     +++ apply StronglySorted_snoc; done.
                     +++ intros x Hx. apply in_app_iff in Hx as [Hx|[<-|[]]]; [specialize (Hb' x Hx)|]; lia.
      * split.
        -- split; [intros _; exists i, o; split_and!; done|done].
        -- intros gs' [=].
    + destruct (IH (S i) gs Hr') as [IHn IHs]. split.
      * rewrite IHn. split; intros (x & o' & Hx & Ho' & Hm' & Hh' & Hg').
        -- exists x, o'. split_and!; [lia|done..].
        -- destruct (Hlater x o' Hx Ho') as [[-> ->]|Hx2].
           ++ rewrite Hm', Hh' in Eu. discriminate.
           ++ exists x, o'. split_and!; done.
      * intros gs' Hgs'. destruct (IHs gs' Hgs') as (Ha & Hb & Hc). split_and!; [|done|].
        -- intros h x. rewrite Ha. split.
           ++ intros [H|[Hx Hg]]; [auto|right; split; [lia|done]].
           ++ intros [H|[Hx Hg]]; [auto|]. destruct (decide (x = i)) as [->|Hne]; [|right; split; [lia|done]].
              destruct Hg as (o' & Ho' & Hm' & Hh' & _). rewrite Ho in Ho'. injection Ho' as <-.
              rewrite Hm', Hh' in Eu. discriminate.
        -- intros Hsh. replace (i + S (length rest)) with (S i + length rest) by lia.
           apply Hc. intros h os Hin. destruct (Hsh h os Hin) as (? & ? & ? & Hb'). split_and!; [done..|].
           intros x Hx. specialize (Hb' x Hx). lia.
Qed.

(** X6: The grouping loop of bake_material raises exactly when a mesh using
    the material has a raising fingerprint. Otherwise its groups have
    distinct non-sentinel keys and non-empty increasing object lists, and
    object x is in the group of h exactly when x is a mesh using the
    material with fingerprint h. *)
Theorem uv_groups_of_spec (m : nat) (objs : list obj) :
  (uv_groups_of m 0 objs [] = None <->
     exists x o, objs !! x = Some o /\ o_is_mesh o = true /\
       has_material o m = true /\ get_uv_hash o m = None) /\
  forall gs, uv_groups_of m 0 objs [] = Some gs ->
    NoDup (map fst gs) /\
    (forall h os, In (h, os) gs -> is_sentinel h = false /\ os <> [] /\ StronglySorted lt os) /\
    (forall h x, (exists os, In (h, os) gs /\ In x os) <-> grouped objs m x h).
Proof.
  destruct (uv_groups_of_spec_aux m objs 0 objs [] (fun t => eq_refl)) as [Hn Hs]. split.
  - rewrite Hn. split; intros (x & o & H); [exists x, o; intuition lia|exists x, o; intuition lia].
  - intros gs Hgs. destruct (Hs gs Hgs) as (Ha & Hb & Hc). split_and!.
    + apply Hb. constructor.
    + intros h os Hin. destruct (Hc (fun h os H => match H with end) h os Hin) as (? & ? & ? & _).
      done.
    + intros h x. rewrite <- dict_flat_In, Ha. split; [intros [[]|[_ H]]; done|intros H; right; split; [lia|done]].
Qed.

Lemma filter_filter_and {A} (f h : A -> bool) (l : list A) :
  List.filter f (List.filter h l) = List.filter (fun x => h x && f x) l.
Proof.
  induction l as [|x l IH]; simpl; [done|].
  destruct (h x); simpl; [destruct (f x); simpl; rewrite IH; done|done].
Qed.

Lemma remove_temp_nodes_nodes (ns : list node) (g : graph) :
  g_nodes (remove_temp_nodes ns g) =
  List.filter (fun n => negb (existsb (fun t => is_temp_kind (n_type t) && Nat.eqb (n_id t) (n_id n)) ns))
    (g_nodes g) /\ g_next (remove_temp_nodes ns g) = g_next g.
Proof.
  revert g. induction ns as [|t ns IH]; intros g; simpl.
  - split; [|done]. generalize (g_nodes g). intros l.
    induction l as [|n l IHl]; simpl; [done|]. rewrite <- IHl. done.
  - destruct (IH (if is_temp_kind (n_type t) then nodes_remove (n_id t) g else g)) as [-> ->].
    destruct (is_temp_kind (n_type t)) eqn:Et; simpl.
    + split; [|done]. rewrite filter_filter_and. apply List.filter_ext. intros n.
      rewrite (Nat.eqb_sym (n_id n) (n_id t)).
      destruct (Nat.eqb (n_id t) (n_id n)); done.
    + done.
Qed.

Lemma remove_temp_nodes_links (ns : list node) (g : graph) (l : link) :
  In l (g_links (remove_temp_nodes ns g)) -> In l (g_links g) /\
    forall t, In t ns -> is_temp_kind (n_type t) = true -> touches (n_id t) l = false.
Proof.
  revert g. induction ns as [|t ns IH]; intros g Hl; simpl in *; [split; [done|intros ? []]|].
  destruct (IH _ Hl) as [Hl' Ht].
  destruct (is_temp_kind (n_type t)) eqn:Et.
  - apply nodes_remove_links in Hl' as [Hl' Htl]. split; [done|].
    intros t' [<-|Ht'] Hk; [done|auto].
  - split; [done|]. intros t' [<-|Ht'] Hk; [congruence|auto].
Qed.

Lemma links_new_closed (f t : socket) (g : graph) :
  links_closed g -> links_closed (links_new f t g).
Proof.
  intros Hc. destruct (node_exists g f.1) eqn:Hf; [destruct (node_exists g t.1) eqn:Ht|].
  - destruct (links_new_some f t g Hf Ht) as (_ & Hl). intros l Hin.
    rewrite !(node_exists_nodes g (links_new f t g)) by apply links_new_nodes.
    destruct (Hl l Hin) as [[H _]| ->]; [apply Hc; done|done].
  - unfold links_new. rewrite Hf, Ht. done.
  - unfold links_new. rewrite Hf. done.
Qed.

Lemma relink_closed (ls : list link) (g : graph) :
  links_closed g -> links_closed (relink ls g).
Proof.
  revert g. induction ls as [|[f t] ls IH]; intros g Hc; simpl; [done|].
  apply IH. apply links_new_closed; done.
Qed.

(** X7: On a tree whose node ids are distinct, restore_material_links removes
    exactly the Emission and Value nodes, keeps the other nodes in order,
    and keeps every link between nodes of the tree. *)
Theorem restore_material_links_nodes (g : graph) (L : list link) :
  ids_ok g ->
  g_nodes (restore_material_links g L) =
    List.filter (fun n => negb (is_temp_kind (n_type n))) (g_nodes g) /\
  (links_closed g -> links_closed (restore_material_links g L)).
Proof.
  intros [_ Hinj]. unfold restore_material_links.
  destruct (remove_temp_nodes_nodes (g_nodes g) g) as [Hn _]. split.
  - rewrite (proj1 (relink_nodes _ _)), Hn. apply List.filter_ext_in. intros n Hn'.
    f_equal. apply eq_true_iff_eq. rewrite existsb_exists. split.
    + intros (t & Ht & Hk). apply andb_true_iff in Hk as [Hk Hid].
      apply Nat.eqb_eq in Hid. rewrite <- (Hinj t n Ht Hn' Hid). done.
    + intros Hk. exists n. rewrite Hk, Nat.eqb_refl. done.
  - intros Hc. apply relink_closed. intros l Hl.
    destruct (remove_temp_nodes_links (g_nodes g) g l Hl) as [Hl' Ht].
    destruct (Hc l Hl') as [Hf Hto].
    assert (Hkeep : forall i, node_exists g i = true -> 
              (forall t, In t (g_nodes g) -> is_temp_kind (n_type t) = true -> n_id t <> i) ->
              node_exists (remove_temp_nodes (g_nodes g) g) i = true).
    { intros i Hi Hnt. unfold node_exists in *. rewrite Hn.
      apply existsb_exists in Hi as (n & Hin & Hid). apply Nat.eqb_eq in Hid.
      apply existsb_exists. exists n. split; [|rewrite Hid, Nat.eqb_refl; done].
      apply filter_In. split; [done|]. apply negb_true_iff.
      destruct (existsb (fun t => is_temp_kind (n_type t) && _) (g_nodes g)) eqn:Ee; [|done]. apply existsb_exists in Ee as (t & Ht0 & Hk).
      apply andb_true_iff in Hk as [Hk Htid]. apply Nat.eqb_eq in Htid.
      exfalso. apply (Hnt t Ht0 Hk). congruence. }
    split; apply Hkeep; try done; intros t Htn Hk Hid; specialize (Ht t Htn Hk);
      unfold touches in Ht; rewrite Hid, Nat.eqb_refl in Ht;
      [discriminate|rewrite orb_true_r in Ht; discriminate].
Qed.

Lemma map_rename_fresh (l : list node) (k : nat) (s : string) :
  (forall n, In n l -> n_id n < k) ->
  map (fun n => if Nat.eqb (n_id n) k then mkNode (n_id n) (n_type n) s else n) l = l.
Proof.
  induction l as [|n l IH]; intros H; simpl; [done|].
  destruct (Nat.eqb_spec (n_id n) k) as [E|E].
  - exfalso. specialize (H n (or_introl eq_refl)). lia.
  - rewrite IH; [done|]. intros n' Hn'. apply H. right. done.
Qed.

Lemma nodes_get_Some (s : string) (g : graph) (e : node) :
  nodes_get s g = Some e -> In e (g_nodes g) /\ n_name e = s.
Proof.
  unfold nodes_get. intros H. apply find_some in H as [Hin Hs].
  apply String.eqb_eq in Hs. done.
Qed.

Lemma nodes_get_None (s : string) (g : graph) (n : node) :
  nodes_get s g = None -> In n (g_nodes g) -> n_name n <> s.
Proof.
  unfold nodes_get. intros H Hn E. eapply find_none in H; [|exact Hn].
  rewrite E, String.eqb_refl in H. discriminate.
Qed.

Lemma filter_none {A} (f : A -> bool) (l : list A) :
  (forall x, In x l -> f x = false) -> List.filter f l = [].
Proof.
  induction l as [|x l IH]; intros H; simpl; [done|].
  rewrite (H x (or_introl eq_refl)). apply IH. intros y Hy. apply H. right. done.
Qed.

(** X8: setup_bake_node returns the id of the Image Texture node it creates,
    keeps every node not named 'Bake_Target', and when the tree had at
    most one 'Bake_Target' node, the new node is the only one after. *)
Theorem setup_bake_node_spec (g : graph) :
  ids_ok g ->
  (setup_bake_node g).1 = g_next g /\
  (forall n, In n (g_nodes g) -> n_name n <> "Bake_Target"%string ->
     In n (g_nodes (setup_bake_node g).2)) /\
  (length (bake_targets g) <= 1 ->
     bake_targets (setup_bake_node g).2 = [mkNode (g_next g) TEX_IMAGE "Bake_Target"]).
Proof.
  intros [Hlt Hinj]. unfold setup_bake_node.
  set (g1 := match nodes_get "Bake_Target" g with
             | Some e => nodes_remove (n_id e) g | None => g end).
  assert (Hk1 : g_next g1 = g_next g) by (unfold g1; destruct (nodes_get _ g) as [e|]; done).
  assert (Hsub : forall n, In n (g_nodes g1) -> In n (g_nodes g))
    by (unfold g1; destruct (nodes_get _ g) as [e|]; [intros n Hn; apply filter_In in Hn as [Hn _]|]; auto).
  assert (Hkeep : forall n, In n (g_nodes g) -> n_name n <> "Bake_Target"%string -> In n (g_nodes g1)).
  { unfold g1. destruct (nodes_get "Bake_Target" g) as [e|] eqn:Ee; [|auto].
    intros n Hn Hname. apply filter_In. split; [done|]. apply negb_true_iff, Nat.eqb_neq.
    intros Hid. apply nodes_get_Some in Ee as [He Hen]. rewrite (Hinj n e Hn He Hid) in Hname. done. }
  assert (Hno : forall n, In n (g_nodes g1) -> length (bake_targets g) <= 1 ->
             n_name n <> "Bake_Target"%string).
  { unfold g1. destruct (nodes_get "Bake_Target" g) as [e|] eqn:Ee.
    - intros n Hn Hle Hname. apply filter_In in Hn as [Hn Hid]. apply negb_true_iff, Nat.eqb_neq in Hid.
      apply nodes_get_Some in Ee as [He Hen]. unfold bake_targets in Hle.
      assert (Hin1 : In n (List.filter (fun n => String.eqb (n_name n) "Bake_Target") (g_nodes g)))
        by (apply filter_In; rewrite Hname, String.eqb_refl; done).
      assert (Hin2 : In e (List.filter (fun n => String.eqb (n_name n) "Bake_Target") (g_nodes g)))
        by (apply filter_In; rewrite Hen, String.eqb_refl; done).
      destruct (List.filter _ (g_nodes g)) as [|a [|b r]]; simpl in Hle; [done| |lia].
      destruct Hin1 as [<-|[]]. destruct Hin2 as [<-|[]]. done.
    - intros n Hn _. apply (nodes_get_None _ _ _ Ee Hn). }
  destruct (nodes_new TEX_IMAGE g1) as [bn g2] eqn:En.
  unfold nodes_new in En. injection En as <- <-. cbn [fst snd n_id]. split; [done|].
  assert (Hnodes : g_nodes (set_node_name (g_next g1) "Bake_Target"
                      (mkGraph (g_nodes g1 ++ [mkNode (g_next g1) TEX_IMAGE
                                  (unique_name g1 "Image Texture")])
                               (g_links g1) (S (g_next g1)))) =
                   g_nodes g1 ++ [mkNode (g_next g) TEX_IMAGE "Bake_Target"]).
  { unfold set_node_name. cbn [g_nodes]. rewrite map_app, map_rename_fresh.
    - simpl. rewrite Nat.eqb_refl, Hk1. done.
    - intros n Hn. rewrite Hk1. apply Hlt, Hsub. done. }
  rewrite Hnodes. split.
  - intros n Hn Hname. apply in_app_iff. left. auto.
  - intros Hle. unfold bake_targets. rewrite Hnodes, List.filter_app.
    replace (List.filter _ (g_nodes g1)) with (@nil node); [reflexivity|].
    symmetry. apply filter_none. intros n Hn. apply String.eqb_neq. apply Hno; done.
Qed.

Lemma pick_name_prefix (g : graph) (base : string) (k fuel : nat) :
  exists s, pick_name g base k fuel = String.append base s.
Proof.
  revert k. induction fuel as [|f IH]; intros k; simpl.
  - exists "". rewrite str_app_nil_r. done.
  - destruct (name_taken g _); [apply IH|]. eexists. reflexivity.
Qed.

Lemma unique_name_prefix (g : graph) (base : string) :
  exists s, unique_name g base = String.append base s.
Proof.
  unfold unique_name. destruct (name_taken g base); [apply pick_name_prefix|].
  exists "". rewrite str_app_nil_r. done.
Qed.

Lemma emission_name_not_output (g : graph) :
  String.eqb (unique_name g "Emission") "Material Output" = false.
Proof. destruct (unique_name_prefix g "Emission") as [s ->]. reflexivity. Qed.

Lemma find_app_opt {A} (f : A -> bool) (l1 l2 : list A) :
  find f (l1 ++ l2) = match find f l1 with Some x => Some x | None => find f l2 end.
Proof. induction l1 as [|a l1 IH]; simpl; [done|]. destruct (f a); done. Qed.

Lemma node_exists_sub (gx gy : graph) (i : nat) :
  (forall n, In n (g_nodes gx) -> In n (g_nodes gy)) ->
  node_exists gx i = true -> node_exists gy i = true.
Proof.
  unfold node_exists. intros Hs Hi. apply existsb_exists in Hi as (n & Hn & Hid).
  apply existsb_exists. exists n. auto.
Qed.

Lemma nodes_new_facts (t : node_type) (gx : graph) :
  g_links (nodes_new t gx).2 = g_links gx /\
  (forall n, In n (g_nodes gx) -> In n (g_nodes (nodes_new t gx).2)) /\
  In (nodes_new t gx).1 (g_nodes (nodes_new t gx).2) /\
  n_type (nodes_new t gx).1 = t /\ n_id (nodes_new t gx).1 = g_next gx.
Proof.
  simpl. split_and!; [done| |apply in_app_iff; right; left; done|done|done].
  intros n Hn. apply in_app_iff. left. done.
Qed.

Lemma links_new_into (f t : socket) (g : graph) :
  node_exists g f.1 = true -> node_exists g t.1 = true ->
  links_into t (links_new f t g) = [(f, t)].
Proof.
  unfold links_new, links_into. intros -> ->. simpl.
  rewrite List.filter_app, filter_filter_and, filter_none.
  - simpl. rewrite bool_decide_true; done.
  - intros l _. destruct (bool_decide (l.2 = t)); done.
Qed.

Lemma links_new_into_other (f t t' : socket) (g : graph) :
  t' <> t -> links_into t' (links_new f t g) = links_into t' g.
Proof.
  unfold links_new, links_into. intros Hne. destruct (_ && _); [|done]. simpl.
  rewrite List.filter_app, filter_filter_and. simpl. rewrite (bool_decide_false (t = t')) by congruence.
  rewrite app_nil_r. apply List.filter_ext. intros l.
  destruct (decide (l.2 = t)) as [E|E].
  - rewrite (bool_decide_true (l.2 = t)), (bool_decide_false (l.2 = t')) by (try done; congruence). done.
  - rewrite (bool_decide_false (l.2 = t)) by done. done.
Qed.

Lemma closed_sub (g gx : graph) :
  links_closed g -> g_links gx = g_links g ->
  (forall n, In n (g_nodes g) -> In n (g_nodes gx)) -> links_closed gx.
Proof.
  intros Hc El Hs l Hl. rewrite El in Hl. destruct (Hc l Hl) as [H1 H2].
  split; eapply node_exists_sub; eauto.
Qed.

(** X9: On a tree whose links join nodes of the tree, setup_metallic_nodes
    raises (the KeyError of [output.inputs['Surface']]) exactly when the
    tree has a node named 'Material Output' without a Surface input. When
    it does not raise, it returns the old links, keeps every node, adds an
    Emission node linked into the Surface input of the 'Material Output'
    node (the existing one, else a new output node), and exactly one link,
    from a node of the tree, enters the Emission node's Strength input. *)
Theorem setup_metallic_nodes_spec (g : graph) :
  links_closed g ->
  (snd (setup_metallic_nodes g) = None <->
   exists o, nodes_get "Material Output" g = Some o /\ has_surface_input (n_type o) = false) /\
  ((forall o, nodes_get "Material Output" g = Some o -> has_surface_input (n_type o) = true) ->
   exists g' e o src,
    setup_metallic_nodes g = (g', Some (g_links g)) /\
    (forall n, In n (g_nodes g) -> In n (g_nodes g')) /\
    In e (g_nodes g') /\ n_type e = EMISSION /\ n_id e = g_next g /\
    In o (g_nodes g') /\
    (nodes_get "Material Output" g = Some o \/
     (nodes_get "Material Output" g = None /\ n_type o = OUTPUT_MATERIAL)) /\
    links_into (n_id o, "Surface") g' = [((n_id e, "Emission"), (n_id o, "Surface"))] /\
    node_exists g' src.1 = true /\
    links_into (n_id e, "Strength") g' = [(src, (n_id e, "Strength"))] /\
    links_closed g').
Proof.
  intros Hc. unfold setup_metallic_nodes. cbv zeta.
  pose proof (nodes_new_facts EMISSION g) as (L1 & S1 & I1 & T1 & D1).
  assert (Hget : nodes_get "Material Output" (nodes_new EMISSION g).2 = nodes_get "Material Output" g).
  { unfold nodes_get. simpl. rewrite find_app_opt. destruct (find _ (g_nodes g)); [done|].
    simpl. rewrite emission_name_not_output. done. }
  destruct (nodes_new EMISSION g) as [e g1]. simpl in L1, S1, I1, T1, D1, Hget.
  destruct (match nodes_get "Material Output" g1 with Some o => (o, g1)
            | None => nodes_new OUTPUT_MATERIAL g1 end) as [o g2] eqn:E2.
  assert (H2 : g_links g2 = g_links g1 /\ (forall n, In n (g_nodes g1) -> In n (g_nodes g2)) /\
               In o (g_nodes g2) /\
               (nodes_get "Material Output" g = Some o \/
                (nodes_get "Material Output" g = None /\ n_type o = OUTPUT_MATERIAL))).
  { rewrite Hget in E2. destruct (nodes_get "Material Output" g) as [o'|] eqn:Eo.
    - injection E2 as <- <-. split_and!; [done|done| |left; done].
      apply nodes_get_Some in Eo as [Ho _]. apply S1. done.
    - pose proof (nodes_new_facts OUTPUT_MATERIAL g1) as (L & S & I & T & _).
      rewrite E2 in L, S, I, T. simpl in L, S, I, T. split_and!; [done..|right; done]. }
  destruct H2 as (L2 & S2 & I2 & O2).
  destruct (match find (fun n => bool_decide (n_type n = BSDF_PRINCIPLED)) (g_nodes g2) with
            | Some p => (p, g2) | None => nodes_new BSDF_PRINCIPLED g2 end) as [p g3] eqn:E3.
  assert (H3 : g_links g3 = g_links g2 /\ forall n, In n (g_nodes g2) -> In n (g_nodes g3)).
  { destruct (find _ (g_nodes g2)).
    - injection E3 as _ <-. done.
    - pose proof (nodes_new_facts BSDF_PRINCIPLED g2) as (L & S & _).
      rewrite E3 in L, S. done. }
  destruct H3 as (L3 & S3).
  assert (Sg3 : forall n, In n (g_nodes g) -> In n (g_nodes g3)) by auto.
  assert (Hsrc : exists gA src, links_new src (n_id e, "Strength") gA =
                   match links_into (n_id p, "Metallic") g3 with
                   | l :: _ => links_new l.1 (n_id e, "Strength") g3
                   | [] => let '(value, g3') := nodes_new VALUE g3 in
                           links_new (n_id value, "Value") (n_id e, "Strength") g3'
                   end /\
                   g_links gA = g_links g /\
                   (forall n, In n (g_nodes g3) -> In n (g_nodes gA)) /\
                   node_exists gA src.1 = true).
  { destruct (links_into (n_id p, "Metallic") g3) as [|l ls] eqn:Ei.
    - pose proof (nodes_new_facts VALUE g3) as (L & S & I & _).
      destruct (nodes_new VALUE g3) as [v g3']. simpl in L, S, I.
      exists g3', (n_id v, "Value"%string). split_and!; [done|congruence|done|apply node_exists_in; done].
    - exists g3, l.1. split_and!; [done|congruence|done|].
      assert (Hl : In l (g_links g)).
      { rewrite <- L1, <- L2, <- L3.
        assert (H : In l (links_into (n_id p, "Metallic") g3)) by (rewrite Ei; left; done).
        unfold links_into in H. apply filter_In in H as [H _]. done. }
      destruct (Hc l Hl) as [Hf _]. eapply node_exists_sub; [exact Sg3|exact Hf]. }
  destruct Hsrc as (gA & src & EA & LA & SA & XA).
  rewrite <- EA.
  assert (SgA : forall n, In n (g_nodes g) -> In n (g_nodes gA)) by auto.
  assert (CA : links_closed gA) by (eapply closed_sub; [exact Hc|done|done]).
  assert (XeA : node_exists gA (n_id e) = true) by (eapply node_exists_sub; [|apply node_exists_in; exact I1]; auto).
  assert (XoA : node_exists gA (n_id o) = true) by (eapply node_exists_sub; [|apply node_exists_in; exact I2]; auto).
  set (g5 := links_new src (n_id e, "Strength") gA).
  assert (N5 : g_nodes g5 = g_nodes gA) by apply links_new_nodes.
  assert (Xe5 : node_exists g5 (n_id e) = true) by (rewrite (node_exists_nodes gA g5); done).
  assert (Xo5 : node_exists g5 (n_id o) = true) by (rewrite (node_exists_nodes gA g5); done).
  split.
  - destruct O2 as [Eo|[Eo Ho]].
    + destruct (has_surface_input (n_type o)) eqn:Hs; simpl; split.
      * discriminate.
      * intros (o' & E & H'). rewrite Eo in E. injection E as <-. congruence.
      * intros _. exists o. done.
      * done.
    + rewrite Ho. simpl. split; [discriminate|]. intros (o' & E & _). congruence.
  - intros Hsurf.
    assert (Hs : has_surface_input (n_type o) = true)
      by (destruct O2 as [Eo|[_ Ho]]; [apply Hsurf; done|rewrite Ho; done]).
    rewrite Hs.
    set (g6 := links_new (n_id e, "Emission") (n_id o, "Surface") g5).
    assert (N6 : g_nodes g6 = g_nodes g5) by apply links_new_nodes.
    exists g6, e, o, src. split_and!.
    + done.
    + intros n Hn. rewrite N6, N5. auto.
    + rewrite N6, N5. auto.
    + done.
    + done.
    + rewrite N6, N5. auto.
    + done.
    + apply links_new_into; done.
    + rewrite (node_exists_nodes gA g6); [done|]. congruence.
    + unfold g6. rewrite links_new_into_other; [apply links_new_into; done|]. intros [=].
    + apply links_new_closed, links_new_closed. exact CA.
Qed.

Lemma saves_of_app (l1 l2 : list event) : saves_of (l1 ++ l2) = saves_of l1 ++ saves_of l2.
Proof. unfold saves_of. apply omap_app. Qed.

Lemma bake_channel_saves (renderer : list event -> bool) (m : nat) (folder nm : string)
    (c : string * string) (w : world) :
  option_map m_name (mat_at (w_scene w) m) = Some nm ->
  let r := bake_channel renderer m folder c w in
  let s := (folder, String.append (map_name nm c.2) ".png") in
  exists new, w_trace r.1 = w_trace w ++ new /\
    (saves_of new = [] \/ saves_of new = [s]) /\ (r.2 = true -> saves_of new = [s]).
Proof.
  intros Hnm. destruct c as [bt sfx]. cbv zeta. unfold bake_channel. simpl fst. simpl snd.
  destruct (mat_at (w_scene w) m) as [mt|]; [|discriminate]. injection Hnm as <-.
  destruct (if String.eqb sfx "metallic" then _ else _) as [w1 pre] eqn:Epre.
  assert (Ht1 : w_trace w1 = w_trace w).
  { destruct (String.eqb sfx "metallic");
      [destruct (setup_metallic_nodes (m_graph mt)) as [g' r]; injection Epre as <- _;
       apply set_graph_trace|injection Epre as <- _; done]. }
  destruct pre as [ol|]; [|exists []; rewrite app_nil_r; split_and!; auto; discriminate].
  set (ok := renderer (w_trace w1)).
  set (es := EvBake (w_active w1) m (if String.eqb sfx "metallic" then "EMIT"%string else bt) ok
             :: (if ok then [EvSave folder (String.append (map_name (m_name mt) sfx) ".png")]
                 else [])).
  assert (Hes : (saves_of es = [] /\ ok = false) \/
                saves_of es = [(folder, String.append (map_name (m_name mt) sfx) ".png")]).
  { unfold es. destruct ok; [right|left]; done. }
  destruct ol as [[|x xs]|];
    try (exists es; simpl; rewrite Ht1; split_and!; [done|naive_solver|];
         intros Hok; destruct Hes as [[_ Hf]|]; [congruence|done]).
  destruct (graph_of (emit es w1) m) as [g2|];
    [|exists es; simpl; rewrite Ht1; split_and!; [done|naive_solver|discriminate]].
  set (g3 := restore_material_links g2 (x :: xs)).
  exists (es ++ [EvRestore m]).
  destruct (set_graph_trace m g3 (emit es w1)) as (Ht3 & _ & _).
  cbn [fst snd]. rewrite !emit_trace, Ht3, !emit_trace, Ht1, app_assoc, saves_of_app.
  simpl. rewrite app_nil_r. split_and!; [done|naive_solver|].
  intros Hok. destruct Hes as [[_ Hf]|]; [congruence|done].
Qed.

Lemma bake_all_maps_aux_saves (renderer : list event -> bool) (m : nat) (folder nm : string)
    (chs : list (string * string)) (w : world) :
  option_map m_name (mat_at (w_scene w) m) = Some nm ->
  let r := bake_all_maps_aux renderer m folder chs w in
  let ss := map (fun c => (folder, String.append (map_name nm c.2) ".png")) chs in
  exists new, w_trace r.1 = w_trace w ++ new /\
    saves_of new `prefix_of` ss /\ (r.2 = true -> saves_of new = ss).
Proof.
  revert w. induction chs as [|c cs IH]; intros w Hnm; cbv zeta; simpl.
  - exists []. rewrite app_nil_r. split_and!; auto; apply prefix_nil.
  - pose proof (bake_channel_saves renderer m folder nm c w Hnm) as Hc. cbv zeta in Hc.
    pose proof (bake_channel_kept renderer m folder c w) as [_ K].
    destruct (bake_channel renderer m folder c w) as [w' ok]. simpl in Hc, K.
    destruct Hc as (new1 & T1 & B1 & S1).
    destruct ok.
    + assert (Hnm' : option_map m_name (mat_at (w_scene w') m) = Some nm) by (rewrite K; done).
      destruct (IH w' Hnm') as (new2 & T2 & P2 & S2).
      exists (new1 ++ new2). rewrite saves_of_app, S1 by done.
      rewrite T2, T1, app_assoc. split_and!; [done| |].
      * apply prefix_cons. done.
      * intros H. rewrite S2 by done. done.
    + exists new1. simpl. split_and!; [done| |discriminate].
      destruct B1 as [->| ->]; [apply prefix_nil|apply prefix_cons, prefix_nil].
Qed.

(** X10: _bake_all_maps on an existing material saves, in channel order, a
    prefix of the five files <map_name>.png into the given folder, all
    five when it returns True, and keeps the material's name. *)
Theorem bake_all_maps_saves (renderer : list event -> bool) (m : nat) (folder : string)
    (w : world) (mt : material) :
  mat_at (w_scene w) m = Some mt ->
  let r := bake_all_maps renderer m folder w in
  let ss := map (fun c => (folder, String.append (map_name (m_name mt) c.2) ".png")) BAKE_TYPES in
  exists new, w_trace r.1 = w_trace w ++ new /\
    saves_of new `prefix_of` ss /\ (r.2 = true -> saves_of new = ss) /\
    option_map m_name (mat_at (w_scene r.1) m) = Some (m_name mt).
Proof.
  intros Hmt. cbv zeta. unfold bake_all_maps.
  assert (Hnm : option_map m_name (mat_at (w_scene w) m) = Some (m_name mt)) by (rewrite Hmt; done).
  destruct (bake_all_maps_aux_saves renderer m folder (m_name mt) BAKE_TYPES w Hnm)
    as (new & T & P & S).
  exists new. split_and!; [done..|].
  destruct (bake_all_maps_aux_kept renderer m folder BAKE_TYPES w) as [_ K]. rewrite K. done.
Qed.

Lemma str_length_app (a b : string) :
  String.length (String.append a b) = String.length a + String.length b.
Proof. induction a as [|x a IH]; simpl; [done|]. rewrite IH. done. Qed.

Lemma substring_app_prefix (a b : string) :
  substring 0 (String.length a) (String.append a b) = a.
Proof. induction a as [|x a IH]; simpl; [by destruct b|]. rewrite IH. done. Qed.

Lemma substring_app_skip (a b : string) (k m : nat) :
  substring (String.length a + k) m (String.append a b) = substring k m b.
Proof. induction a as [|x a IH]; simpl; [done|]. exact IH. Qed.

Lemma rfind_ge (c : ascii) (s : string) : (-1 <= rfind c s)%Z.
Proof.
  induction s as [|x s IH]; simpl; [lia|].
  destruct (Z.leb_spec 0 (rfind c s)); [lia|]. destruct (Ascii.eqb x c); lia.
Qed.

Lemma rfind_app (c : ascii) (a b : string) :
  rfind c (String.append a b) =
  if Z.leb 0 (rfind c b) then (Z.of_nat (String.length a) + rfind c b)%Z else rfind c a.
Proof.
  induction a as [|x a IH].
  - change (String.append "" b) with b. pose proof (rfind_ge c b).
    destruct (Z.leb_spec 0 (rfind c b)); cbn [String.length rfind Z.of_nat]; lia.
  - change (String.append (String x a) b) with (String x (String.append a b)).
    cbn [String.length rfind].
    rewrite IH. destruct (Z.leb_spec 0 (rfind c b)) as [H|H].
    + rewrite (proj2 (Z.leb_le _ _)) by lia. lia.
    + done.
Qed.

Lemma rfind_absent (c : ascii) (f : string) :
  existsb (fun d => Ascii.eqb d c) (list_ascii_of_string f) = false -> rfind c f = (-1)%Z.
Proof.
  induction f as [|x f IH]; simpl; [done|]. intros H. apply orb_false_iff in H as [H1 H2].
  rewrite IH by done. rewrite H1. done.
Qed.

Lemma rstrip_app (c : ascii) (a b : string) :
  rstrip c (String.append a b) =
  if String.eqb (rstrip c b) "" then rstrip c a else String.append a (rstrip c b).
Proof.
  induction a as [|x a IH].
  - change (String.append "" b) with b.
    destruct (String.eqb_spec (rstrip c b) "") as [->|]; done.
  - change (String.append (String x a) b) with (String x (String.append a b)).
    cbn [rstrip]. rewrite IH. destruct (String.eqb_spec (rstrip c b) "") as [E|E]; [done|].
    change (String.append (String x a) (rstrip c b)) with (String x (String.append a (rstrip c b))).
    destruct (String.append a (rstrip c b)) eqn:Ea; [|done].
    destruct a; [change (rstrip c b = "") in Ea; congruence|discriminate].
Qed.

Lemma str_snoc (d : string) :
  d <> "" -> exists d0 c, d = String.append d0 (String c "").
Proof.
  induction d as [|x d IH]; [done|]. intros _.
  destruct d as [|y d']; [exists "", x; done|].
  destruct IH as (d0 & c & E); [done|]. exists (String x d0), c. rewrite E. done.
Qed.

Lemma endswith_snoc (d0 : string) (c : ascii) :
  endswith "/" (String.append d0 (String c "")) = Ascii.eqb c "/".
Proof.
  unfold endswith. rewrite str_length_app. simpl.
  replace (String.length d0 + 1 - 1) with (String.length d0 + 0) by lia.
  rewrite substring_app_skip. rewrite Nat.add_1_r. simpl.
  destruct (Ascii.eqb_spec c "/") as [->|Hc]; [done|].
  destruct (String.eqb_spec (String c "") "/") as [E|]; [|done]. injection E as E. done.
Qed.

Lemma endswith_last (d : string) :
  d <> "" -> endswith "/" d = false -> exists d0 c, d = String.append d0 (String c "") /\ c <> "/"%char.
Proof.
  intros Hd He. destruct (str_snoc d Hd) as (d0 & c & ->). exists d0, c. split; [done|].
  rewrite endswith_snoc in He. intros ->. done.
Qed.

Lemma list_ascii_of_string_app (a b : string) :
  list_ascii_of_string (String.append a b) = list_ascii_of_string a ++ list_ascii_of_string b.
Proof. induction a as [|x a IH]; simpl; [done|]. rewrite IH. done. Qed.

Lemma str_repeat_slashes (n : nat) (x : ascii) :
  In x (list_ascii_of_string (str_repeat "/" n)) -> x = "/"%char.
Proof. induction n as [|n IH]; simpl; [done|]. intros [->|H]; auto. Qed.

Lemma output_dir_join (d f : string) :
  existsb (fun c => Ascii.eqb c "/") (list_ascii_of_string f) = false ->
  endswith "/" d = false ->
  path_join (dirname (String.append d (String "/" f))) "BakedTextures" =
    String.append d "/BakedTextures".
Proof.
  intros Hf Hd. unfold dirname.
  rewrite rfind_app. simpl rfind. rewrite rfind_absent by done. simpl.
  replace (Z.to_nat (Z.of_nat (String.length d) + 0 + 1)) with (String.length (String.append d "/"))
    by (rewrite str_length_app; simpl; lia).
  replace (String.append d (String "/" f)) with (String.append (String.append d "/") f)
    by (rewrite str_app_assoc; done).
  rewrite substring_app_prefix.
  destruct (decide (d = "")) as [->|Hd0]; [reflexivity|].
  destruct (endswith_last d Hd0 Hd) as (d0 & c & -> & Hc).
  rewrite (proj2 (String.eqb_neq _ _)) by (destruct d0; discriminate).
  rewrite (proj2 (String.eqb_neq (String.append (String.append d0 (String c "")) "/") _)).
  2:{ intros E. apply Hc. apply (str_repeat_slashes (String.length
        (String.append (String.append d0 (String c "")) "/"))). rewrite <- E.
      rewrite !list_ascii_of_string_app. apply in_app_iff. left. apply in_app_iff. right. left. done. }
  simpl. rewrite rstrip_app. simpl. rewrite rstrip_app. simpl.
  assert (Hc' : Ascii.eqb c "/" = false) by (apply Ascii.eqb_neq; done). rewrite Hc'. simpl.
  unfold path_join. simpl. rewrite endswith_snoc, Hc'.
  rewrite (proj2 (String.eqb_neq _ _)) by (destruct d0; discriminate). simpl.
  reflexivity.
Qed.

(** X11: get_output_path raises for an unsaved file (empty path). For a
    saved file d/f, with f free of '/' and d not ending in '/', the output
    folder is d/BakedTextures: it is returned when it exists or
    os.makedirs creates it, and the call raises otherwise. *)
Theorem get_output_path_spec (path_exists makedirs_ok : string -> bool) (filepath : string) :
  (filepath = "" -> get_output_path path_exists makedirs_ok filepath = None) /\
  (forall d f, filepath = String.append d (String "/" f) ->
     existsb (fun c => Ascii.eqb c "/") (list_ascii_of_string f) = false ->
     endswith "/" d = false ->
     get_output_path path_exists makedirs_ok filepath =
       if path_exists (String.append d "/BakedTextures") ||
          makedirs_ok (String.append d "/BakedTextures")
       then Some (String.append d "/BakedTextures") else None).
Proof.
  split.
  - intros ->. reflexivity.
  - intros d f -> Hf Hd. unfold get_output_path.
    assert (Hne : String.eqb (String.append d (String "/" f)) "" = false) by (destruct d; done).
    rewrite Hne. cbv zeta. rewrite output_dir_join by done. reflexivity.
Qed.

Lemma endswith_app (a b : string) :
  b <> "" -> endswith "/" (String.append a b) = endswith "/" b.
Proof.
  intros Hb. destruct (str_snoc b Hb) as (b0 & c & ->).
  rewrite <- str_app_assoc, !endswith_snoc. done.
Qed.

Lemma startswith_slash (c : ascii) (r : string) :
  startswith "/" (String c r) = Ascii.eqb c "/".
Proof.
  unfold startswith. cbn [String.prefix]. destruct (ascii_dec "/" c) as [<-|Hc]; [destruct r; reflexivity|].
  symmetry. apply Ascii.eqb_neq. congruence.
Qed.

Lemma startswith_app (a b : string) :
  a <> "" -> startswith "/" (String.append a b) = startswith "/" a.
Proof.
  intros Ha. destruct a as [|c a]; [done|].
  change (String.append (String c a) b) with (String c (String.append a b)).
  rewrite !startswith_slash. done.
Qed.

Lemma str_app_nonempty (a b : string) : a <> "" -> String.append a b <> "".
Proof. destruct a; [done|]. intros _. discriminate. Qed.

(** X12: For an output folder not ending in '/': a material name starting with
    '/' replaces the folder, and the image is saved at the absolute path
    <map_name>.png; any other non-empty name not ending in '/' gives the
    folder out/name and the image out/name/<map_name>.png. *)
Theorem material_image_path (out name sfx : string) :
  out <> "" -> endswith "/" out = false ->
  let folder := create_material_folder name out in
  let file := String.append (map_name name sfx) ".png" in
  (startswith "/" name = true ->
     folder = name /\ save_baked_image_path folder file = file) /\
  (startswith "/" name = false -> name <> "" -> endswith "/" name = false ->
     folder = String.append out (String.append "/" name) /\
     save_baked_image_path folder file =
       String.append out (String.append "/" (String.append name (String.append "/" file)))).
Proof.
  intros Hout Hoe. cbv zeta. unfold create_material_folder, save_baked_image_path, path_join.
  rewrite map_name_eq. split.
  - intros Hs. rewrite Hs. split; [done|].
    assert (Hn : name <> "") by (destruct name; done).
    rewrite startswith_app, startswith_app, Hs by (try apply str_app_nonempty; done). done.
  - intros Hs Hne Hne'. rewrite Hs.
    rewrite (proj2 (String.eqb_neq out "")) by done. rewrite Hoe. cbn [orb]. split; [done|].
    rewrite startswith_app, startswith_app, Hs by (try apply str_app_nonempty; done).
    rewrite (proj2 (String.eqb_neq _ _)) by (apply str_app_nonempty; done).
    rewrite !endswith_app by (try apply str_app_nonempty; done). rewrite Hne'. cbn [orb].
    rewrite !str_app_assoc. done.
Qed.

(** X14: round4 x is an integer nearest to 10^4 x, and the even one on a tie. *)
Theorem round4_nearest_even (x : Q) :
  let n := (Qnum x * 10000)%Z in
  let d := Zpos (Qden x) in
  (2 * Z.abs (n - round4 x * d) <= d)%Z /\
  ((2 * Z.abs (n - round4 x * d))%Z = d -> Z.even (round4 x) = true).
Proof.
  cbv zeta. unfold round4.
  set (n := (Qnum x * 10000)%Z). set (d := Zpos (Qden x)).
  assert (Hd : (0 < d)%Z) by (unfold d; lia).
  pose proof (Z.div_mod n d ltac:(lia)) as Hdm.
  pose proof (Z.mod_pos_bound n d Hd) as Hb.
  set (q := (n / d)%Z) in *. set (r := (n mod d)%Z) in *.
  destruct (Z.ltb_spec (2 * r) d) as [H1|H1].
  - replace (n - q * d)%Z with r by lia. rewrite Z.abs_eq by lia. split; [lia|]. lia.
  - destruct (Z.ltb_spec d (2 * r)) as [H2|H2].
    + replace (n - (q + 1) * d)%Z with (r - d)%Z by lia.
      rewrite Z.abs_neq by lia. split; [lia|]. lia.
    + destruct (Z.even q) eqn:Eq.
      * replace (n - q * d)%Z with r by lia. rewrite Z.abs_eq by lia. split; [lia|done].
      * replace (n - (q + 1) * d)%Z with (r - d)%Z by lia.
        rewrite Z.abs_neq by lia. split; [lia|]. intros _.
        rewrite Z.even_add, Eq. done.
Qed.

(** X15: bake_material on a material that no mesh groups (no usage with a
    non-sentinel fingerprint) returns False and changes nothing. *)
Theorem bake_material_no_group (renderer : list event -> bool) (m : nat) (w : world) :
  (forall x h, ~ grouped (sc_objects (w_scene w)) m x h) ->
  bake_material renderer m w = (w, false).
Proof.
  intros Hno. unfold bake_material.
  destruct (uv_groups_of m 0 (sc_objects (w_scene w)) []) as [[|[h os] gs]|] eqn:E; [done| |done].
  destruct (uv_groups_of_spec m (sc_objects (w_scene w))) as [_ Hs].
  destruct (Hs _ E) as (_ & Hshape & Hiff).
  destruct (Hshape h os (or_introl eq_refl)) as (_ & Hne & _).
  destruct os as [|x xs]; [done|]. exfalso. apply (Hno x h).
  apply Hiff. exists (x :: xs). split; [left; done|left; done].
Qed.

Lemma get_all_materials_objects (sc sc' : scene) :
  sc_objects sc' = sc_objects sc -> get_all_materials sc' = get_all_materials sc.
Proof. unfold get_all_materials. intros ->. done. Qed.

(** X16: execute reports nothing and bakes nothing when the file is
    unsaved or no mesh has a filled slot; a report (n, t) has n <= t,
    where t is the number of distinct materials in mesh slots. *)
Theorem execute_report (renderer : list event -> bool) (filepath : string) (sc : scene) :
  (filepath = "" \/ get_all_materials sc = [] ->
     (execute renderer filepath sc).2 = None /\ w_trace (execute renderer filepath sc).1 = []) /\
  (forall n t, (execute renderer filepath sc).2 = Some (n, t) ->
     n <= t /\ t = length (get_all_materials sc)).
Proof.
  unfold execute.
  rewrite <- (get_all_materials_objects sc (duplicate_shared_materials sc))
    by apply duplicate_shared_materials_objects.
  destruct (String.eqb_spec filepath "") as [->|Hf].
  { simpl. split; [done|discriminate]. }
  destruct (get_all_materials (duplicate_shared_materials sc)) as [|m0 ms] eqn:E.
  { simpl. split; [done|discriminate]. }
  pose proof (execute_loop_count renderer (m0 :: ms) (mkWorld (duplicate_shared_materials sc) None [])) as Hc.
  destruct (execute_loop renderer (m0 :: ms) _) as [w n]. simpl in Hc |- *.
  split.
  - intros [|]; done.
  - intros n' t [= <- <-]. split; [simpl; lia|done].
Qed.

(** ** Witnesses of the further properties *)

Lemma execute_material_table_witness :
  execute (fun _ => true) "/x.blend" (scene_AB tri_uvs_A) =
    ((execute (fun _ => true) "/x.blend" (scene_AB tri_uvs_A)).1, Some (1, 1)) /\
  let w := (execute (fun _ => true) "/x.blend" (scene_AB tri_uvs_A)).1 in
  sc_objects (w_scene w) = sc_objects (scene_AB tri_uvs_A) /\
  forall m, mat_at (scene_AB tri_uvs_A) m <> None -> has_users (scene_AB tri_uvs_A) m = true ->
    mat_at (w_scene w) m <> None.
Proof.
  split; [vm_compute; reflexivity|].
  apply (execute_material_table (fun _ => true) "/x.blend" (scene_AB tri_uvs_A) _ (1, 1)).
  vm_compute. reflexivity.
Defined.

Lemma restore_material_links_nodes_witness :
  ids_ok default_graph /\
  g_nodes (restore_material_links default_graph (g_links default_graph)) =
    List.filter (fun n => negb (is_temp_kind (n_type n))) (g_nodes default_graph) /\
  (links_closed default_graph ->
   links_closed (restore_material_links default_graph (g_links default_graph))).
Proof.
  split; [apply default_graph_ids_ok|].
  apply (restore_material_links_nodes default_graph (g_links default_graph)).
  apply default_graph_ids_ok.
Defined.

Lemma setup_bake_node_spec_witness :
  ids_ok default_graph /\
  (setup_bake_node default_graph).1 = g_next default_graph /\
  (forall n, In n (g_nodes default_graph) -> n_name n <> "Bake_Target"%string ->
     In n (g_nodes (setup_bake_node default_graph).2)) /\
  (length (bake_targets default_graph) <= 1 ->
     bake_targets (setup_bake_node default_graph).2 =
       [mkNode (g_next default_graph) TEX_IMAGE "Bake_Target"]).
Proof.
  split; [apply default_graph_ids_ok|].
  apply (setup_bake_node_spec default_graph). apply default_graph_ids_ok.
Defined.

Lemma setup_metallic_nodes_spec_witness :
  links_closed default_graph /\
  (snd (setup_metallic_nodes default_graph) = None <->
   exists o, nodes_get "Material Output" default_graph = Some o /\
             has_surface_input (n_type o) = false) /\
  ((forall o, nodes_get "Material Output" default_graph = Some o ->
              has_surface_input (n_type o) = true) ->
   exists g' e o src,
    setup_metallic_nodes default_graph = (g', Some (g_links default_graph)) /\
    (forall n, In n (g_nodes default_graph) -> In n (g_nodes g')) /\
    In e (g_nodes g') /\ n_type e = EMISSION /\ n_id e = g_next default_graph /\
    In o (g_nodes g') /\
    (nodes_get "Material Output" default_graph = Some o \/
     (nodes_get "Material Output" default_graph = None /\ n_type o = OUTPUT_MATERIAL)) /\
    links_into (n_id o, "Surface") g' = [((n_id e, "Emission"), (n_id o, "Surface"))] /\
    node_exists g' src.1 = true /\
    links_into (n_id e, "Strength") g' = [(src, (n_id e, "Strength"))] /\
    links_closed g').
Proof.
  assert (Hc : links_closed default_graph).
  { intros l Hl. simpl in Hl. destruct Hl as [<-|[]]. split; reflexivity. }
  split; [exact Hc|]. apply (setup_metallic_nodes_spec default_graph). exact Hc.
Defined.

Lemma bake_all_maps_saves_witness :
  mat_at (w_scene (world_of_graph default_graph)) 0 = Some (mkMat "M" default_graph) /\
  let r := bake_all_maps (fun _ => true) 0 "M" (world_of_graph default_graph) in
  let ss := map (fun c => ("M"%string, String.append (map_name "M" c.2) ".png")) BAKE_TYPES in
  exists new, w_trace r.1 = w_trace (world_of_graph default_graph) ++ new /\
    saves_of new `prefix_of` ss /\ (r.2 = true -> saves_of new = ss) /\
    option_map m_name (mat_at (w_scene r.1) 0) = Some "M"%string.
Proof.
  split; [reflexivity|].
  apply (bake_all_maps_saves (fun _ => true) 0 "M" (world_of_graph default_graph)
           (mkMat "M" default_graph)).
  reflexivity.
Defined.

Lemma material_image_path_witness :
  "/p/BakedTextures"%string <> "" /\ endswith "/" "/p/BakedTextures" = false /\
  let folder := create_material_folder "M" "/p/BakedTextures" in
  let file := String.append (map_name "M" "diffuse") ".png" in
  (startswith "/" "M" = true ->
     folder = "M"%string /\ save_baked_image_path folder file = file) /\
  (startswith "/" "M" = false -> "M"%string <> "" -> endswith "/" "M" = false ->
     folder = String.append "/p/BakedTextures" (String.append "/" "M") /\
     save_baked_image_path folder file =
       String.append "/p/BakedTextures" (String.append "/" (String.append "M" (String.append "/" file)))).
Proof.
  split; [discriminate|]. split; [vm_compute; reflexivity|].
  apply (material_image_path "/p/BakedTextures" "M" "diffuse"); [discriminate|vm_compute; reflexivity].
Defined.

Lemma bake_material_no_group_witness :
  (forall x h, ~ grouped (sc_objects (w_scene no_uv_world)) 0 x h) /\
  bake_material (fun _ => true) 0 no_uv_world = (no_uv_world, false).
Proof.
  assert (Hno : forall x h, ~ grouped (sc_objects (w_scene no_uv_world)) 0 x h).
  { intros x h (o & Ho & _ & _ & Hh & Hs).
    destruct x as [|x]; [|discriminate]. injection Ho as <-.
    vm_compute in Hh. injection Hh as <-. discriminate. }
  split; [exact Hno|]. apply (bake_material_no_group (fun _ => true) 0 no_uv_world). exact Hno.
Defined.

